(** * customer-commerce-analytics: the ETL validation and reconciliation core

    A shallow embedding of [etl/utils/helpers.py] and [etl/etl_pipeline.py].

    - A pandas frame is a list of rows; where the code addresses rows by
      index label ([apply_validations]) the label is kept next to the row.
    - float64 columns are IEEE binary64 values ([spec_float], precision 53,
      emax 1024); nullable [Int64] columns are [option Z]; [int64] columns
      are [Z] with the wrap-around written out.
    - A Python [str] is the list of its code points.
    - The logger and Python exceptions are threaded through the [Eff]
      monad: a log of records plus either an exception or a value. *)

From Stdlib Require Import ZArith NArith Lia SpecFloat.
From stdpp Require Import base option list gmap strings sorting.

#[local] Open Scope Z_scope.

(** ** binary64 *)

Module Float64.

Definition float : Type := spec_float.

Definition prec : Z := 53.
Definition emax : Z := 1024.

Definition add : float → float → float := SFadd prec emax.
Definition sub : float → float → float := SFsub prec emax.
Definition mul : float → float → float := SFmul prec emax.
Definition abs : float → float := SFabs.
Definition leb : float → float → bool := SFleb.
Definition ltb : float → float → bool := SFltb.
Definition eqb : float → float → bool := SFeqb.
(** Python's [x > y]. *)
Definition gtb (x y : float) : bool := SFltb y x.

Definition of_Z (z : Z) : float := binary_normalize prec emax z 0 false.

Definition zero : float := S754_zero false.
Definition one : float := Eval vm_compute in of_Z 1.
Definition hundred : float := Eval vm_compute in of_Z 100.

(** The exact integer [z] as an operand of the quotient below. *)
Definition exact_int (z : Z) : float :=
  match z with
  | Z0 => S754_zero false
  | Zpos p => S754_finite false p 0
  | Zneg p => S754_finite true p 0
  end.

(** Python's [a / b] on two [int]s: the quotient of the exact integers,
    rounded once to nearest-even (CPython's [long_true_divide]).  This is
    [SFdiv]'s divide-and-round applied to the integers themselves. *)
Definition int_true_divide (a b : Z) : float :=
  SFdiv prec emax (exact_int a) (exact_int b).

End Float64.

Import Float64.

(** ** Python strings *)

(** A [str] is its sequence of code points. *)
Abbreviation PyStr := (list N).

#[local] Open Scope N_scope.

Module Str.

(** [Py_UNICODE_ISSPACE]: the code points [str.strip()] removes and the
    regex class [\s] matches on a [str] pattern. *)
Definition isspace (c : N) : bool :=
  ((9 <=? c) && (c <=? 13)) || ((28 <=? c) && (c <=? 32))
  || (c =? 133) || (c =? 160) || (c =? 5760)
  || ((8192 <=? c) && (c <=? 8202))
  || (c =? 8232) || (c =? 8233) || (c =? 8239) || (c =? 8287) || (c =? 12288).

Definition space : N := 32.

Fixpoint lstrip (s : PyStr) : PyStr :=
  match s with
  | c :: s' => if isspace c then lstrip s' else s
  | [] => []
  end.

Definition rstrip (s : PyStr) : PyStr := reverse (lstrip (reverse s)).

(** [s.strip()] *)
Definition strip (s : PyStr) : PyStr := rstrip (lstrip s).

(** [re.sub(r"\s+", " ", s)]: every maximal run of whitespace becomes
    one space.  [in_run] says the previous code point was whitespace. *)
Fixpoint collapse_from (in_run : bool) (s : PyStr) : PyStr :=
  match s with
  | [] => []
  | c :: s' =>
      if isspace c
      then (if in_run then collapse_from true s' else space :: collapse_from true s')
      else c :: collapse_from false s'
  end.

Definition collapse_ws (s : PyStr) : PyStr := collapse_from false s.

(** *** Case mapping

    [str.title()] reads three tables of the Unicode character database:
    the full lowercase mapping, the full titlecase mapping and the Cased
    property.  The tables are given here on ASCII and on U+0130 (LATIN
    CAPITAL LETTER I WITH DOT ABOVE) and U+0307 (COMBINING DOT ABOVE);
    other code points are left unmapped and uncased, so statements below
    are made for strings inside this fragment only. *)

Definition is_ascii (c : N) : bool := c <? 128.
Definition is_ascii_upper (c : N) : bool := (65 <=? c) && (c <=? 90).
Definition is_ascii_lower (c : N) : bool := (97 <=? c) && (c <=? 122).

Definition to_lower_full (c : N) : list N :=
  if is_ascii_upper c then [c + 32]
  else if c =? 304 then [105; 775]
  else [c].

Definition to_title_full (c : N) : list N :=
  if is_ascii_lower c then [c - 32] else [c].

Definition is_cased (c : N) : bool :=
  is_ascii_upper c || is_ascii_lower c || (c =? 304).

(** CPython's [do_title]: a code point is lowercased when the previous
    one is cased and titlecased otherwise. *)
Fixpoint title_from (previous_is_cased : bool) (s : PyStr) : PyStr :=
  match s with
  | [] => []
  | c :: s' =>
      (if previous_is_cased then to_lower_full c else to_title_full c)
        ++ title_from (is_cased c) s'
  end.

(** [s.title()] *)
Definition title (s : PyStr) : PyStr := title_from false s.

(** Code point order, the order of [str] under [<=]. *)
Fixpoint leb (s t : PyStr) : bool :=
  match s, t with
  | [], _ => true
  | _ :: _, [] => false
  | a :: s', b :: t' =>
      if a <? b then true else if a =? b then leb s' t' else false
  end.

Definition le (s t : PyStr) : Prop := leb s t = true.

#[global] Instance le_dec : RelDecision le.
Proof. intros s t. unfold le. apply _. Defined.

End Str.

#[local] Close Scope N_scope.

(** ** int64 *)

Definition wrap64 (z : Z) : Z := (z + 2 ^ 63) mod 2 ^ 64 - 2 ^ 63.
Definition int64_max : Z := 2 ^ 63 - 1.

(** ** Logging and exceptions *)

(** The messages the two modules emit, with their arguments.  The four
    messages about written files name a path under [paths.processed_dir];
    the constructor stands for the message and the path is left out. *)
Inductive LogMsg :=
| PostValidation (end_rows dropped : Z) (drop_pct : float)
| DroppedItemRows (dropped : Z)
| DroppedBuyerRows (dropped : Z)
| MissingFK (rows : Z)
| FactRowCount (rows : Z)
| LoadedFactSales
| InsertingDim (table : string) (rows : Z)
| NoNewDim (table : string)
| SavedCleanedData                       (* "Saved cleaned data to %s." *)
| GeneratingDimensions                   (* "Generating dimensions..." *)
| SavedDimensionTables                   (* "Saved dimension tables to %s." *)
| ValidatingFactData                     (* "Validating fact data..." *)
| SavedValidatedRows                     (* "Saved validated rows to %s." *)
| SavedRejectedRows                      (* "Saved rejected rows to %s." *)
| NoRejectedRows                         (* "No rejected rows from validation." *)
| DryRunComplete                         (* "DRY RUN complete:" *)
| RowsPrepared (table : string) (rows : Z)  (* "  - dim_date rows prepared: %d." *)
| FactRowsValidated (rows : Z)           (* "  - fact rows validated: %d." *)
| NoDataWritten                          (* "No data was written to the database ..." *)
| LoadingPostgres
| EtlCompleted.

Inductive Level := INFO | WARNING.

Definition LogRecord : Type := Level * LogMsg.

(** Every failure in the two modules is a [ValueError]; the constructor is
    the message. *)
Inductive Exception :=
| NoValidDates
| UnsupportedDimension
| DropRateExceeds (drop_pct max_pct : float).

Definition Eff (A : Type) : Type :=
  list LogRecord → (Exception + A) * list LogRecord.

#[export] Instance Eff_ret : MRet Eff := λ A x log, (inr x, log).
#[export] Instance Eff_bind : MBind Eff := λ A B k c log,
  match c log with
  | (inl e, log') => (inl e, log')
  | (inr x, log') => k x log'
  end.

Definition raise {A} (e : Exception) : Eff A := λ log, (inl e, log).
Definition emit (lvl : Level) (m : LogMsg) : Eff unit :=
  λ log, (inr tt, log ++ [(lvl, m)]).
Definition when (b : bool) (c : Eff unit) : Eff unit :=
  if b then c else mret tt.

(** Python's [len]. *)
Definition len {A} (l : list A) : Z := Z.of_nat (length l).

(** ** Rows *)

Record RawRecord := {
  date : option Z;                 (* Timestamp, ns since the epoch; NaT = None *)
  transaction_id : option Z;
  buyer_id : option Z;
  item_id : option Z;
  item_code : option PyStr;
  item_name : option PyStr;
  category : option PyStr;
  version : option PyStr;
  final_quantity : Z;
  total_revenue : float;
  price_reductions : float;
  refunds : float;
  final_revenue : float;
  sales_tax : float;
  overall_revenue : float;
  refunded_item_count : Z;
  purchased_item_count : Z;
}.

(** A frame whose rows are addressed by index label. *)
Abbreviation Frame R := (list (Z * R)).

Definition index {R} (df : Frame R) : list Z := df.*1.

(** ** Configuration *)

Record Config := {
  canonicalize_category : option bool;   (* pipeline.canonicalize.get("category") *)
  item_attributes : string;              (* pipeline.canonicalize["item_attributes"] *)
  checks : gmap string bool;             (* validation.checks *)
  tolerance : float;                     (* validation.tolerance *)
  max_error_rate : option float;         (* validation.get("max_error_rate", 1.0) *)
  dry_run : option bool;                 (* pipeline.get("dry_run", False) *)
}.

(** [d.get(k)] used as a condition. *)
Definition truthy (d : gmap string bool) (k : string) : bool :=
  default false (d !! k).

(** ** [apply_validations] *)

(** A row of the working frame: the raw columns plus the [chk_] columns
    the checks add. *)
Record WorkRow := {
  raw : RawRecord;
  chk_rev1 : option float;
  chk_rev2 : option float;
  chk_qty : option Z;
}.

Definition work (r : RawRecord) : WorkRow :=
  {| raw := r; chk_rev1 := None; chk_rev2 := None; chk_qty := None |}.

Definition set_chk_rev1 (w : WorkRow) : WorkRow :=
  {| raw := raw w;
     chk_rev1 := Some (add (add (total_revenue (raw w)) (price_reductions (raw w)))
                           (refunds (raw w)));
     chk_rev2 := chk_rev2 w; chk_qty := chk_qty w |}.

Definition set_chk_rev2 (w : WorkRow) : WorkRow :=
  {| raw := raw w; chk_rev1 := chk_rev1 w;
     chk_rev2 := Some (add (final_revenue (raw w)) (sales_tax (raw w)));
     chk_qty := chk_qty w |}.

Definition set_chk_qty (w : WorkRow) : WorkRow :=
  {| raw := raw w; chk_rev1 := chk_rev1 w; chk_rev2 := chk_rev2 w;
     chk_qty := Some (wrap64 (purchased_item_count (raw w)
                              + refunded_item_count (raw w))) |}.

(** The four row masks.  A mask is false on a missing operand, as a
    comparison with NaN is. *)
Definition revenue_mask (tol : float) (w : WorkRow) : bool :=
  match chk_rev1 w with
  | Some c => leb (abs (sub (final_revenue (raw w)) c)) tol
  | None => false
  end.

Definition overall_mask (tol : float) (w : WorkRow) : bool :=
  match chk_rev2 w with
  | Some c => leb (abs (sub (overall_revenue (raw w)) c)) tol
  | None => false
  end.

Definition quantity_mask (w : WorkRow) : bool :=
  match chk_qty w with
  | Some c => bool_decide (final_quantity (raw w) = c)
  | None => false
  end.

Definition refunded_mask (w : WorkRow) : bool :=
  bool_decide (refunded_item_count (raw w) ≤ 0).

(** [df[col] = f(df)] on every row, labels untouched. *)
Definition assign {R} (f : R → R) (df : Frame R) : Frame R :=
  prod_map id f <$> df.

(** [df[mask].copy()]. *)
Definition select {R} (mask : R → bool) (df : Frame R) : Frame R :=
  filter (λ ir, mask ir.2) df.

Definition check_revenue_balance (cfg : Config) (df : Frame WorkRow) :=
  if truthy (checks cfg) "revenue_balance"
  then select (revenue_mask (tolerance cfg)) (assign set_chk_rev1 df)
  else df.

Definition check_overall_balance (cfg : Config) (df : Frame WorkRow) :=
  if truthy (checks cfg) "overall_balance"
  then select (overall_mask (tolerance cfg)) (assign set_chk_rev2 df)
  else df.

Definition check_quantity_balance (cfg : Config) (df : Frame WorkRow) :=
  if truthy (checks cfg) "quantity_balance"
  then select quantity_mask (assign set_chk_qty df)
  else df.

Definition check_refunded_nonpositive (cfg : Config) (df : Frame WorkRow) :=
  if truthy (checks cfg) "refunded_nonpositive"
  then select refunded_mask df
  else df.

(** The input frame seen as a working frame with no [chk_] column yet. *)
Definition working (df : Frame RawRecord) : Frame WorkRow :=
  prod_map id work <$> df.

(** The frame after the four [if checks.get(...)] blocks. *)
Definition run_checks (cfg : Config) (df : Frame RawRecord) : Frame WorkRow :=
  check_refunded_nonpositive cfg
    (check_quantity_balance cfg
       (check_overall_balance cfg
          (check_revenue_balance cfg (working df)))).

Definition dropped_rows (cfg : Config) (df : Frame RawRecord) : Z :=
  len df - len (run_checks cfg df).

Definition drop_rate (cfg : Config) (df : Frame RawRecord) : float :=
  int_true_divide (dropped_rows cfg df) (Z.max (len df) 1).

Definition max_err (cfg : Config) : float := default one (max_error_rate cfg).

(** [df.drop(columns=[c for c in df.columns if c.startswith("chk_")])]. *)
Definition drop_chk (df : Frame WorkRow) : Frame RawRecord :=
  prod_map id raw <$> df.

(** [df_original.loc[~df_original.index.isin(df_cleaned.index)]]. *)
Definition not_isin {R S} (df_original : Frame R) (df_cleaned : Frame S) : Frame R :=
  filter (λ ir, ir.1 ∉ index df_cleaned) df_original.

Definition apply_validations (df : Frame RawRecord) (cfg : Config)
  : Eff (Frame RawRecord * Frame RawRecord) :=
  let df_original := df in
  let start_rows := len df in
  let df := run_checks cfg df in
  let end_rows := len df in
  let dropped := start_rows - end_rows in
  let drop_rate := int_true_divide dropped (Z.max start_rows 1) in
  emit INFO (PostValidation end_rows dropped (mul drop_rate hundred));;
  let max_err := default one (max_error_rate cfg) in
  if gtb drop_rate max_err
  then raise (DropRateExceeds (mul drop_rate hundred) (mul max_err hundred))
  else
    let df_cleaned := drop_chk df in
    let rejected := not_isin df_original df_cleaned in
    mret (df_cleaned, rejected).


(** ** Calendar *)

Module Calendar.

Definition ns_per_day : Z := 86400 * 1000000000.

(** [Timestamp.date()], as days since 1970-01-01. *)
Definition date_of (ts : Z) : Z := ts `div` ns_per_day.

(** Midnight of a day, as a [Timestamp]. *)
Definition midnight (d : Z) : Z := d * ns_per_day.

(** Proleptic Gregorian (year, month, day) of a day number. *)
Definition civil (d : Z) : Z * Z * Z :=
  let z := d + 719468 in
  let era := z `div` 146097 in
  let doe := z - era * 146097 in
  let yoe := (doe - doe `div` 1460 + doe `div` 36524 - doe `div` 146096) `div` 365 in
  let doy := doe - (365 * yoe + yoe `div` 4 - yoe `div` 100) in
  let mp := (5 * doy + 2) `div` 153 in
  let dd := doy - (153 * mp + 2) `div` 5 + 1 in
  let mm := if decide (mp < 10) then mp + 3 else mp - 9 in
  let yy := yoe + era * 400 + (if decide (mm ≤ 2) then 1 else 0) in
  (yy, mm, dd).

Definition year (d : Z) : Z := (civil d).1.1.
Definition month (d : Z) : Z := (civil d).1.2.
Definition day (d : Z) : Z := (civil d).2.
Definition quarter (d : Z) : Z := (month d - 1) `div` 3 + 1.

(** [DatetimeIndex.weekday]: Monday is 0 and Sunday is 6.  Day 0 is a
    Thursday. *)
Definition weekday (d : Z) : Z := (d + 3) `mod` 7.

(** [date.isoweekday()]: Monday is 1 and Sunday is 7. *)
Definition isoweekday (d : Z) : Z := weekday d + 1.

End Calendar.

(** ** Dimension and fact rows *)

Module DateDim.
Record row := {
  full_date : Z;            (* Timestamp at midnight *)
  year : Z;
  quarter : Z;
  month : Z;
  day : Z;
  is_weekend : bool;
}.
End DateDim.

Module ItemDim.
Record row := {
  item_code : option PyStr;
  item_id : option Z;
  item_name : option PyStr;
  category : option PyStr;
  version : option PyStr;
}.
#[global] Instance row_eq_dec : EqDecision row.
Proof. solve_decision. Defined.
End ItemDim.

Module BuyerDim.
Record row := { buyer_id : option Z }.
#[global] Instance row_eq_dec : EqDecision row.
Proof. solve_decision. Defined.
End BuyerDim.

Module Fact.
Record row := {
  date_key : option Z;
  item_key : option Z;
  buyer_key : option Z;
  transaction_id : option Z;
  final_quantity : Z;
  total_revenue : float;
  price_reductions : float;
  refunds : float;
  final_revenue : float;
  sales_tax : float;
  overall_revenue : float;
  refunded_item_count : Z;
  purchased_item_count : Z;
}.
End Fact.

(** ** [build_date_dimension] *)

Definition min_list (x : Z) (l : list Z) : Z := foldr Z.min x l.
Definition max_list (x : Z) (l : list Z) : Z := foldr Z.max x l.

Definition date_row (d : Z) : DateDim.row :=
  {| DateDim.full_date := Calendar.midnight d;
     DateDim.year := Calendar.year d;
     DateDim.quarter := Calendar.quarter d;
     DateDim.month := Calendar.month d;
     DateDim.day := Calendar.day d;
     DateDim.is_weekend := bool_decide (5 ≤ Calendar.weekday d) |}.

(** [pd.date_range(start, end, freq="D")], as day numbers. *)
Definition date_range (start stop : Z) : list Z := seqZ start (stop - start + 1).

Definition build_date_dimension (df : Frame RawRecord) (cfg : Config)
  : Eff (list DateDim.row) :=
  let series := omap (λ ir, date ir.2) df in            (* df[col].dropna() *)
  match series with
  | [] => raise NoValidDates
  | t :: ts =>
      let min_date := Calendar.date_of (min_list t ts) in
      let max_date := Calendar.date_of (max_list t ts) in
      let dates := date_range min_date max_date in
      mret (date_row <$> dates)
  end.

(** ** [load_dimension_table] *)

(** The Canonicalizer: [.str.strip().str.replace(r"\s+", " ").str.title()]
    on one cell; a missing cell stays missing. *)
Definition canon_str (s : PyStr) : PyStr :=
  Str.title (Str.collapse_ws (Str.strip s)).

Definition canon_cell (c : option PyStr) : option PyStr := canon_str <$> c.

(** [df[[cmap[c] for c in cols]]] with the columns renamed, and
    [pd.to_numeric(...).astype("Int64")] on the already nullable-integer
    [item_id]. *)
Definition item_columns (r : RawRecord) : ItemDim.row :=
  {| ItemDim.item_code := item_code r;
     ItemDim.item_id := item_id r;
     ItemDim.item_name := item_name r;
     ItemDim.category := category r;
     ItemDim.version := version r |}.

Definition canonicalize_category_column (r : ItemDim.row) : ItemDim.row :=
  {| ItemDim.item_code := ItemDim.item_code r;
     ItemDim.item_id := ItemDim.item_id r;
     ItemDim.item_name := ItemDim.item_name r;
     ItemDim.category := canon_cell (ItemDim.category r);
     ItemDim.version := ItemDim.version r |}.

(** Number of occurrences of [v]. *)
Definition count_of {A} `{EqDecision A} (v : A) (l : list A) : nat :=
  length (filter (λ x, x = v) l).

(** [Series.mode()]: the most frequent non-null values, in sorted order. *)
Definition mode (series : list (option PyStr)) : list PyStr :=
  let values := omap id series in
  let top := max_list_with (λ v, count_of v values) values in
  merge_sort Str.le
    (filter (λ v, count_of v values = top) (remove_dups values)).

(** The inner [canon]: [mode.iloc[0] if not mode.empty else series.iloc[0]]. *)
Definition canon (series : list (option PyStr)) : option PyStr :=
  match mode series with
  | m :: _ => Some m
  | [] => mjoin (head series)
  end.

(** The ["first"] aggregation: the first non-null entry of the group. *)
Definition agg_first (series : list (option Z)) : option Z :=
  head (omap id series).

(** The group keys of [groupby("item_code")]: the distinct non-null keys,
    sorted. *)
Definition group_keys (item_df : list ItemDim.row) : list PyStr :=
  merge_sort Str.le (remove_dups (omap ItemDim.item_code item_df)).

Definition group_of (item_df : list ItemDim.row) (k : PyStr) : list ItemDim.row :=
  filter (λ r, ItemDim.item_code r = Some k) item_df.

Definition agg_group (item_df : list ItemDim.row) (k : PyStr) : ItemDim.row :=
  let g := group_of item_df k in
  {| ItemDim.item_code := Some k;
     ItemDim.item_id := agg_first (ItemDim.item_id <$> g);
     ItemDim.item_name := canon (ItemDim.item_name <$> g);
     ItemDim.category := canon (ItemDim.category <$> g);
     ItemDim.version := canon (ItemDim.version <$> g) |}.

(** [item_df.groupby("item_code").agg({...}).reset_index()] *)
Definition groupby_agg (item_df : list ItemDim.row) : list ItemDim.row :=
  agg_group item_df <$> group_keys item_df.

(** [dropna(subset=["item_id"])] *)
Definition dropna_item_id (rows : list ItemDim.row) : list ItemDim.row :=
  filter (λ r, is_Some (ItemDim.item_id r)) rows.

(** [drop_duplicates()]: the first of each run of equal rows is kept. *)
Fixpoint drop_duplicates_from {A} `{EqDecision A} (seen l : list A) : list A :=
  match l with
  | [] => []
  | x :: l' =>
      if decide (x ∈ seen) then drop_duplicates_from seen l'
      else x :: drop_duplicates_from (x :: seen) l'
  end.

Definition drop_duplicates {A} `{EqDecision A} (l : list A) : list A :=
  drop_duplicates_from [] l.

Definition item_frame (df : Frame RawRecord) (cfg : Config) : list ItemDim.row :=
  let item_df := item_columns <$> df.*2 in
  if default false (canonicalize_category cfg)
  then canonicalize_category_column <$> item_df
  else item_df.

Definition load_item_dimension (df : Frame RawRecord) (cfg : Config)
  : Eff (list ItemDim.row) :=
  let item_df := item_frame df cfg in
  let strat := item_attributes cfg in
  if decide (strat = "mode") then
    let grouped := groupby_agg item_df in
    let before := len grouped in
    let grouped := dropna_item_id grouped in
    let dropped := before - len grouped in
    when (bool_decide (dropped ≠ 0)) (emit WARNING (DroppedItemRows dropped));;
    mret grouped
  else
    mret (drop_duplicates (dropna_item_id item_df)).

Definition load_buyer_dimension (df : Frame RawRecord) (cfg : Config)
  : Eff (list BuyerDim.row) :=
  let buyers := drop_duplicates (BuyerDim.Build_row ∘ buyer_id <$> df.*2) in
  let before := len buyers in
  let buyers := filter (λ r, is_Some (BuyerDim.buyer_id r)) buyers in
  let dropped := before - len buyers in
  when (bool_decide (dropped ≠ 0)) (emit WARNING (DroppedBuyerRows dropped));;
  mret buyers.

Inductive DimTable :=
| ItemTable (rows : list ItemDim.row)
| BuyerTable (rows : list BuyerDim.row).

Definition load_dimension_table (df : Frame RawRecord) (cfg : Config) (dim : string)
  : Eff DimTable :=
  if decide (dim = "item") then
    rows ← load_item_dimension df cfg; mret (ItemTable rows)
  else if decide (dim = "buyer") then
    rows ← load_buyer_dimension df cfg; mret (BuyerTable rows)
  else raise UnsupportedDimension.

(** ** The warehouse *)

(** A persisted dimension row owns a surrogate key. *)
Abbreviation Keyed R := (Z * R)%type.

Record Warehouse := {
  dim_date : list (Keyed DateDim.row);
  dim_item : list (Keyed ItemDim.row);
  dim_buyer : list (Keyed BuyerDim.row);
  fact_sales : list Fact.row;
}.

(** ** Joins *)

(** [left.merge(right, how="left", left_on=..., right_on=...)]: every left
    row once per matching right row, in right order, or once with a
    missing right side when nothing matches.  Keys are compared the way
    pandas does, a null key matching a null key. *)
Definition merge_left {L K V} `{EqDecision K}
    (left : list L) (left_on : L → K) (right : list (K * V)) : list (L * option V) :=
  l ← left;
  match filter (λ kv, kv.1 = left_on l) right with
  | [] => [(l, None)]
  | matches => (λ kv, (l, Some kv.2)) <$> matches
  end.

Inductive MergeIndicator := left_only | both.

Definition indicator {V} (right_side : option V) : MergeIndicator :=
  match right_side with Some _ => both | None => left_only end.

#[global] Instance MergeIndicator_eq_dec : EqDecision MergeIndicator.
Proof. solve_decision. Defined.

(** ** [load_fact_sales] *)

(** A candidate after the three joins. *)
Record Joined := {
  candidate : RawRecord;
  j_date_key : option Z;
  j_item_key : option Z;
  j_buyer_key : option Z;
}.

Definition join_keys (conn : Warehouse) (df : list RawRecord) : list Joined :=
  let date_keys := (λ kr, (Some (DateDim.full_date kr.2), kr.1)) <$> dim_date conn in
  let item_keys := (λ kr, (ItemDim.item_code kr.2, kr.1)) <$> dim_item conn in
  let buyer_keys := (λ kr, (BuyerDim.buyer_id kr.2, kr.1)) <$> dim_buyer conn in
  let df1 := merge_left df date date_keys in
  let df2 := merge_left df1 (λ x, item_code x.1) item_keys in
  let df3 := merge_left df2 (λ x, buyer_id x.1.1) buyer_keys in
  (λ x, {| candidate := x.1.1.1; j_date_key := x.1.1.2;
           j_item_key := x.1.2; j_buyer_key := x.2 |}) <$> df3.

(** [df[["date_key", "item_key", "buyer_key"]].isnull().any(axis=1)] *)
Definition missing_fk (j : Joined) : bool :=
  bool_decide (j_date_key j = None ∨ j_item_key j = None ∨ j_buyer_key j = None).

Definition fact_row (j : Joined) : Fact.row :=
  let r := candidate j in
  {| Fact.date_key := j_date_key j;
     Fact.item_key := j_item_key j;
     Fact.buyer_key := j_buyer_key j;
     Fact.transaction_id := transaction_id r;
     Fact.final_quantity := final_quantity r;
     Fact.total_revenue := total_revenue r;
     Fact.price_reductions := price_reductions r;
     Fact.refunds := refunds r;
     Fact.final_revenue := final_revenue r;
     Fact.sales_tax := sales_tax r;
     Fact.overall_revenue := overall_revenue r;
     Fact.refunded_item_count := refunded_item_count r;
     Fact.purchased_item_count := purchased_item_count r |}.

(** [dropna(subset=["date_key", "item_key", "buyer_key", "transaction_id"])] *)
Definition fact_complete (f : Fact.row) : bool :=
  bool_decide (is_Some (Fact.date_key f) ∧ is_Some (Fact.item_key f)
               ∧ is_Some (Fact.buyer_key f) ∧ is_Some (Fact.transaction_id f)).

Definition build_fact (conn : Warehouse) (df : list RawRecord) : list Fact.row :=
  filter (λ f, fact_complete f) (fact_row <$> join_keys conn df).

(** [fact.to_sql("fact_sales", ..., if_exists="append")] *)
Definition append_fact_sales (conn : Warehouse) (fact : list Fact.row) : Warehouse :=
  {| dim_date := dim_date conn; dim_item := dim_item conn;
     dim_buyer := dim_buyer conn; fact_sales := fact_sales conn ++ fact |}.

Definition load_fact_sales (df : Frame RawRecord) (conn : Warehouse) (cfg : Config)
  : Eff Warehouse :=
  let joined := join_keys conn df.*2 in
  let missing := filter (λ j, missing_fk j) joined in
  when (bool_decide (missing ≠ [])) (emit WARNING (MissingFK (len missing)));;
  let fact := filter (λ f, fact_complete f) (fact_row <$> joined) in
  emit INFO (FactRowCount (len fact));;
  let conn := append_fact_sales conn fact in
  emit INFO LoadedFactSales;;
  mret conn.

(** ** [load_raw_data]: cleaning of the identifier columns *)

Definition is_digit (c : N) : bool := ((48 <=? c) && (c <=? 57))%N.

(** [.str.replace(r"[^0-9]", "", regex=True)] *)
Definition strip_non_digits (s : PyStr) : PyStr := filter (λ c, is_digit c) s.

(** The decimal value of a string of digits. *)
Definition parse_digits (s : PyStr) : Z :=
  foldl (λ acc c, 10 * acc + (Z.of_N c - 48)) 0 s.

(** One cell through [str.replace], [.replace({"": pd.NA})] and the parse
    of [pd.to_numeric(..., errors="coerce")]. *)
Definition clean_id (cell : option PyStr) : option Z :=
  s ← cell;
  let digits := strip_non_digits s in
  if decide (digits = []) then None else Some (parse_digits digits).

(** The column after [.astype("Int64")].  [Int64] holds the values up to
    [int64_max].  When an identifier is larger, [pd.to_numeric] parses the
    column into a wider dtype and the cast to [Int64] cannot give the
    parsed integers back; what happens then is not followed further and
    is reported as [Int64OutOfRange]. *)
Inductive IdColumn :=
| Int64Column (cells : list (option Z))
| Int64OutOfRange.

Definition clean_id_column (col : list (option PyStr)) : IdColumn :=
  let parsed := clean_id <$> col in
  if decide (Forall (λ c, default 0 c ≤ int64_max) parsed)
  then Int64Column parsed
  else Int64OutOfRange.

(** ** [run_etl] *)

Section Persist.

(** The warehouse, not this code, assigns the surrogate key of an
    appended dimension row: [next_key] is its generator, applied to the
    keys in use. *)
Variable next_key : list Z → Z.

(** [rows.to_sql(table, conn, if_exists="append")] *)
Fixpoint to_sql {R} (table : list (Keyed R)) (rows : list R) : list (Keyed R) :=
  match rows with
  | [] => table
  | r :: rows' => to_sql (table ++ [(next_key table.*1, r)]) rows'
  end.

(** [dim.merge(existing, on=key, how="left", indicator=True)
       .query("_merge == 'left_only'").drop(columns=["_merge"])] *)
Definition new_rows {R K} `{EqDecision K}
    (on : R → K) (dim : list R) (existing : list K) : list R :=
  let merged := merge_left dim on ((λ k, (k, tt)) <$> existing) in
  (filter (λ x, indicator x.2 = left_only) merged).*1.

(** One reconciliation block of the [with engine.begin()] body: read the
    persisted natural keys, keep the candidates that are new, append
    them. *)
Definition reconcile {R K} `{EqDecision K} (table : string)
    (on : R → K) (dim : list R) (persisted : list (Keyed R))
  : Eff (list (Keyed R)) :=
  let existing := (λ kr, on kr.2) <$> persisted in
  let new := new_rows on dim existing in
  if decide (new ≠ []) then
    emit INFO (InsertingDim table (len new));;
    mret (to_sql persisted new)
  else
    emit INFO (NoNewDim table);;
    mret persisted.

(** The body of [with engine.begin() as conn]. *)
Definition persist (dates : list DateDim.row) (items : list ItemDim.row)
    (buyers : list BuyerDim.row) (df_validated : Frame RawRecord)
    (conn : Warehouse) (cfg : Config) : Eff Warehouse :=
  d ← reconcile "dim_date" DateDim.full_date dates (dim_date conn);
  let conn := {| dim_date := d; dim_item := dim_item conn;
                 dim_buyer := dim_buyer conn; fact_sales := fact_sales conn |} in
  i ← reconcile "dim_item" ItemDim.item_code items (dim_item conn);
  let conn := {| dim_date := dim_date conn; dim_item := i;
                 dim_buyer := dim_buyer conn; fact_sales := fact_sales conn |} in
  b ← reconcile "dim_buyer" BuyerDim.buyer_id buyers (dim_buyer conn);
  let conn := {| dim_date := dim_date conn; dim_item := dim_item conn;
                 dim_buyer := b; fact_sales := fact_sales conn |} in
  load_fact_sales df_validated conn cfg.

(** [run_etl] from the frame [load_raw_data] returns on.  The CSV files
    it writes on the way are not part of the model; the messages about
    them are.  The two dimensions are the "item" and "buyer" branches of
    [load_dimension_table].  [engine] is the warehouse as the connection
    finds it; a dry run returns before connecting and leaves it alone. *)
Definition run_etl (df_raw : Frame RawRecord) (cfg : Config) (engine : Warehouse)
  : Eff Warehouse :=
  emit INFO SavedCleanedData;;
  emit INFO GeneratingDimensions;;
  dates ← build_date_dimension df_raw cfg;
  items ← load_item_dimension df_raw cfg;
  buyers ← load_buyer_dimension df_raw cfg;
  emit INFO SavedDimensionTables;;
  emit INFO ValidatingFactData;;
  '(df_validated, rejected) ← apply_validations df_raw cfg;
  emit INFO SavedValidatedRows;;
  (if decide (rejected ≠ [])                        (* not rejected.empty *)
   then emit INFO SavedRejectedRows
   else emit INFO NoRejectedRows);;
  if default false (dry_run cfg) then
    emit INFO DryRunComplete;;
    emit INFO (RowsPrepared "dim_date" (len dates));;
    emit INFO (RowsPrepared "dim_item" (len items));;
    emit INFO (RowsPrepared "dim_buyer" (len buyers));;
    emit INFO (FactRowsValidated (len df_validated));;
    emit INFO NoDataWritten;;
    mret engine
  else
    emit INFO LoadingPostgres;;
    conn ← persist dates items buyers df_validated engine cfg;
    emit INFO EtlCompleted;;
    mret conn.

End Persist.

(** ** The validator, row by row *)


(** The four checks read on the raw columns. *)
Definition revenue_balance_ok (tol : float) (r : RawRecord) : bool :=
  leb (abs (sub (final_revenue r)
                (add (add (total_revenue r) (price_reductions r)) (refunds r)))) tol.

Definition overall_balance_ok (tol : float) (r : RawRecord) : bool :=
  leb (abs (sub (overall_revenue r) (add (final_revenue r) (sales_tax r)))) tol.

Definition quantity_balance_ok (r : RawRecord) : bool :=
  bool_decide (final_quantity r
               = wrap64 (purchased_item_count r + refunded_item_count r)).

Definition refunded_nonpositive_ok (r : RawRecord) : bool :=
  bool_decide (refunded_item_count r ≤ 0).

Definition check_names : list string :=
  ["revenue_balance"; "overall_balance"; "quantity_balance"; "refunded_nonpositive"].

(** A row passes when it passes every enabled check. *)
Definition passes (cfg : Config) (r : RawRecord) : bool :=
  (negb (truthy (checks cfg) "revenue_balance") || revenue_balance_ok (tolerance cfg) r)
  && (negb (truthy (checks cfg) "overall_balance") || overall_balance_ok (tolerance cfg) r)
  && (negb (truthy (checks cfg) "quantity_balance") || quantity_balance_ok r)
  && (negb (truthy (checks cfg) "refunded_nonpositive") || refunded_nonpositive_ok r).

Definition raised {A} (res : Exception + A) : Prop := ∃ e, res = inl e.

(** ** Sample data *)

Module Sample.

Definition checks_all : gmap string bool :=
  list_to_map ((λ k, (k, true)) <$> check_names).

Definition config (strategy : string) (max_rate : float) : Config :=
  {| canonicalize_category := Some true;
     item_attributes := strategy;
     checks := checks_all;
     tolerance := int_true_divide 1 100;
     max_error_rate := Some max_rate;
     dry_run := None |}.

Definition half : float := Eval vm_compute in int_true_divide 1 2.

(** A row whose three balances hold. *)
Definition balanced : RawRecord :=
  {| date := Some (Calendar.midnight 20394);
     transaction_id := Some 100; buyer_id := Some 10; item_id := Some 1;
     item_code := Some [65%N]; item_name := Some [105%N]; category := None;
     version := None;
     final_quantity := 10;
     total_revenue := of_Z 100; price_reductions := of_Z (-10); refunds := of_Z 0;
     final_revenue := of_Z 90; sales_tax := of_Z 9; overall_revenue := of_Z 99;
     refunded_item_count := 0; purchased_item_count := 10 |}.

(** The same row with a final revenue of 95: [revenue_balance] fails. *)
Definition unbalanced : RawRecord :=
  {| date := Some (Calendar.midnight 20394);
     transaction_id := Some 200; buyer_id := Some 10; item_id := Some 1;
     item_code := Some [65%N]; item_name := Some [105%N]; category := None;
     version := None;
     final_quantity := 10;
     total_revenue := of_Z 100; price_reductions := of_Z (-10); refunds := of_Z 0;
     final_revenue := of_Z 95; sales_tax := of_Z 9; overall_revenue := of_Z 104;
     refunded_item_count := 0; purchased_item_count := 10 |}.

Definition two_rows : Frame RawRecord := [(0, balanced); (1, unbalanced)].

(** Two rows under one index label. *)
Definition same_label : Frame RawRecord := [(0, balanced); (0, unbalanced)].


(** Item rows of the scenario: code A seen as "b" then "a"; code B with
    a null identifier first. *)
Definition item_row (code : N) (id : option Z) (name : PyStr) : RawRecord :=
  {| date := Some (Calendar.midnight 20394);
     transaction_id := Some 100; buyer_id := Some 10; item_id := id;
     item_code := Some [code]; item_name := Some name; category := None;
     version := None;
     final_quantity := 10;
     total_revenue := of_Z 100; price_reductions := of_Z (-10); refunds := of_Z 0;
     final_revenue := of_Z 90; sales_tax := of_Z 9; overall_revenue := of_Z 99;
     refunded_item_count := 0; purchased_item_count := 10 |}.

Definition tied_names : Frame RawRecord :=
  [(0, item_row 65 (Some 1) [98%N]); (1, item_row 65 (Some 1) [97%N]);
   (2, item_row 66 None [120%N]); (3, item_row 66 (Some 5) [120%N])].

Definition item_out (code : N) (id : Z) (name : PyStr) : ItemDim.row :=
  {| ItemDim.item_code := Some [code]; ItemDim.item_id := Some id;
     ItemDim.item_name := Some name; ItemDim.category := None;
     ItemDim.version := None |}.


(** The dates of the scenario, 2025-11-02 and 2025-11-10, and a frame
    whose dates all failed to parse. *)
Definition dated (d : option Z) : RawRecord :=
  {| date := Calendar.midnight <$> d;
     transaction_id := Some 100; buyer_id := Some 10; item_id := Some 1;
     item_code := Some [65%N]; item_name := None; category := None;
     version := None;
     final_quantity := 10;
     total_revenue := of_Z 100; price_reductions := of_Z (-10); refunds := of_Z 0;
     final_revenue := of_Z 90; sales_tax := of_Z 9; overall_revenue := of_Z 99;
     refunded_item_count := 0; purchased_item_count := 10 |}.

Definition nine_days : Frame RawRecord :=
  [(0, dated (Some 20394)); (1, dated (Some 20402))].

Definition undated : Frame RawRecord := [(0, dated None); (1, dated None)].


(** An identifier cell reading "ID-9223372036854775808": its digits
    denote [2 ^ 63]. *)
Definition wide_id : PyStr :=
  [73; 68; 45; 57; 50; 50; 51; 51; 55; 50; 48; 51; 54; 56; 53; 52; 55; 55;
   53; 56; 48; 56]%N.

(** "#123", "ABC" and "007". *)
Definition id_cells : list (option PyStr) :=
  [Some [35; 49; 50; 51]%N; Some [65; 66; 67]%N; None; Some [48; 48; 55]%N].


(** "aİb": a, U+0130, b. *)
Definition dotted_i : PyStr := [97; 304; 98]%N.

(** "  home   APPLIANCES " *)
Definition home_appliances : PyStr :=
  [32; 32; 104; 111; 109; 101; 32; 32; 32; 65; 80; 80; 76; 73; 65; 78; 67; 69;
   83; 32]%N.


(** The configuration above with no check enabled. *)
Definition unchecked : Config :=
  {| canonicalize_category := Some true;
     item_attributes := "mode";
     checks := ∅;
     tolerance := int_true_divide 1 100;
     max_error_rate := Some half;
     dry_run := None |}.

End Sample.

(** ** Natural keys in the warehouse *)

(** [SELECT full_date FROM dim_date] and its two siblings. *)
Definition persisted_dates (conn : Warehouse) : list Z :=
  (λ kr, DateDim.full_date kr.2) <$> dim_date conn.
Definition persisted_item_codes (conn : Warehouse) : list (option PyStr) :=
  (λ kr, ItemDim.item_code kr.2) <$> dim_item conn.
Definition persisted_buyer_ids (conn : Warehouse) : list (option Z) :=
  (λ kr, BuyerDim.buyer_id kr.2) <$> dim_buyer conn.

(** The warning of [load_fact_sales]. *)
Definition fk_warning (missing : list Joined) : list LogRecord :=
  if bool_decide (missing ≠ []) then [(WARNING, MissingFK (len missing))] else [].

(** ** The item dimension, attribute by attribute *)

(** The resolved attribute is the least, in code point order, of the most
    frequent non-null values; it is null when every value is. *)
Definition least_most_frequent (series : list (option PyStr)) (o : option PyStr)
  : Prop :=
  let values := omap id series in
  match o with
  | None => values = []
  | Some v =>
      v ∈ values
      ∧ ∀ w, w ∈ values →
          (count_of w values ≤ count_of v values)%nat
          ∧ (count_of w values = count_of v values → Str.le v w)
  end.

(** The resolved identifier is the first non-null one in row order. *)
Definition first_non_null (series : list (option Z)) (o : option Z) : Prop :=
  match o with
  | None => ∀ x, x ∈ series → x = None
  | Some z => ∃ before after,
      series = before ++ Some z :: after ∧ ∀ x, x ∈ before → x = None
  end.

(** The claimed tie-break: the first most frequent value in row order. *)
Definition first_most_frequent (series : list (option PyStr)) : option PyStr :=
  let values := omap id series in
  let top := max_list_with (λ v, count_of v values) values in
  head (filter (λ v, count_of v values = top) values).

(** The groups [dropna(subset=["item_id"])] removes. *)
Definition dropped_groups (item_df : list ItemDim.row) : list PyStr :=
  filter (λ k, agg_first (ItemDim.item_id <$> group_of item_df k) = None)
    (group_keys item_df).

Definition dropped_warning (dropped : Z) : list LogRecord :=
  if bool_decide (dropped ≠ 0) then [(WARNING, DroppedItemRows dropped)] else [].

(** ** The fact resolver, candidate by candidate *)

(** The surrogate keys a join attaches to one natural key: one per
    matching persisted row, or a single missing key. *)
Definition lookup_keys {K} `{EqDecision K} (k : K) (right : list (K * Z))
  : list (option Z) :=
  match filter (λ kv, kv.1 = k) right with
  | [] => [None]
  | matches => (λ kv, Some kv.2) <$> matches
  end.

(** A candidate resolves when each natural key is among the persisted
    rows of its dimension and the transaction identifier is not null. *)
Definition resolves (conn : Warehouse) (r : RawRecord) : Prop :=
  (∃ kr, kr ∈ dim_date conn ∧ date r = Some (DateDim.full_date kr.2))
  ∧ (∃ kr, kr ∈ dim_item conn ∧ item_code r = ItemDim.item_code kr.2)
  ∧ (∃ kr, kr ∈ dim_buyer conn ∧ buyer_id r = BuyerDim.buyer_id kr.2)
  ∧ is_Some (transaction_id r).

(** The three foreign keys alone. *)
Definition keys_resolve (conn : Warehouse) (r : RawRecord) : Prop :=
  (∃ kr, kr ∈ dim_date conn ∧ date r = Some (DateDim.full_date kr.2))
  ∧ (∃ kr, kr ∈ dim_item conn ∧ item_code r = ItemDim.item_code kr.2)
  ∧ (∃ kr, kr ∈ dim_buyer conn ∧ buyer_id r = BuyerDim.buyer_id kr.2).

(** ** The ISO weekday, as the calendar defines it *)

(** Zeller's congruence for the Gregorian date [y]-[m]-[d]: 0 is a
    Saturday, 1 a Sunday, 2 a Monday, and so on to 6, a Friday.  January
    and February count as months 13 and 14 of the year before. *)
Definition zeller (y m d : Z) : Z :=
  let m' := if decide (m ≤ 2) then m + 12 else m in
  let y' := if decide (m ≤ 2) then y - 1 else y in
  (d + (13 * (m' + 1)) `div` 5 + y' + y' `div` 4 - y' `div` 100 + y' `div` 400) `mod` 7.

(** The ISO 8601 day of the week of a calendar date: 1 is Monday, 6 is
    Saturday and 7 is Sunday.  It is read off the date itself, not off the
    day numbers of [Calendar]. *)
Definition iso_weekday_of_date (y m d : Z) : Z := (zeller y m d + 5) `mod` 7 + 1.

(** ** Identifiers, as the specification words them *)

(** The decimal digits of a string, in order, every other code point left
    out. *)
Definition digit_values (s : PyStr) : list Z :=
  omap (λ c, if is_digit c then Some (Z.of_N c - 48) else None) s.

(** The number a sequence of decimal digits denotes, most significant
    digit first. *)
Fixpoint decimal (ds : list Z) : Z :=
  match ds with
  | [] => 0
  | d :: ds' => d * 10 ^ Z.of_nat (length ds') + decimal ds'
  end.

(** Strip the non-digits and parse what is left; nothing left is absent. *)
Definition stripped_and_parsed (cell : option PyStr) : option Z :=
  s ← cell;
  match digit_values s with
  | [] => None
  | ds => Some (decimal ds)
  end.

(** ** Canonical strings *)

(** Whitespace occurs only as single spaces between other code points.
    [after_space] says the previous code point was a space, or that the
    string starts here. *)
Fixpoint spaced_from (after_space : bool) (s : PyStr) : bool :=
  match s with
  | [] => negb after_space
  | c :: s' =>
      if Str.isspace c
      then negb after_space && (c =? Str.space)%N && spaced_from true s'
      else spaced_from false s'
  end.

Definition tidy (s : PyStr) : bool :=
  match s with [] => true | _ => spaced_from true s end.

Definition ascii (s : PyStr) : Prop := Forall (λ c, (c < 128)%N) s.

(** The last code point is not whitespace. *)
Definition ends_nonspace (s : PyStr) : Prop :=
  ∃ s0 c, s = s0 ++ [c] ∧ Str.isspace c = false.

(** ** Rounding a quotient *)

(** The quotient of [a] by [n] cut at the binary exponent [E ≤ 0], with
    the position of what is cut off. *)
Definition quotient_at (a n E : Z) : Z * location :=
  let x := a * 2 ^ (- E) in
  (x `div` n, new_location n (x `mod` n)).

Definition loc_rank (l : location) : Z :=
  match l with
  | loc_Exact => 0
  | loc_Inexact Lt => 1
  | loc_Inexact Eq => 2
  | loc_Inexact Gt => 3
  end.

(** The float of a rounded significand [m ≤ 2 ^ 53] at exponent [E]. *)
Definition finish (m E : Z) : float :=
  if decide (m = 0) then S754_zero false
  else if decide (m = 2 ^ 53) then S754_finite false (Z.to_pos (2 ^ 52)) (E + 1)
  else S754_finite false (Z.to_pos m) E.

(** ** Calendar days of a frame *)

(** The calendar days on which the frame has a row. *)
Definition days_of (df : Frame RawRecord) : list Z :=
  Calendar.date_of <$> omap (λ ir, date ir.2) df.

(** ** The Gregorian calendar *)

Definition is_leap (y : Z) : bool :=
  ((y `mod` 4 =? 0) && negb (y `mod` 100 =? 0)) || (y `mod` 400 =? 0).

(** Days of month [m] in a year that is leap or not. *)
Definition days_in (leap : bool) (m : Z) : Z :=
  if m =? 2 then (if leap then 29 else 28)
  else if (m =? 4) || (m =? 6) || (m =? 9) || (m =? 11) then 30
  else 31.

Definition valid_in (leap : bool) (ymd : Z * Z * Z) : bool :=
  (1 <=? ymd.1.2) && (ymd.1.2 <=? 12)
  && (1 <=? ymd.2) && (ymd.2 <=? days_in leap ymd.1.2).

Definition next_in (leap : bool) (ymd : Z * Z * Z) : Z * Z * Z :=
  let '(y, m, d) := ymd in
  if d <? days_in leap m then (y, m, d + 1)
  else if m <? 12 then (y, m + 1, 1)
  else (y + 1, 1, 1).

(** A (year, month, day) that exists in the calendar. *)
Definition valid_date (ymd : Z * Z * Z) : bool := valid_in (is_leap ymd.1.1) ymd.

(** The day after a date. *)
Definition next_day (ymd : Z * Z * Z) : Z * Z * Z := next_in (is_leap ymd.1.1) ymd.

(** [Calendar.civil] in stages: the 400-year era of a day and the day of
    the era, the year of the era and the day of that year (years start
    on 1 March), and the month and day of a day of the year, with the
    carry into the civil year for January and February. *)
Definition era_of (d : Z) : Z := (d + 719468) `div` 146097.
Definition doe_of (d : Z) : Z := (d + 719468) `mod` 146097.
Definition yoe_of (doe : Z) : Z :=
  (doe - doe `div` 1460 + doe `div` 36524 - doe `div` 146096) `div` 365.
Definition doy_of (doe : Z) : Z :=
  doe - (365 * yoe_of doe + yoe_of doe `div` 4 - yoe_of doe `div` 100).
Definition month_day (doy : Z) : Z * Z * Z :=
  let mp := (5 * doy + 2) `div` 153 in
  let dd := doy - (153 * mp + 2) `div` 5 + 1 in
  let mm := if decide (mp < 10) then mp + 3 else mp - 9 in
  ((if decide (mm ≤ 2) then 1 else 0), mm, dd).

(** The day of the era on which year [y] of the era starts. *)
Definition year_start (y : Z) : Z := 365 * y + y `div` 4 - y `div` 100.

(** A date [k] years later. *)
Definition add_years (k : Z) (ymd : Z * Z * Z) : Z * Z * Z :=
  (ymd.1.1 + k, ymd.1.2, ymd.2).

Definition same_date (a b : Z * Z * Z) : bool :=
  (a.1.1 =? b.1.1) && (a.1.2 =? b.1.2) && (a.2 =? b.2).

(** [ok z && ok (z + 1) && ...], [n] times. *)
Fixpoint all_from (ok : Z → bool) (n : nat) (z : Z) : bool :=
  match n with
  | O => true
  | S n' => ok z && all_from ok n' (z + 1)
  end.

(** Day [doy] of a year and the day after it, both before the leap day. *)
Definition common_day_ok (doy : Z) : bool :=
  valid_in false (month_day doy)
  && same_date (month_day (doy + 1)) (next_in false (month_day doy))
  && same_date (month_day (doy + 1)) (next_in true (month_day doy)).

(** ** Dimension rows, column by column *)

(** The [buyer_id] column of the frame. *)
Definition buyer_ids (df : Frame RawRecord) : list (option Z) :=
  buyer_id <$> df.*2.

(** The warning of the buyer branch: it only ever counts one row. *)
Definition buyer_warning (df : Frame RawRecord) : list LogRecord :=
  if bool_decide (None ∈ buyer_ids df) then [(WARNING, DroppedBuyerRows 1)] else [].

(** The columns of an item row other than [item_id]. *)
Definition item_attributes_of (r : ItemDim.row)
  : option PyStr * option PyStr * option PyStr * option PyStr :=
  (ItemDim.item_code r, ItemDim.item_name r, ItemDim.category r, ItemDim.version r).

(** ** Case variants *)

(** An ASCII string with its capital letters in lower case. *)
Definition fold_case (s : PyStr) : PyStr :=
  (λ c, if Str.is_ascii_upper c then (c + 32)%N else c) <$> s.

(** Every code point is whitespace. *)
Definition blank (s : PyStr) : Prop := Forall (λ c, Str.isspace c = true) s.

(** ** Matches of a candidate in the dimensions *)

(** The persisted rows a candidate joins to, dimension by dimension. *)
Definition date_matches (conn : Warehouse) (r : RawRecord) : list (Keyed DateDim.row) :=
  filter (λ kr, Some (DateDim.full_date kr.2) = date r) (dim_date conn).
Definition item_matches (conn : Warehouse) (r : RawRecord) : list (Keyed ItemDim.row) :=
  filter (λ kr, ItemDim.item_code kr.2 = item_code r) (dim_item conn).
Definition buyer_matches (conn : Warehouse) (r : RawRecord) : list (Keyed BuyerDim.row) :=
  filter (λ kr, BuyerDim.buyer_id kr.2 = buyer_id r) (dim_buyer conn).

(** [n] when the value is present, 0 when it is missing. *)
Definition when_some {A} (o : option A) (n : nat) : nat :=
  match o with Some _ => n | None => 0%nat end.

(** The joined rows that the warning does not count and the fact table
    does not get: every key found, no transaction identifier. *)
Definition unreported (joined : list Joined) : list Joined :=
  filter (λ j, missing_fk j = false ∧ transaction_id (candidate j) = None) joined.

(** Natural keys are unique in the three persisted dimensions. *)
Definition unique_keys (conn : Warehouse) : Prop :=
  NoDup (persisted_dates conn) ∧ NoDup (persisted_item_codes conn)
  ∧ NoDup (persisted_buyer_ids conn).

(** Every persisted date is a midnight. *)
Definition midnights (conn : Warehouse) : Prop :=
  ∀ kr, kr ∈ dim_date conn → ∃ d, DateDim.full_date kr.2 = Calendar.midnight d.

(** ** Warehouses *)

(** A warehouse with other dimension tables. *)
Definition with_dims (conn : Warehouse) (d : list (Keyed DateDim.row))
    (i : list (Keyed ItemDim.row)) (b : list (Keyed BuyerDim.row)) : Warehouse :=
  {| dim_date := d; dim_item := i; dim_buyer := b; fact_sales := fact_sales conn |}.

(** The candidates of a dimension whose natural key is not persisted. *)
Definition new_dates (conn : Warehouse) (dates : list DateDim.row) :=
  filter (λ r, DateDim.full_date r ∉ persisted_dates conn) dates.
Definition new_items (conn : Warehouse) (items : list ItemDim.row) :=
  filter (λ r, ItemDim.item_code r ∉ persisted_item_codes conn) items.
Definition new_buyers (conn : Warehouse) (buyers : list BuyerDim.row) :=
  filter (λ r, BuyerDim.buyer_id r ∉ persisted_buyer_ids conn) buyers.

(** ** The stages of [run_etl], log aside *)

(** The rows and the warning of the item dimension. *)
Definition item_rows (df : Frame RawRecord) (cfg : Config) : list ItemDim.row :=
  if decide (item_attributes cfg = "mode")
  then dropna_item_id (groupby_agg (item_frame df cfg))
  else drop_duplicates (dropna_item_id (item_frame df cfg)).

Definition item_log (df : Frame RawRecord) (cfg : Config) : list LogRecord :=
  if decide (item_attributes cfg = "mode")
  then dropped_warning (len (groupby_agg (item_frame df cfg))
                        - len (dropna_item_id (groupby_agg (item_frame df cfg))))
  else [].

(** The rows of the buyer dimension. *)
Definition buyer_rows (df : Frame RawRecord) : list BuyerDim.row :=
  drop_duplicates (filter (λ r, is_Some (BuyerDim.buyer_id r))
                          (BuyerDim.Build_row ∘ buyer_id <$> df.*2)).

(** The rows of the date dimension, when the frame has a date. *)
Definition date_rows (df : Frame RawRecord) (cfg : Config)
  : Exception + list DateDim.row :=
  (build_date_dimension df cfg []).1.

(** The log of [run_etl] up to the validation included. *)
Definition staged_log (df : Frame RawRecord) (cfg : Config) : list LogRecord :=
  [(INFO, SavedCleanedData); (INFO, GeneratingDimensions)]
  ++ item_log df cfg ++ buyer_warning df
  ++ [(INFO, SavedDimensionTables); (INFO, ValidatingFactData);
      (INFO, PostValidation (len (filter (λ ir, passes cfg ir.2) df))
                            (dropped_rows cfg df)
                            (mul (drop_rate cfg df) hundred))].

(** The rows that pass the enabled checks. *)
Definition validated (df : Frame RawRecord) (cfg : Config) : Frame RawRecord :=
  filter (λ ir, passes cfg ir.2) df.

(** The two records of [run_etl] about the files of validated and of
    rejected rows. *)
Definition saved_log (df : Frame RawRecord) (cfg : Config) : list LogRecord :=
  [(INFO, SavedValidatedRows);
   (INFO, if decide (not_isin df (validated df cfg) ≠ [])
          then SavedRejectedRows else NoRejectedRows)].

(** The records that end a dry run. *)
Definition dry_run_log (dates items buyers rows : Z) : list LogRecord :=
  [(INFO, DryRunComplete); (INFO, RowsPrepared "dim_date" dates);
   (INFO, RowsPrepared "dim_item" items); (INFO, RowsPrepared "dim_buyer" buyers);
   (INFO, FactRowsValidated rows); (INFO, NoDataWritten)].

(** ** Decimal numerals *)

(** The decimal numeral of [z ≥ 0], as [str(z)] writes it. *)
Fixpoint numeral_fuel (n : nat) (z : Z) : PyStr :=
  match n with
  | O => []
  | S n' =>
      if z <? 10 then [Z.to_N (48 + z)]
      else numeral_fuel n' (z `div` 10) ++ [Z.to_N (48 + z `mod` 10)]
  end.

Definition numeral (z : Z) : PyStr := numeral_fuel (S (Z.to_nat z)) z.

(** The cell of an identifier written in decimal between [pre] and [post];
    an absent identifier is an absent cell. *)
Definition written (pre post : PyStr) (id : option Z) : option PyStr :=
  (λ z, pre ++ numeral z ++ post) <$> id.

(** No code point of the string is a decimal digit. *)
Definition digitless (s : PyStr) : Prop := Forall (λ c, is_digit c = false) s.

(** ** More sample data *)

Module Fixture.

(** [Sample.config] with a tolerance of 10. *)
Definition lenient : Config :=
  {| canonicalize_category := Some true;
     item_attributes := "mode";
     checks := Sample.checks_all;
     tolerance := of_Z 10;
     max_error_rate := Some Sample.half;
     dry_run := None |}.

(** [Sample.config] with no [max_error_rate] key. *)
Definition no_ceiling : Config :=
  {| canonicalize_category := Some true;
     item_attributes := "mode";
     checks := Sample.checks_all;
     tolerance := int_true_divide 1 100;
     max_error_rate := None;
     dry_run := None |}.

(** [Sample.balanced] with the refunds missing. *)
Definition no_refunds : RawRecord :=
  {| date := Some (Calendar.midnight 20394);
     transaction_id := Some 100; buyer_id := Some 10; item_id := Some 1;
     item_code := Some [65%N]; item_name := Some [105%N]; category := None;
     version := None;
     final_quantity := 10;
     total_revenue := of_Z 100; price_reductions := of_Z (-10); refunds := S754_nan;
     final_revenue := of_Z 90; sales_tax := of_Z 9; overall_revenue := of_Z 99;
     refunded_item_count := 0; purchased_item_count := 10 |}.

(** A row stamped at noon of day [d]. *)
Definition at_noon (d : Z) : RawRecord :=
  {| date := Some (Calendar.midnight d + 12 * 3600 * 1000000000);
     transaction_id := Some 100; buyer_id := Some 10; item_id := Some 1;
     item_code := Some [65%N]; item_name := None; category := None;
     version := None;
     final_quantity := 10;
     total_revenue := of_Z 100; price_reductions := of_Z (-10); refunds := of_Z 0;
     final_revenue := of_Z 90; sales_tax := of_Z 9; overall_revenue := of_Z 99;
     refunded_item_count := 0; purchased_item_count := 10 |}.

(** 2025-11-10 and 2025-11-02 at noon, and a row at midnight of
    2025-11-02. *)
Definition noon : Frame RawRecord :=
  [(7, at_noon 20402); (7, at_noon 20394); (8, no_refunds)].

(** "  HOME   Appliances " *)
Definition home_appliances_upper : PyStr :=
  [32; 32; 72; 79; 77; 69; 32; 32; 32; 65; 112; 112; 108; 105; 97; 110; 99; 101;
   115; 32]%N.

(** A warehouse holding 2025-11-02, item A and buyer 10. *)
Definition warehouse : Warehouse :=
  {| dim_date := [(1, date_row 20394)];
     dim_item := [(10, Sample.item_out 65 1 [105%N])];
     dim_buyer := [(100, BuyerDim.Build_row (Some 10))];
     fact_sales := [] |}.

(** [Sample.balanced] without a transaction identifier. *)
Definition no_transaction : RawRecord :=
  {| date := Some (Calendar.midnight 20394);
     transaction_id := None; buyer_id := Some 10; item_id := Some 1;
     item_code := Some [65%N]; item_name := Some [105%N]; category := None;
     version := None;
     final_quantity := 10;
     total_revenue := of_Z 100; price_reductions := of_Z (-10); refunds := of_Z 0;
     final_revenue := of_Z 90; sales_tax := of_Z 9; overall_revenue := of_Z 99;
     refunded_item_count := 0; purchased_item_count := 10 |}.

(** A key generator: one more than the number of keys in use. *)
Definition next_key (keys : list Z) : Z := len keys + 1.

End Fixture.

(** * Properties *)

(** Running a computation of [Eff] on a log. *)
Ltac eff := cbv [mbind mret Eff_bind Eff_ret emit raise when]; cbn beta iota.

(** ** The validator *)

Section Validator.

Implicit Types (df : Frame RawRecord) (w : Frame WorkRow) (cfg : Config).

Lemma drop_chk_select_assign (mask : WorkRow → bool) (f : WorkRow → WorkRow)
    (ok : RawRecord → bool) w :
  (∀ x, raw (f x) = raw x) →
  (∀ x, mask (f x) = ok (raw x)) →
  drop_chk (select mask (assign f w)) = select ok (drop_chk w).
Proof.
  intros Hraw Hmask. unfold drop_chk, select, assign.
  induction w as [|[i x] w IH]; [done|].
  rewrite !fmap_cons. cbn [prod_map fst snd id].
  rewrite !filter_cons. cbn [snd]. rewrite Hmask, <- IH.
  destruct (decide (ok (raw x))); [|done].
  rewrite fmap_cons. cbn [prod_map fst snd id]. by rewrite Hraw.
Qed.

Lemma drop_chk_select (mask : WorkRow → bool) (ok : RawRecord → bool) w :
  (∀ x, mask x = ok (raw x)) →
  drop_chk (select mask w) = select ok (drop_chk w).
Proof.
  intros Hmask. unfold drop_chk, select.
  induction w as [|[i x] w IH]; [done|].
  rewrite !fmap_cons. cbn [prod_map fst snd id].
  rewrite !filter_cons. cbn [snd]. rewrite Hmask, <- IH.
  by destruct (decide (ok (raw x))).
Qed.

Lemma drop_chk_working df : drop_chk (working df) = df.
Proof.
  unfold drop_chk, working. rewrite <- list_fmap_compose.
  induction df as [|[i r] df IH]; [done|].
  rewrite fmap_cons. f_equal. exact IH.
Qed.

Lemma select_select {R} (p q : R → bool) (l : Frame R) :
  select p (select q l) = select (λ r, q r && p r) l.
Proof.
  unfold select. induction l as [|[i r] l IH]; [done|].
  rewrite !filter_cons. cbn [snd].
  destruct (q r) eqn:Hq; cbn [Is_true andb].
  - destruct (decide True) as [_|[]]; [|done].
    rewrite filter_cons. cbn [snd]. rewrite IH. by destruct (p r).
  - destruct (decide False) as [[]|_]. exact IH.
Qed.

Lemma select_true {R} (p : R → bool) (l : Frame R) :
  (∀ r, p r = true) → select p l = l.
Proof.
  intros Hp. unfold select. induction l as [|[i r] l IH]; [done|].
  rewrite filter_cons. cbn [snd]. rewrite Hp, IH. done.
Qed.

Lemma select_ext {R} (p q : R → bool) (l : Frame R) :
  (∀ r, p r = q r) → select p l = select q l.
Proof.
  intros Hpq. unfold select. apply list_filter_iff. intros [i r]. cbn. by rewrite Hpq.
Qed.

Lemma drop_chk_refunded cfg w :
  drop_chk (check_refunded_nonpositive cfg w)
  = select (λ r, negb (truthy (checks cfg) "refunded_nonpositive")
                 || refunded_nonpositive_ok r) (drop_chk w).
Proof.
  unfold check_refunded_nonpositive.
  destruct (truthy (checks cfg) "refunded_nonpositive"); cbn [negb orb].
  - by apply drop_chk_select.
  - by rewrite select_true.
Qed.

Lemma drop_chk_quantity cfg w :
  drop_chk (check_quantity_balance cfg w)
  = select (λ r, negb (truthy (checks cfg) "quantity_balance")
                 || quantity_balance_ok r) (drop_chk w).
Proof.
  unfold check_quantity_balance.
  destruct (truthy (checks cfg) "quantity_balance"); cbn [negb orb].
  - by apply drop_chk_select_assign.
  - by rewrite select_true.
Qed.

Lemma drop_chk_overall cfg w :
  drop_chk (check_overall_balance cfg w)
  = select (λ r, negb (truthy (checks cfg) "overall_balance")
                 || overall_balance_ok (tolerance cfg) r) (drop_chk w).
Proof.
  unfold check_overall_balance.
  destruct (truthy (checks cfg) "overall_balance"); cbn [negb orb].
  - by apply drop_chk_select_assign.
  - by rewrite select_true.
Qed.

Lemma drop_chk_revenue cfg w :
  drop_chk (check_revenue_balance cfg w)
  = select (λ r, negb (truthy (checks cfg) "revenue_balance")
                 || revenue_balance_ok (tolerance cfg) r) (drop_chk w).
Proof.
  unfold check_revenue_balance.
  destruct (truthy (checks cfg) "revenue_balance"); cbn [negb orb].
  - by apply drop_chk_select_assign.
  - by rewrite select_true.
Qed.

(** The accepted frame is the input frame filtered by [passes]: the
    sequential filters commute with dropping the [chk_] columns. *)
Lemma drop_chk_run_checks cfg df :
  drop_chk (run_checks cfg df) = select (passes cfg) df.
Proof.
  unfold run_checks.
  rewrite drop_chk_refunded, drop_chk_quantity, drop_chk_overall,
    drop_chk_revenue, drop_chk_working, !select_select.
  apply select_ext. intros r. unfold passes. by rewrite !andb_assoc.
Qed.

Lemma len_drop_chk w : len (drop_chk w) = len w.
Proof. unfold len, drop_chk. by rewrite length_fmap. Qed.

Lemma dropped_rows_passes cfg df :
  dropped_rows cfg df = len df - len (select (passes cfg) df).
Proof.
  unfold dropped_rows. by rewrite <- drop_chk_run_checks, len_drop_chk.
Qed.

(** What one call does: one log record, then the threshold test. *)
Lemma apply_validations_run df cfg log :
  apply_validations df cfg log =
    let log' := log ++ [(INFO, PostValidation (len (run_checks cfg df))
                                 (dropped_rows cfg df)
                                 (mul (drop_rate cfg df) hundred))] in
    if gtb (drop_rate cfg df) (max_err cfg)
    then (inl (DropRateExceeds (mul (drop_rate cfg df) hundred)
                               (mul (max_err cfg) hundred)), log')
    else (inr (select (passes cfg) df,
               not_isin df (select (passes cfg) df)), log').
Proof.
  unfold apply_validations, drop_rate, dropped_rows, max_err. eff.
  destruct (gtb _ _); [done|].
  by rewrite drop_chk_run_checks.
Qed.

End Validator.

(** ** Comparisons on binary64 *)

Lemma SFcompare_Eq_sym (x y : float) :
  SFcompare x y = Some Eq → SFcompare y x = Some Eq.
Proof.
  destruct x as [sx|sx| |sx mx ex], y as [sy|sy| |sy my ey]; cbn;
    try destruct sx; try destruct sy; try done.
  all: destruct (Z.compare_spec ex ey) as [->| |]; try done.
  all: rewrite Z.compare_refl.
  all: intros H; assert (Hm : (mx ?= my)%positive = Eq)
         by (unfold Pos.compare; destruct (Pos.compare_cont Eq mx my); by inversion H).
  all: apply Pos.compare_eq in Hm; subst my.
  all: by rewrite Pos.compare_cont_refl.
Qed.

Lemma gtb_of_Eq (x y : float) : SFcompare x y = Some Eq → gtb x y = false.
Proof. intros H. unfold gtb, SFltb. by rewrite (SFcompare_Eq_sym _ _ H). Qed.

Lemma gtb_zero_nonneg (m : float) : leb zero m = true → gtb zero m = false.
Proof.
  unfold leb, gtb, SFleb, SFltb, zero.
  destruct m as [s|s| |s mm e]; cbn; try destruct s; done.
Qed.

Lemma not_raised_inr {A} (x : A) : ¬ raised (inr x : Exception + A).
Proof. by intros [e ?]. Qed.

Lemma raised_inl {A} (e : Exception) : raised (inl e : Exception + A).
Proof. by exists e. Qed.

Lemma drop_rate_nil (cfg : Config) : drop_rate cfg [] = zero.
Proof. unfold drop_rate. by rewrite dropped_rows_passes. Qed.

(** C1. [apply_validations] raises exactly when
    [drop_rate = dropped_rows / max(total_input_rows, 1)] is strictly
    greater than [max_error_rate], and the exception carries both rates;
    a drop rate equal to the ceiling does not raise; an empty frame has
    drop rate 0 and does not raise under a ceiling in the configured
    range, that is, one that is not negative. *)
Theorem apply_validations_threshold
    (df : Frame RawRecord) (cfg : Config) (log : list LogRecord) :
  let res := (apply_validations df cfg log).1 in
  drop_rate cfg df
    = int_true_divide (len df - len (filter (λ ir, passes cfg ir.2) df))
                      (Z.max (len df) 1)
  ∧ (raised res ↔ gtb (drop_rate cfg df) (max_err cfg) = true)
  ∧ (raised res →
     res = inl (DropRateExceeds (mul (drop_rate cfg df) hundred)
                                (mul (max_err cfg) hundred)))
  ∧ (SFcompare (drop_rate cfg df) (max_err cfg) = Some Eq → ¬ raised res)
  ∧ (df = [] →
     drop_rate cfg df = zero ∧ (leb zero (max_err cfg) = true → ¬ raised res)).
Proof.
  cbn zeta. rewrite apply_validations_run. cbn zeta.
  split; [unfold drop_rate; by rewrite dropped_rows_passes|].
  destruct (gtb (drop_rate cfg df) (max_err cfg)) eqn:Hgt; cbn [fst].
  - split; [split; [done|intros _; apply raised_inl]|].
    split; [done|]. split.
    + intros Heq. apply gtb_of_Eq in Heq. congruence.
    + intros ->. split; [apply drop_rate_nil|]. intros Hle.
      apply gtb_zero_nonneg in Hle. rewrite drop_rate_nil in Hgt. congruence.
  - split; [split; [intros []%not_raised_inr|done]|].
    split; [intros []%not_raised_inr|]. split.
    + intros _. apply not_raised_inr.
    + intros ->. split; [apply drop_rate_nil|]. intros _. apply not_raised_inr.
Qed.

Lemma apply_validations_threshold_witness :
  ¬ raised (apply_validations Sample.two_rows (Sample.config "mode" Sample.half) []).1
  ∧ ¬ raised (apply_validations [] (Sample.config "mode" Sample.half) []).1.
Proof.
  split.
  - destruct (apply_validations_threshold
                Sample.two_rows (Sample.config "mode" Sample.half) [])
      as (_ & _ & _ & Heq & _).
    apply Heq. vm_compute. reflexivity.
  - destruct (apply_validations_threshold [] (Sample.config "mode" Sample.half) [])
      as (_ & _ & _ & _ & Hnil).
    apply Hnil; [reflexivity|]. vm_compute. reflexivity.
Defined.

(** ** Accepted and rejected rows *)

Lemma unique_label_row {R} (df : Frame R) (i : Z) (r r' : R) :
  NoDup (index df) → (i, r) ∈ df → (i, r') ∈ df → r = r'.
Proof.
  unfold index. induction df as [|[j x] df IH]; [by intros _ ?%elem_of_nil|].
  rewrite fmap_cons, NoDup_cons. cbn [fst]. intros [Hj Hdf].
  rewrite !elem_of_cons. intros [Hr|Hr] [Hr'|Hr'].
  - congruence.
  - exfalso. apply Hj. inversion Hr; subst.
    by apply (list_elem_of_fmap_2 fst) in Hr'.
  - exfalso. apply Hj. inversion Hr'; subst.
    by apply (list_elem_of_fmap_2 fst) in Hr.
  - by apply IH.
Qed.

Lemma filter_ext_in {A} (P Q : A → Prop)
    `{∀ x, Decision (P x)} `{∀ x, Decision (Q x)} (l : list A) :
  (∀ x, x ∈ l → (P x ↔ Q x)) → filter P l = filter Q l.
Proof.
  induction l as [|x l IH]; [done|]. intros HPQ.
  rewrite !filter_cons.
  rewrite IH by (intros y Hy; apply HPQ; by right).
  destruct (decide (P x)) as [HP|HP], (decide (Q x)) as [HQ|HQ]; try done.
  - exfalso. apply HQ, HPQ; [by left|done].
  - exfalso. apply HP, HPQ; [by left|done].
Qed.

(** Under distinct labels the label test of [not_isin] is the row test. *)
Lemma not_isin_passes (cfg : Config) (df : Frame RawRecord) :
  NoDup (index df) →
  not_isin df (select (passes cfg) df) = filter (λ ir, ¬ passes cfg ir.2) df.
Proof.
  intros Hnd. unfold not_isin, select. apply filter_ext_in.
  intros [i r] Hin. cbn [fst snd]. unfold index.
  rewrite list_elem_of_fmap. split.
  - intros Hno Hp. apply Hno. exists (i, r). split; [done|].
    apply list_elem_of_filter. by split.
  - intros Hno ([j r'] & Hj & Hin'). cbn in Hj. subst j.
    apply list_elem_of_filter in Hin' as [Hp Hin']. cbn in Hp.
    by rewrite (unique_label_row df i r r' Hnd Hin Hin') in Hno.
Qed.

(** C4, as the code has it: on a frame whose index labels are pairwise
    distinct and on which [apply_validations] does not raise, the accepted
    rows are the input rows that pass the enabled checks and the rejected
    rows are the remaining input rows, both verbatim in the raw column
    set; every input row is in exactly one of the two outputs. *)
Theorem apply_validations_partition
    (df : Frame RawRecord) (cfg : Config) (log : list LogRecord)
    (accepted rejected : Frame RawRecord) :
  NoDup (index df) →
  (apply_validations df cfg log).1 = inr (accepted, rejected) →
  accepted = filter (λ ir, passes cfg ir.2) df
  ∧ rejected = filter (λ ir, ¬ passes cfg ir.2) df
  ∧ (∀ x, x ∈ rejected ↔ x ∈ df ∧ (x ∉ accepted))
  ∧ (∀ x, x ∈ df →
       (x ∈ accepted ∧ (x ∉ rejected)) ∨ ((x ∉ accepted) ∧ x ∈ rejected))
  ∧ accepted ++ rejected ≡ₚ df.
Proof.
  intros Hnd. rewrite apply_validations_run. cbn zeta.
  destruct (gtb _ _); cbn [fst]; [done|].
  rewrite (not_isin_passes cfg df Hnd). intros [= <- <-]. unfold select.
  split; [done|]. split; [done|]. split; [|split].
  - intros x. rewrite !list_elem_of_filter. tauto.
  - intros x Hx. rewrite !list_elem_of_filter.
    destruct (decide (passes cfg x.2)); tauto.
  - apply filter_app_complement.
Qed.

Lemma apply_validations_partition_witness :
  [(0, Sample.balanced)] ++ [(1, Sample.unbalanced)] ≡ₚ Sample.two_rows.
Proof.
  refine (proj2 (proj2 (proj2 (proj2
    (apply_validations_partition Sample.two_rows
       (Sample.config "mode" Sample.half) []
       [(0, Sample.balanced)] [(1, Sample.unbalanced)] _ _))))).
  - refine (bool_decide_unpack _ _). vm_compute. exact I.
  - vm_compute. reflexivity.
Defined.

(** C4 as stated fails on a frame with a repeated index label: the
    rejected row shares its label with an accepted one and is in neither
    output. *)
Lemma apply_validations_repeated_label :
  (apply_validations Sample.same_label (Sample.config "mode" Sample.half) []).1
    = inr ([(0, Sample.balanced)], [])
  ∧ ((0, Sample.unbalanced) ∈ Sample.same_label)
  ∧ ((0, Sample.unbalanced) ∉ [(0, Sample.balanced)])
  ∧ ((0, Sample.unbalanced) ∉ ([] : Frame RawRecord)).
Proof.
  split; [vm_compute; reflexivity|].
  split; [unfold Sample.same_label; right; left|].
  split; [|apply not_elem_of_nil].
  rewrite list_elem_of_singleton. intros H. vm_compute in H. discriminate H.
Qed.

(** ** Enabling checks *)

Lemma len_select_le {R} (p : R → bool) (l : Frame R) : len (select p l) ≤ len l.
Proof. unfold len, select. pose proof (length_filter (λ ir : Z * R, p ir.2) l). lia. Qed.

Lemma len_select_mono {R} (p q : R → bool) (l : Frame R) :
  (∀ r, q r = true → p r = true) → len (select q l) ≤ len (select p l).
Proof.
  intros Hqp. unfold len, select. apply inj_le.
  induction l as [|[i r] l IH]; [done|].
  rewrite !filter_cons. cbn [snd].
  destruct (decide (q r)) as [Hq|Hq], (decide (p r)) as [Hp|Hp];
    cbn [length]; try lia.
  exfalso. apply Hp, Is_true_true, Hqp. by apply Is_true_true.
Qed.

Lemma passes_mono (cfg cfg' : Config) (r : RawRecord) :
  tolerance cfg = tolerance cfg' →
  (∀ k, k ∈ check_names → truthy (checks cfg) k = true → truthy (checks cfg') k = true) →
  passes cfg' r = true → passes cfg r = true.
Proof.
  intros Htol Hen. unfold passes. rewrite Htol.
  assert (H1 := Hen "revenue_balance"). assert (H2 := Hen "overall_balance").
  assert (H3 := Hen "quantity_balance"). assert (H4 := Hen "refunded_nonpositive").
  unfold check_names in *. rewrite !elem_of_cons in *.
  destruct (truthy (checks cfg) "revenue_balance");
    [rewrite H1 by tauto|]; cbn [negb orb];
  (destruct (truthy (checks cfg) "overall_balance");
    [rewrite H2 by tauto|]; cbn [negb orb]);
  (destruct (truthy (checks cfg) "quantity_balance");
    [rewrite H3 by tauto|]; cbn [negb orb]);
  (destruct (truthy (checks cfg) "refunded_nonpositive");
    [rewrite H4 by tauto|]; cbn [negb orb]);
  rewrite ?andb_true_iff; tauto.
Qed.

Lemma passes_disabled (cfg : Config) (r : RawRecord) :
  (∀ k, k ∈ check_names → truthy (checks cfg) k = false) → passes cfg r = true.
Proof.
  intros Hoff. unfold passes.
  rewrite !Hoff by (unfold check_names; rewrite !elem_of_cons; tauto). done.
Qed.

(** ** Reconciliation *)

Section Reconciler.

Variable next_key : list Z → Z.

Context {R K : Type} `{EqDecision K}.
Implicit Types (on : R → K) (dim : list R) (existing : list K)
  (persisted : list (Keyed R)).

Lemma merge_left_cons {L V} (l : L) (left : list L) (left_on : L → K)
    (right : list (K * V)) :
  merge_left (l :: left) left_on right
  = merge_left [l] left_on right ++ merge_left left left_on right.
Proof. unfold merge_left. cbn [mbind list_bind]. by rewrite app_nil_r. Qed.

Lemma filter_key_nil {V} (k : K) (right : list (K * V)) :
  filter (λ kv, kv.1 = k) right = [] ↔ k ∉ right.*1.
Proof.
  induction right as [|[k' v] right IH]; [split; [intros _; apply not_elem_of_nil|done]|].
  rewrite filter_cons, fmap_cons, not_elem_of_cons. cbn [fst].
  destruct (decide (k' = k)) as [->|Hne]; [split; [done|tauto]|].
  rewrite IH. split; [intros; split; congruence|tauto].
Qed.

Lemma left_only_one {V} (r : R) on (right : list (K * V)) :
  (filter (λ x, indicator x.2 = left_only) (merge_left [r] on right)).*1
  = if decide (on r ∉ right.*1) then [r] else [].
Proof.
  unfold merge_left. cbn [mbind list_bind]. rewrite app_nil_r.
  pose proof (filter_key_nil (on r) right) as Hnil.
  destruct (filter (λ kv, kv.1 = on r) right) as [|m ms] eqn:Hf.
  - destruct (decide (on r ∉ right.*1)) as [_|Hin]; [done|].
    exfalso. by apply Hin, Hnil.
  - destruct (decide (on r ∉ right.*1)) as [Hout|_].
    { apply Hnil in Hout. discriminate Hout. }
    clear Hf Hnil. generalize (m :: ms). intros l.
    induction l as [|m' l IHl]; [done|].
    rewrite fmap_cons, filter_cons. cbn [snd indicator].
    by destruct (decide (both = left_only)).
Qed.

(** The merge-and-query is a left anti-join on the natural key. *)
Lemma new_rows_anti_join on dim existing :
  new_rows on dim existing = filter (λ r, on r ∉ existing) dim.
Proof.
  unfold new_rows. induction dim as [|r dim IH]; [done|].
  rewrite merge_left_cons, filter_app, fmap_app, IH, filter_cons, left_only_one.
  rewrite <- list_fmap_compose.
  assert (Hid : (fst ∘ (λ k : K, (k, tt))) <$> existing = existing)
    by (rewrite <- (list_fmap_id existing) at 2; by apply list_fmap_ext).
  rewrite Hid. by destruct (decide (on r ∉ existing)).
Qed.

Lemma filter_none {A} (P : A → Prop) `{∀ x, Decision (P x)} (l : list A) :
  (∀ x, x ∈ l → ¬ P x) → filter P l = [].
Proof.
  induction l as [|x l IH]; [done|]. intros Hno.
  rewrite filter_cons, IH by (intros y Hy; apply Hno; by right).
  destruct (decide (P x)) as [HP|_]; [|done].
  exfalso. by apply (Hno x); [left|].
Qed.

Lemma to_sql_app persisted (rows : list R) :
  ∃ inserted, to_sql next_key persisted rows = persisted ++ inserted
              ∧ inserted.*2 = rows.
Proof.
  revert persisted. induction rows as [|r rows IH]; intros persisted.
  - exists []. by rewrite app_nil_r.
  - cbn [to_sql]. destruct (IH (persisted ++ [(next_key persisted.*1, r)]))
      as (ins & -> & Hins).
    exists ((next_key persisted.*1, r) :: ins). split.
    + by rewrite <- app_assoc.
    + rewrite fmap_cons. cbn [snd]. by rewrite Hins.
Qed.

(** One reconciliation block: it never raises, the persisted rows stay
    in place, and what is appended is the anti-join. *)
Lemma reconcile_appends (table : string) on dim persisted log :
  ∃ inserted log',
    reconcile next_key table on dim persisted log
      = (inr (persisted ++ inserted), log')
    ∧ inserted.*2 = filter (λ r, on r ∉ (λ kr, on kr.2) <$> persisted) dim.
Proof.
  unfold reconcile. rewrite new_rows_anti_join.
  set (new := filter _ dim).
  destruct (decide (new ≠ [])) as [Hne|Heq]; eff.
  - destruct (to_sql_app persisted new) as (ins & -> & Hins).
    exists ins. eexists. split; [reflexivity|exact Hins].
  - apply dec_stable in Heq. exists []. eexists.
    rewrite app_nil_r, Heq. split; reflexivity.
Qed.

(** After the append, no candidate is new any more. *)
Lemma new_rows_after on dim persisted (inserted : list (Keyed R)) :
  inserted.*2 = filter (λ r, on r ∉ (λ kr, on kr.2) <$> persisted) dim →
  new_rows on dim ((λ kr, on kr.2) <$> (persisted ++ inserted)) = [].
Proof.
  intros Hins. rewrite new_rows_anti_join.
  apply filter_none. intros r Hr Hnew. apply Hnew.
  rewrite fmap_app, elem_of_app.
  destruct (decide (on r ∈ (λ kr, on kr.2) <$> persisted)) as [?|Hout]; [by left|].
  right. assert (Hin : r ∈ inserted.*2)
    by (rewrite Hins; apply list_elem_of_filter; by split).
  apply list_elem_of_fmap in Hin as ([k r'] & -> & Hin).
  by apply (list_elem_of_fmap_2 (λ kr, on kr.2)) in Hin.
Qed.

End Reconciler.

(** ** The fact load *)

Lemma load_fact_sales_run (df : Frame RawRecord) (conn : Warehouse) (cfg : Config)
    (log : list LogRecord) :
  load_fact_sales df conn cfg log =
    (inr (append_fact_sales conn (build_fact conn df.*2)),
     log ++ fk_warning (filter (λ j, missing_fk j) (join_keys conn df.*2))
         ++ [(INFO, FactRowCount (len (build_fact conn df.*2)));
             (INFO, LoadedFactSales)]).
Proof.
  unfold load_fact_sales, fk_warning, build_fact.
  destruct (bool_decide _); eff; by rewrite <- ?app_assoc, ?app_nil_r.
Qed.

(** C2. For each of the three dimensions the reconciliation appends
    exactly the candidate rows whose natural key ([full_date], [item_code],
    [buyer_id]) is not among the persisted rows, and leaves the persisted
    rows in place; it never raises.  Against the warehouse it leaves
    behind, the same candidates give no row to insert, and a second run
    leaves the three dimension tables as they are. *)
Theorem reconcile_insert_only
    (next_key : list Z → Z)
    (dates : list DateDim.row) (items : list ItemDim.row) (buyers : list BuyerDim.row)
    (df_validated : Frame RawRecord) (conn : Warehouse) (cfg : Config)
    (log : list LogRecord) :
  ∃ conn' log' new_dates new_items new_buyers,
    persist next_key dates items buyers df_validated conn cfg log = (inr conn', log')
    ∧ dim_date conn' = dim_date conn ++ new_dates
    ∧ new_dates.*2
      = filter (λ r, DateDim.full_date r ∉ persisted_dates conn) dates
    ∧ dim_item conn' = dim_item conn ++ new_items
    ∧ new_items.*2
      = filter (λ r, ItemDim.item_code r ∉ persisted_item_codes conn) items
    ∧ dim_buyer conn' = dim_buyer conn ++ new_buyers
    ∧ new_buyers.*2
      = filter (λ r, BuyerDim.buyer_id r ∉ persisted_buyer_ids conn) buyers
    ∧ new_rows DateDim.full_date dates (persisted_dates conn') = []
    ∧ new_rows ItemDim.item_code items (persisted_item_codes conn') = []
    ∧ new_rows BuyerDim.buyer_id buyers (persisted_buyer_ids conn') = []
    ∧ ∀ df2 log2, ∃ conn'' log'',
        persist next_key dates items buyers df2 conn' cfg log2 = (inr conn'', log'')
        ∧ dim_date conn'' = dim_date conn'
        ∧ dim_item conn'' = dim_item conn'
        ∧ dim_buyer conn'' = dim_buyer conn'.
Proof.
  unfold persist.
  destruct (reconcile_appends next_key "dim_date" DateDim.full_date dates
              (dim_date conn) log) as (nd & log1 & Hd & Hnd).
  destruct (reconcile_appends next_key "dim_item" ItemDim.item_code items
              (dim_item conn) log1) as (ni & log2 & Hi & Hni).
  destruct (reconcile_appends next_key "dim_buyer" BuyerDim.buyer_id buyers
              (dim_buyer conn) log2) as (nb & log3 & Hb & Hnb).
  unfold mbind at 1 2 3. unfold Eff_bind at 1 2 3.
  rewrite Hd. cbn [dim_date dim_item dim_buyer fact_sales].
  rewrite Hi. cbn [dim_date dim_item dim_buyer fact_sales].
  rewrite Hb, load_fact_sales_run.
  eexists _, _, nd, ni, nb. split; [reflexivity|].
  cbn [append_fact_sales dim_date dim_item dim_buyer fact_sales].
  unfold persisted_dates, persisted_item_codes, persisted_buyer_ids.
  cbn [dim_date dim_item dim_buyer].
  pose proof (new_rows_after DateDim.full_date dates (dim_date conn) nd Hnd) as Zd.
  pose proof (new_rows_after ItemDim.item_code items (dim_item conn) ni Hni) as Zi.
  pose proof (new_rows_after BuyerDim.buyer_id buyers (dim_buyer conn) nb Hnb) as Zb.
  do 9 (split; [done|]).
  intros df2 l2. unfold reconcile. cbn [dim_date dim_item dim_buyer].
  rewrite Zd, Zi, Zb.
  destruct (decide (@nil DateDim.row ≠ [])) as [?|_]; [done|].
  destruct (decide (@nil ItemDim.row ≠ [])) as [?|_]; [done|].
  destruct (decide (@nil BuyerDim.row ≠ [])) as [?|_]; [done|].
  eff. rewrite load_fact_sales_run. eexists _, _. split; [reflexivity|]. done.
Qed.

(** ** Code point order *)

Ltac ncases :=
  repeat match goal with
    | |- context [(?a <? ?b)%N] => destruct (N.ltb_spec a b)
    | |- context [(?a <=? ?b)%N] => destruct (N.leb_spec a b)
    | |- context [(?a =? ?b)%N] => destruct (N.eqb_spec a b)
    | H : context [(?a <? ?b)%N] |- _ => destruct (N.ltb_spec a b)
    | H : context [(?a <=? ?b)%N] |- _ => destruct (N.leb_spec a b)
    | H : context [(?a =? ?b)%N] |- _ => destruct (N.eqb_spec a b)
    end.

#[global] Instance Str_le_total : Total Str.le.
Proof.
  intros s. unfold Str.le. induction s as [|a s IH]; intros [|b t]; cbn; auto.
  ncases; subst; auto; lia.
Qed.

#[global] Instance Str_le_trans : Transitive Str.le.
Proof.
  intros s. unfold Str.le.
  induction s as [|a s IH]; intros [|b t] [|c u]; cbn; try done.
  ncases; subst; try done; try lia. apply IH.
Qed.

#[global] Instance Str_le_antisymm : AntiSymm (=) Str.le.
Proof.
  intros s. unfold Str.le.
  induction s as [|a s IH]; intros [|b t]; cbn; try done.
  ncases; subst; try done; try lia. intros ??. f_equal. by apply IH.
Qed.

(** ** The item dimension *)

Section ItemDimension.

Implicit Types (series : list (option PyStr)) (item_df : list ItemDim.row).

Lemma max_list_with_ge {A} (f : A → nat) (l : list A) (x : A) :
  x ∈ l → (f x ≤ max_list_with f l)%nat.
Proof.
  induction 1 as [x l|x y l _ IH]; cbn [max_list_with]; lia.
Qed.

Lemma max_list_with_attained {A} (f : A → nat) (l : list A) :
  l ≠ [] → ∃ x, x ∈ l ∧ f x = max_list_with f l.
Proof.
  induction l as [|x l IH]; [done|]. intros _. cbn [max_list_with].
  destruct l as [|y l].
  - exists x. split; [by left|]. cbn. lia.
  - destruct IH as (z & Hz & Hfz); [done|].
    destruct (Nat.max_spec (f x) (max_list_with f (y :: l))) as [[? ->]|[? ->]].
    + exists z. split; [by right|done].
    + exists x. split; [by left|done].
Qed.

Lemma sorted_head_least (l : list (list N)) (m : list N) (rest : list (list N)) :
  merge_sort Str.le l = m :: rest → m ∈ l ∧ ∀ w, w ∈ l → Str.le m w.
Proof.
  intros Hs.
  pose proof (StronglySorted_merge_sort Str.le l) as Hss.
  pose proof (merge_sort_Permutation Str.le l) as Hp.
  rewrite Hs in Hss, Hp. split.
  - rewrite <- Hp. by left.
  - intros w Hw. rewrite <- Hp in Hw. apply elem_of_cons in Hw as [->|Hw].
    + destruct (total Str.le m m); done.
    + apply StronglySorted_inv in Hss as [_ Hall].
      by apply (proj1 (Forall_forall _ _) Hall).
Qed.

Lemma omap_id_nil {A} (l : list (option A)) :
  omap id l = [] → ∀ x, x ∈ l → x = None.
Proof.
  induction l as [|[a|] l IH]; cbn; [by intros _ ? ?%elem_of_nil|done|].
  intros Hl x [->|Hx]%elem_of_cons; [done|by apply IH].
Qed.

(** [canon] picks the least of the most frequent non-null values. *)
Lemma canon_least_most_frequent series : least_most_frequent series (canon series).
Proof.
  unfold canon, mode, least_most_frequent.
  set (values := omap id series).
  set (top := max_list_with (λ v, count_of v values) values).
  destruct (merge_sort Str.le _) as [|m rest] eqn:Hs.
  - assert (Hnil : values = []).
    { destruct (decide (values = [])) as [?|Hne]; [done|]. exfalso.
      destruct (max_list_with_attained (λ v, count_of v values) values Hne)
        as (x & Hx & Hfx).
      pose proof (merge_sort_Permutation Str.le
        (filter (λ v, count_of v values = top) (remove_dups values))) as Hp.
      rewrite Hs in Hp. symmetry in Hp. apply Permutation_nil_r in Hp.
      assert (Hin : x ∈ filter (λ v, count_of v values = top) (remove_dups values))
        by (apply list_elem_of_filter; split; [done|by apply elem_of_remove_dups]).
      rewrite Hp in Hin. by apply elem_of_nil in Hin. }
    destruct series as [|[v|] series']; cbn; try done.
  - apply sorted_head_least in Hs as [Hm Hleast].
    apply list_elem_of_filter in Hm as [Hcount Hm].
    rewrite elem_of_remove_dups in Hm. split; [done|].
    intros w Hw. split.
    + rewrite Hcount. by apply (max_list_with_ge (λ v, count_of v values)).
    + intros Heq. apply Hleast, list_elem_of_filter.
      split; [congruence|by apply elem_of_remove_dups].
Qed.

Lemma agg_first_non_null (ids : list (option Z)) : first_non_null ids (agg_first ids).
Proof.
  unfold agg_first, first_non_null. induction ids as [|[z|] ids IH]; cbn.
  - by intros ? ?%elem_of_nil.
  - exists [], ids. split; [done|]. by intros ? ?%elem_of_nil.
  - destruct (head (omap id ids)) as [z|].
    + destruct IH as (pre & post & -> & Hpre). exists (None :: pre), post.
      split; [done|]. intros x [->|Hx]%elem_of_cons; [done|by apply Hpre].
    + intros x [->|Hx]%elem_of_cons; [done|by apply IH].
Qed.

Lemma group_keys_spec item_df (k : list N) :
  k ∈ group_keys item_df ↔ ∃ r, r ∈ item_df ∧ ItemDim.item_code r = Some k.
Proof.
  unfold group_keys.
  rewrite merge_sort_Permutation, elem_of_remove_dups, list_elem_of_omap. done.
Qed.

Lemma group_keys_NoDup item_df : NoDup (group_keys item_df).
Proof.
  unfold group_keys. rewrite merge_sort_Permutation. apply NoDup_remove_dups.
Qed.

Lemma filter_fmap {A B} (f : A → B) (P : B → Prop) `{∀ y, Decision (P y)}
    (l : list A) :
  filter P (f <$> l) = f <$> filter (λ x, P (f x)) l.
Proof.
  induction l as [|x l IH]; [done|].
  rewrite fmap_cons, !filter_cons, IH. by destruct (decide (P (f x))).
Qed.

Lemma grouped_codes_NoDup item_df :
  NoDup (ItemDim.item_code <$> dropna_item_id (groupby_agg item_df)).
Proof.
  unfold dropna_item_id, groupby_agg.
  rewrite filter_fmap, <- list_fmap_compose.
  apply (NoDup_fmap_2 (A := list N) Some), NoDup_filter, group_keys_NoDup.
Qed.

Lemma drop_duplicates_from_spec {A} `{EqDecision A} (seen l : list A) :
  NoDup (drop_duplicates_from seen l)
  ∧ ∀ x, x ∈ drop_duplicates_from seen l ↔ x ∈ l ∧ (x ∉ seen).
Proof.
  revert seen. induction l as [|y l IH]; intros seen; cbn [drop_duplicates_from].
  - split; [constructor|]. intros x. rewrite elem_of_nil. tauto.
  - destruct (decide (y ∈ seen)) as [Hy|Hy].
    + destruct (IH seen) as [Hnd Hin]. split; [done|].
      intros x. rewrite Hin, elem_of_cons. split; [tauto|].
      intros [[->|?] ?]; tauto.
    + destruct (IH (y :: seen)) as [Hnd Hin]. split.
      * apply NoDup_cons. split; [|done]. rewrite Hin, elem_of_cons. tauto.
      * intros x. rewrite !elem_of_cons, Hin, !elem_of_cons.
        destruct (decide (x = y)) as [->|]; tauto.
Qed.

Lemma load_item_dimension_run (df : Frame RawRecord) (cfg : Config)
    (log : list LogRecord) :
  load_item_dimension df cfg log =
    if decide (item_attributes cfg = "mode") then
      (inr (dropna_item_id (groupby_agg (item_frame df cfg))),
       log ++ dropped_warning
                (len (groupby_agg (item_frame df cfg))
                 - len (dropna_item_id (groupby_agg (item_frame df cfg)))))
    else
      (inr (drop_duplicates (dropna_item_id (item_frame df cfg))), log).
Proof.
  unfold load_item_dimension, dropped_warning.
  destruct (decide _); [|done].
  destruct (bool_decide _); eff; by rewrite ?app_nil_r.
Qed.

End ItemDimension.

Section ItemDimensionClaims.

Implicit Types (item_df : list ItemDim.row).

Lemma length_filter_split {A} (P : A → Prop) `{∀ x, Decision (P x)} (l : list A) :
  length l = (length (filter P l) + length (filter (λ x, ¬ P x) l))%nat.
Proof. by rewrite <- length_app, filter_app_complement. Qed.

Lemma dropped_groups_count item_df :
  len (groupby_agg item_df) - len (dropna_item_id (groupby_agg item_df))
  = len (dropped_groups item_df).
Proof.
  unfold len, dropna_item_id, groupby_agg, dropped_groups.
  rewrite filter_fmap, !length_fmap.
  rewrite (length_filter_split
             (λ k, is_Some (ItemDim.item_id (agg_group item_df k)))
             (group_keys item_df)) at 1.
  rewrite (list_filter_iff
             (λ k, ¬ is_Some (ItemDim.item_id (agg_group item_df k)))
             (λ k, agg_first (ItemDim.item_id <$> group_of item_df k) = None)).
  - lia.
  - intros k. cbn [agg_group ItemDim.item_id].
    rewrite <- eq_None_not_Some. done.
Qed.

Lemma group_of_non_empty item_df (k : list N) :
  k ∈ group_keys item_df → group_of item_df k ≠ [].
Proof.
  intros (r & Hr & Hk)%group_keys_spec Hnil.
  assert (Hin : r ∈ group_of item_df k) by (by apply list_elem_of_filter).
  rewrite Hnil in Hin. by apply elem_of_nil in Hin.
Qed.

Lemma agg_first_None (ids : list (option Z)) :
  agg_first ids = None ↔ ∀ x, x ∈ ids → x = None.
Proof.
  split.
  - intros Hn. pose proof (agg_first_non_null ids) as H. by rewrite Hn in H.
  - intros Hall. pose proof (agg_first_non_null ids) as H.
    destruct (agg_first ids) as [z|]; [|done].
    destruct H as (pre & post & -> & _).
    discriminate (Hall (Some z)). rewrite elem_of_app, elem_of_cons. tauto.
Qed.

End ItemDimensionClaims.

(** C3, as the code has it: under the [mode] strategy there is one
    candidate row per non-null [item_code]; [item_name], [category] and
    [version] are each resolved, independently, to the most frequent
    non-null value of the group, a tie going to the least value in code
    point order, and to null when the group has no value; [item_id] is the
    first non-null identifier of the group in row order; the groups with
    no non-null identifier are dropped, and their number is logged as a
    warning when it is not zero. *)
Theorem mode_strategy_resolution
    (df : Frame RawRecord) (cfg : Config) (log : list LogRecord) :
  item_attributes cfg = "mode" →
  let item_df := item_frame df cfg in
  let group k := filter (λ x, ItemDim.item_code x = Some k) item_df in
  ∃ rows,
    load_item_dimension df cfg log
      = (inr rows, log ++ dropped_warning (len (dropped_groups item_df)))
    ∧ (∀ r, r ∈ rows →
         ∃ k, ItemDim.item_code r = Some k
              ∧ group k ≠ []
              ∧ is_Some (ItemDim.item_id r)
              ∧ first_non_null (ItemDim.item_id <$> group k) (ItemDim.item_id r)
              ∧ least_most_frequent (ItemDim.item_name <$> group k) (ItemDim.item_name r)
              ∧ least_most_frequent (ItemDim.category <$> group k) (ItemDim.category r)
              ∧ least_most_frequent (ItemDim.version <$> group k) (ItemDim.version r))
    ∧ (∀ x k, x ∈ item_df → ItemDim.item_code x = Some k →
              is_Some (ItemDim.item_id x) →
              ∃ r, r ∈ rows ∧ ItemDim.item_code r = Some k)
    ∧ NoDup (dropped_groups item_df)
    ∧ (∀ k, k ∈ dropped_groups item_df ↔
            group k ≠ [] ∧ ∀ x, x ∈ group k → ItemDim.item_id x = None).
Proof.
  intros Hmode. cbn zeta. rewrite load_item_dimension_run.
  destruct (decide _) as [_|]; [|done].
  set (item_df := item_frame df cfg).
  rewrite dropped_groups_count. eexists. split; [reflexivity|].
  split; [|split; [|split]].
  - intros r Hr. unfold dropna_item_id, groupby_agg in Hr.
    apply list_elem_of_filter in Hr as [Hid Hr].
    apply list_elem_of_fmap in Hr as (k & -> & Hk). exists k.
    cbn [agg_group ItemDim.item_code ItemDim.item_id ItemDim.item_name
           ItemDim.category ItemDim.version] in *.
    split; [done|]. split; [by apply group_of_non_empty|]. split; [done|].
    split; [apply agg_first_non_null|].
    repeat split; apply canon_least_most_frequent.
  - intros x k Hx Hk Hid.
    assert (Hkey : k ∈ group_keys item_df) by (apply group_keys_spec; eauto).
    exists (agg_group item_df k). split; [|done].
    unfold dropna_item_id, groupby_agg. apply list_elem_of_filter. split.
    + cbn [agg_group ItemDim.item_id].
      destruct (agg_first _) as [z|] eqn:Hfirst; [done|]. exfalso.
      destruct Hid as [z Hz].
      rewrite agg_first_None in Hfirst.
      discriminate (Hfirst (Some z)). rewrite <- Hz.
      apply list_elem_of_fmap_2. apply list_elem_of_filter. by split.
    + by apply list_elem_of_fmap_2.
  - unfold dropped_groups. apply NoDup_filter, group_keys_NoDup.
  - intros k. unfold dropped_groups. rewrite list_elem_of_filter, agg_first_None.
    fold (group_of item_df k). split.
    + intros [Hnone Hk]. split; [by apply group_of_non_empty|].
      intros x Hx. apply Hnone. by apply list_elem_of_fmap_2.
    + intros [Hne Hnone]. split.
      * intros o (x & -> & Hx)%list_elem_of_fmap. by apply Hnone.
      * destruct (group_of item_df k) as [|x g] eqn:Hg; [done|].
        assert (Hx : x ∈ group_of item_df k) by (rewrite Hg; by left).
        apply list_elem_of_filter in Hx as [Hc Hx].
        apply group_keys_spec. eauto.
Qed.

Lemma mode_strategy_resolution_witness :
  ∃ rows,
    load_item_dimension Sample.tied_names (Sample.config "mode" Sample.half) []
    = (inr rows, []).
Proof.
  destruct (mode_strategy_resolution
              Sample.tied_names (Sample.config "mode" Sample.half) [] eq_refl)
    as (rows & Hrun & _).
  exists rows. exact Hrun.
Defined.

(** C3 as stated fails twice on one frame.  Code A is seen with the names
    "b" then "a", once each: the first of the tied names in row order is
    "b", the resolved name is "a".  The first row of code B has a null
    [item_id] and the second has 5: the group is kept with identifier 5
    rather than dropped. *)
Lemma mode_tie_and_first_identifier :
  (load_item_dimension Sample.tied_names (Sample.config "mode" Sample.half) []).1
    = inr [Sample.item_out 65 1 [97%N]; Sample.item_out 66 5 [120%N]]
  ∧ first_most_frequent [Some [98%N]; Some [97%N]] = Some [98%N]
  ∧ canon [Some [98%N]; Some [97%N]] = Some [97%N]
  ∧ (item_id <$> filter (λ r, item_code r = Some [66%N]) Sample.tied_names.*2)
    = [None; Some 5].
Proof. repeat split; vm_compute; reflexivity. Qed.

(** C5, as the code has it: the item dimension never raises and no output
    row has a null [item_id] nor is repeated; under the [mode] strategy no
    [item_code] is repeated; under the other strategy the output is the
    set of distinct rows of the input with a non-null [item_id], so an
    [item_code] seen with two attribute sets is there twice. *)
Theorem item_dimension_keys
    (df : Frame RawRecord) (cfg : Config) (log : list LogRecord) :
  ∃ rows log',
    load_item_dimension df cfg log = (inr rows, log')
    ∧ (∀ r, r ∈ rows → is_Some (ItemDim.item_id r))
    ∧ NoDup rows
    ∧ (item_attributes cfg = "mode" → NoDup (ItemDim.item_code <$> rows))
    ∧ (item_attributes cfg ≠ "mode" →
       ∀ r, r ∈ rows ↔ r ∈ item_frame df cfg ∧ is_Some (ItemDim.item_id r)).
Proof.
  rewrite load_item_dimension_run. destruct (decide _) as [Hmode|Hother].
  - eexists _, _. split; [reflexivity|].
    split; [|split; [|split; [|done]]].
    + intros r Hr. unfold dropna_item_id in Hr.
      by apply list_elem_of_filter in Hr as [? _].
    + eapply NoDup_fmap_1, grouped_codes_NoDup.
    + intros _. apply grouped_codes_NoDup.
  - eexists _, _. split; [reflexivity|].
    destruct (drop_duplicates_from_spec [] (dropna_item_id (item_frame df cfg)))
      as [Hnd Hin].
    assert (Hrows : ∀ r, r ∈ drop_duplicates (dropna_item_id (item_frame df cfg))
                         ↔ r ∈ item_frame df cfg ∧ is_Some (ItemDim.item_id r)).
    { intros r. unfold drop_duplicates. rewrite Hin. unfold dropna_item_id.
      rewrite list_elem_of_filter, elem_of_nil. tauto. }
    split; [|split; [done|split; [done|]]].
    + intros r Hr. by apply Hrows in Hr as [_ ?].
    + intros _. exact Hrows.
Qed.

Lemma item_dimension_keys_witness :
  (∃ rows log',
     load_item_dimension Sample.tied_names (Sample.config "mode" Sample.half) []
       = (inr rows, log')
     ∧ NoDup (ItemDim.item_code <$> rows))
  ∧ (∃ rows log',
     load_item_dimension Sample.tied_names
         (Sample.config "first-occurrence" Sample.half) []
       = (inr rows, log')
     ∧ ∀ r, r ∈ rows ↔
         r ∈ item_frame Sample.tied_names
               (Sample.config "first-occurrence" Sample.half)
         ∧ is_Some (ItemDim.item_id r)).
Proof.
  split.
  - destruct (item_dimension_keys
                Sample.tied_names (Sample.config "mode" Sample.half) [])
      as (rows & log' & Hrun & _ & _ & Hcodes & _).
    exists rows, log'. split; [exact Hrun|]. apply Hcodes. reflexivity.
  - destruct (item_dimension_keys
                Sample.tied_names (Sample.config "first-occurrence" Sample.half) [])
      as (rows & log' & Hrun & _ & _ & _ & Hrows).
    exists rows, log'. split; [exact Hrun|]. apply Hrows. discriminate.
Defined.

(** C5 as stated fails under the first-occurrence strategy: code A, seen
    with two names, is in the output twice. *)
Lemma first_occurrence_repeats_item_code :
  (load_item_dimension Sample.tied_names
     (Sample.config "first-occurrence" Sample.half) []).1
    = inr [Sample.item_out 65 1 [98%N]; Sample.item_out 65 1 [97%N];
           Sample.item_out 66 5 [120%N]]
  ∧ ¬ NoDup (ItemDim.item_code <$>
               [Sample.item_out 65 1 [98%N]; Sample.item_out 65 1 [97%N];
                Sample.item_out 66 5 [120%N]]).
Proof.
  split; [vm_compute; reflexivity|].
  intros Hnd. apply NoDup_cons in Hnd as [Hnot _]. apply Hnot. by left.
Qed.

(** ** The date dimension *)

Section DateDimension.

Lemma min_list_spec (x : Z) (l : list Z) :
  min_list x l ∈ x :: l ∧ ∀ y, y ∈ x :: l → min_list x l ≤ y.
Proof.
  unfold min_list. induction l as [|z l [IHin IHle]]; cbn [foldr].
  - split; [by left|]. intros y ->%list_elem_of_singleton. lia.
  - split.
    + destruct (Z.min_spec z (foldr Z.min x l)) as [[_ ->]|[_ ->]].
      * right. by left.
      * apply elem_of_cons in IHin as [->|?]; [by left|by do 2 right].
    + intros y Hy. rewrite !elem_of_cons in Hy.
      assert (foldr Z.min x l ≤ x) by (apply IHle; by left).
      destruct Hy as [->|[->|Hy]]; [lia|lia|].
      assert (foldr Z.min x l ≤ y) by (apply IHle; by right). lia.
Qed.

Lemma max_list_spec (x : Z) (l : list Z) :
  max_list x l ∈ x :: l ∧ ∀ y, y ∈ x :: l → y ≤ max_list x l.
Proof.
  unfold max_list. induction l as [|z l [IHin IHle]]; cbn [foldr].
  - split; [by left|]. intros y ->%list_elem_of_singleton. lia.
  - split.
    + destruct (Z.max_spec z (foldr Z.max x l)) as [[_ ->]|[_ ->]].
      * apply elem_of_cons in IHin as [->|?]; [by left|by do 2 right].
      * right. by left.
    + intros y Hy. rewrite !elem_of_cons in Hy.
      assert (x ≤ foldr Z.max x l) by (apply IHle; by left).
      destruct Hy as [->|[->|Hy]]; [lia|lia|].
      assert (y ≤ foldr Z.max x l) by (apply IHle; by right). lia.
Qed.

Lemma date_of_mono (s t : Z) : s ≤ t → Calendar.date_of s ≤ Calendar.date_of t.
Proof. intros ?. unfold Calendar.date_of. by apply Z.div_le_mono. Qed.

Lemma midnight_inj : Inj (=) (=) Calendar.midnight.
Proof. intros d d'. unfold Calendar.midnight, Calendar.ns_per_day. lia. Qed.

Lemma is_weekend_iso (d : Z) :
  DateDim.is_weekend (date_row d) = true
  ↔ Calendar.isoweekday d = 6 ∨ Calendar.isoweekday d = 7.
Proof.
  cbn [date_row DateDim.is_weekend]. rewrite bool_decide_eq_true.
  unfold Calendar.isoweekday, Calendar.weekday.
  pose proof (Z.mod_pos_bound (d + 3) 7). lia.
Qed.

(** 2025-11-02 is day 20394, a Sunday; the 8th is a Saturday and the
    10th a Monday. *)
Lemma known_days :
  Calendar.civil 20394 = (2025, 11, 2) ∧ Calendar.isoweekday 20394 = 7
  ∧ Calendar.civil 20400 = (2025, 11, 8) ∧ Calendar.isoweekday 20400 = 6
  ∧ Calendar.civil 20402 = (2025, 11, 10) ∧ Calendar.isoweekday 20402 = 1.
Proof. repeat split; vm_compute; reflexivity. Qed.

Lemma civil_stages (d : Z) :
  Calendar.civil d
  = add_years (yoe_of (doe_of d) + era_of d * 400) (month_day (doy_of (doe_of d))).
Proof.
  unfold Calendar.civil, add_years, month_day, doy_of, yoe_of, doe_of, era_of.
  cbn zeta. rewrite Z.mod_eq by done.
  replace (d + 719468 - 146097 * ((d + 719468) `div` 146097))
    with (d + 719468 - (d + 719468) `div` 146097 * 146097) by lia.
  cbn [fst snd]. f_equal. f_equal. lia.
Qed.

Lemma is_leap_spec (y : Z) :
  is_leap y = true ↔ (y `mod` 4 = 0 ∧ y `mod` 100 ≠ 0) ∨ y `mod` 400 = 0.
Proof.
  unfold is_leap.
  rewrite orb_true_iff, andb_true_iff, negb_true_iff, !Z.eqb_eq, Z.eqb_neq. tauto.
Qed.

Lemma doe_year_day (doe : Z) : doe = year_start (yoe_of doe) + doy_of doe.
Proof. unfold doy_of, year_start. lia. Qed.

(** The year of the era and the day of the year, for a day of the era. *)
Lemma year_of_era (doe : Z) :
  0 ≤ doe < 146097 →
  0 ≤ yoe_of doe ≤ 399 ∧ 0 ≤ doy_of doe ≤ 365
  ∧ (doy_of doe = 365 → is_leap (yoe_of doe + 1) = true).
Proof.
  intros Hdoe.
  assert (H1 : 0 ≤ yoe_of doe ≤ 399)
    by (unfold yoe_of; Z.div_mod_to_equations; lia).
  assert (H2 : 0 ≤ doy_of doe)
    by (unfold doy_of, yoe_of; Z.div_mod_to_equations; lia).
  assert (H3 : doy_of doe ≤ 365)
    by (unfold doy_of, yoe_of; Z.div_mod_to_equations; lia).
  split; [done|]. split; [done|].
  rewrite is_leap_spec. unfold doy_of, yoe_of. Z.div_mod_to_equations. lia.
Qed.

(** The month of a day of the year, and what Zeller's month term differs
    by from the days before that month. *)
Lemma month_day_zeller (doy : Z) :
  0 ≤ doy ≤ 365 →
  ∃ mp, 0 ≤ mp ≤ 11
    ∧ month_day doy
      = ((if decide (mp < 10) then 0 else 1),
         (if decide (mp < 10) then mp + 3 else mp - 9),
         doy - (153 * mp + 2) `div` 5 + 1)
    ∧ ((13 * (mp + 4)) `div` 5 - (153 * mp + 2) `div` 5) `mod` 7 = 3.
Proof.
  intros Hd. exists ((5 * doy + 2) `div` 153).
  assert (Hmp : 0 ≤ (5 * doy + 2) `div` 153 ≤ 11) by (Z.div_mod_to_equations; lia).
  split; [done|]. split.
  - unfold month_day. cbn zeta.
    destruct (decide ((5 * doy + 2) `div` 153 < 10)).
    + rewrite decide_False by lia. done.
    + rewrite decide_True by lia. done.
  - set (mp := (5 * doy + 2) `div` 153) in *. clearbody mp.
    assert (Hcases : mp = 0 ∨ mp = 1 ∨ mp = 2 ∨ mp = 3 ∨ mp = 4 ∨ mp = 5 ∨ mp = 6
                     ∨ mp = 7 ∨ mp = 8 ∨ mp = 9 ∨ mp = 10 ∨ mp = 11) by lia.
    repeat destruct Hcases as [->|Hcases]; try reflexivity. by subst.
Qed.

Lemma zeller_year_term (y e : Z) :
  0 ≤ y ≤ 399 →
  (y + e * 400 + (y + e * 400) `div` 4 - (y + e * 400) `div` 100
     + (y + e * 400) `div` 400)
  = year_start y - 364 * y + 497 * e.
Proof.
  intros Hy. unfold year_start.
  assert (H4 : (y + e * 400) `div` 4 = y `div` 4 + 100 * e).
  { replace (y + e * 400) with (y + (100 * e) * 4) by lia. by rewrite Z.div_add. }
  assert (H100 : (y + e * 400) `div` 100 = y `div` 100 + 4 * e).
  { replace (y + e * 400) with (y + (4 * e) * 100) by lia. by rewrite Z.div_add. }
  assert (H400 : (y + e * 400) `div` 400 = e).
  { rewrite Z.div_add by done. rewrite (Z.div_small y 400) by lia. lia. }
  lia.
Qed.

(** The weekday the code computes from the day number is the ISO weekday
    of the date that day number stands for. *)
Lemma civil_weekday (d : Z) :
  iso_weekday_of_date (Calendar.year d) (Calendar.month d) (Calendar.day d)
  = Calendar.weekday d + 1.
Proof.
  unfold Calendar.year, Calendar.month, Calendar.day. rewrite civil_stages.
  assert (Hdoe : 0 ≤ doe_of d < 146097) by (apply Z.mod_pos_bound; done).
  destruct (year_of_era (doe_of d) Hdoe) as (Hy & Hdoy & _).
  pose proof (doe_year_day (doe_of d)) as Hsplit.
  assert (Hd : d + 719468 = era_of d * 146097 + doe_of d).
  { unfold era_of, doe_of. pose proof (Z.div_mod (d + 719468) 146097). lia. }
  set (y := yoe_of (doe_of d)) in *. set (doy := doy_of (doe_of d)) in *.
  set (e := era_of d) in *.
  destruct (month_day_zeller doy Hdoy) as (mp & Hmp & -> & Hshift).
  unfold add_years. cbn [fst snd].
  unfold iso_weekday_of_date, zeller, Calendar.weekday. cbn zeta.
  set (m' := if decide (_ ≤ 2) then _ + 12 else _).
  set (y' := if decide (_ ≤ 2) then _ - 1 else _).
  assert (Hm' : m' = mp + 3).
  { unfold m'. destruct (decide (mp < 10)).
    - rewrite decide_False by lia. done.
    - rewrite decide_True by lia. lia. }
  assert (Hy' : y' = y + e * 400).
  { unfold y'. destruct (decide (mp < 10)).
    - rewrite decide_False by lia. lia.
    - rewrite decide_True by lia. lia. }
  rewrite Hm', Hy'.
  replace (doy - (153 * mp + 2) `div` 5 + 1 + (13 * (mp + 3 + 1)) `div` 5
           + (y + e * 400) + (y + e * 400) `div` 4 - (y + e * 400) `div` 100
           + (y + e * 400) `div` 400)
    with (doy + 1 + ((13 * (mp + 4)) `div` 5 - (153 * mp + 2) `div` 5)
          + (y + e * 400 + (y + e * 400) `div` 4 - (y + e * 400) `div` 100
             + (y + e * 400) `div` 400))
    by (replace (mp + 3 + 1) with (mp + 4) by lia; lia).
  rewrite zeller_year_term by done.
  set (shift := (13 * (mp + 4)) `div` 5 - (153 * mp + 2) `div` 5) in *.
  clearbody shift.
  replace (d + 3) with (doe_of d + 2 + 7 * (20871 * e - 102781)) by lia.
  rewrite Hsplit. fold y doy.
  generalize (year_start y). intros ys.
  Z.div_mod_to_equations. lia.
Qed.

Lemma is_weekend_iso_date (d : Z) :
  DateDim.is_weekend (date_row d) = true
  ↔ iso_weekday_of_date (Calendar.year d) (Calendar.month d) (Calendar.day d) = 6
    ∨ iso_weekday_of_date (Calendar.year d) (Calendar.month d) (Calendar.day d) = 7.
Proof.
  rewrite civil_weekday. cbn [date_row DateDim.is_weekend].
  rewrite bool_decide_eq_true. unfold Calendar.weekday.
  pose proof (Z.mod_pos_bound (d + 3) 7). lia.
Qed.

End DateDimension.

(** C6. When at least one date value is present, [build_date_dimension]
    returns [(max_date − min_date).days + 1] rows, one per calendar day
    from [min_date] to [max_date] in order and without a gap, [full_date]
    never repeated, and [is_weekend] true exactly when the date in the
    row's [year], [month] and [day] falls on ISO weekday 6 (Saturday) or 7
    (Sunday) of the Gregorian calendar; when every date value is absent it
    raises and leaves nothing behind. *)
Theorem build_date_dimension_range
    (df : Frame RawRecord) (cfg : Config) (log : list LogRecord) :
  ((∀ ir, ir ∈ df → date ir.2 = None) →
   build_date_dimension df cfg log = (inl NoValidDates, log))
  ∧ ((∃ ir, ir ∈ df ∧ is_Some (date ir.2)) →
     ∃ min_ts max_ts dim,
       (∃ ir, ir ∈ df ∧ date ir.2 = Some min_ts)
       ∧ (∃ ir, ir ∈ df ∧ date ir.2 = Some max_ts)
       ∧ (∀ ir t, ir ∈ df → date ir.2 = Some t → min_ts ≤ t ≤ max_ts)
       ∧ build_date_dimension df cfg log = (inr dim, log)
       ∧ let min_date := Calendar.date_of min_ts in
         let max_date := Calendar.date_of max_ts in
         len dim = max_date - min_date + 1
         ∧ dim = date_row <$> seqZ min_date (max_date - min_date + 1)
         ∧ (∀ d, min_date ≤ d ≤ max_date →
                 ∃ r, r ∈ dim ∧ DateDim.full_date r = Calendar.midnight d)
         ∧ NoDup (DateDim.full_date <$> dim)
         ∧ (∀ r, r ∈ dim →
              ∃ d, min_date ≤ d ≤ max_date
                   ∧ DateDim.full_date r = Calendar.midnight d
                   ∧ (DateDim.year r, DateDim.month r, DateDim.day r)
                     = Calendar.civil d
                   ∧ (DateDim.is_weekend r = true
                      ↔ Calendar.isoweekday d = 6 ∨ Calendar.isoweekday d = 7))
         ∧ (∀ r, r ∈ dim →
              DateDim.is_weekend r = true
              ↔ iso_weekday_of_date (DateDim.year r) (DateDim.month r) (DateDim.day r) = 6
                ∨ iso_weekday_of_date (DateDim.year r) (DateDim.month r) (DateDim.day r)
                  = 7)).
Proof.
  unfold build_date_dimension. split.
  - intros Hnone.
    assert (Hs : omap (λ ir : Z * RawRecord, date ir.2) df = []).
    { induction df as [|ir df IH]; [done|]. cbn [omap list_omap].
      rewrite (Hnone ir) by (by left). apply IH. intros ??. apply Hnone. by right. }
    by rewrite Hs.
  - intros (ir & Hir & [t0 Ht0]).
    destruct (omap (λ ir : Z * RawRecord, date ir.2) df) as [|t ts] eqn:Hs.
    { exfalso. assert (Hin : t0 ∈ omap (λ ir : Z * RawRecord, date ir.2) df)
        by (apply list_elem_of_omap; eauto).
      rewrite Hs in Hin. by apply elem_of_nil in Hin. }
    destruct (min_list_spec t ts) as [Hmin_in Hmin_le].
    destruct (max_list_spec t ts) as [Hmax_in Hmax_le].
    exists (min_list t ts), (max_list t ts). eexists.
    rewrite <- Hs in Hmin_in, Hmax_in.
    apply list_elem_of_omap in Hmin_in as (imin & ? & ?).
    apply list_elem_of_omap in Hmax_in as (imax & ? & ?).
    split; [eauto|]. split; [eauto|].
    assert (Hbounds : ∀ ir t', ir ∈ df → date ir.2 = Some t' →
                               min_list t ts ≤ t' ≤ max_list t ts).
    { intros ir' t' Hin Hd.
      assert (Ht' : t' ∈ t :: ts) by (rewrite <- Hs; apply list_elem_of_omap; eauto).
      split; [by apply Hmin_le|by apply Hmax_le]. }
    split; [exact Hbounds|]. split; [reflexivity|]. cbn zeta.
    set (lo := Calendar.date_of (min_list t ts)).
    set (hi := Calendar.date_of (max_list t ts)).
    assert (Hlohi : lo ≤ hi).
    { apply date_of_mono. destruct (Hbounds ir t0 Hir Ht0). lia. }
    unfold date_range. fold lo hi.
    split; [unfold len; rewrite length_fmap, length_seqZ; lia|].
    split; [done|]. split; [|split; [|split]].
    + intros d Hd. exists (date_row d). split; [|done].
      apply list_elem_of_fmap_2, elem_of_seqZ. lia.
    + rewrite <- list_fmap_compose.
      apply NoDup_fmap_2_strong; [|apply NoDup_seqZ].
      intros d d' _ _ Heq. by apply midnight_inj.
    + intros r (d & -> & Hd%elem_of_seqZ)%list_elem_of_fmap.
      exists d. split; [lia|]. split; [done|]. split.
      * cbn [date_row DateDim.year DateDim.month DateDim.day].
        unfold Calendar.year, Calendar.month, Calendar.day.
        by destruct (Calendar.civil d) as [[??]?].
      * apply is_weekend_iso.
    + intros r (d & -> & _)%list_elem_of_fmap. apply is_weekend_iso_date.
Qed.

Lemma build_date_dimension_range_witness :
  build_date_dimension Sample.undated (Sample.config "mode" Sample.half) []
    = (inl NoValidDates, [])
  ∧ ∃ dim,
      build_date_dimension Sample.nine_days (Sample.config "mode" Sample.half) []
        = (inr dim, [])
      ∧ len dim = 9
      ∧ (λ r, (DateDim.year r, DateDim.month r, DateDim.day r, DateDim.is_weekend r))
          <$> dim
        = [(2025, 11, 2, true); (2025, 11, 3, false); (2025, 11, 4, false);
           (2025, 11, 5, false); (2025, 11, 6, false); (2025, 11, 7, false);
           (2025, 11, 8, true); (2025, 11, 9, true); (2025, 11, 10, false)]
      ∧ iso_weekday_of_date 2025 11 8 = 6 ∧ iso_weekday_of_date 2025 11 10 = 1.
Proof.
  destruct (build_date_dimension_range
              Sample.undated (Sample.config "mode" Sample.half) []) as [Hnone _].
  destruct (build_date_dimension_range
              Sample.nine_days (Sample.config "mode" Sample.half) []) as [_ Hsome].
  split.
  - apply Hnone. intros ir Hir.
    unfold Sample.undated in Hir. rewrite !elem_of_cons, elem_of_nil in Hir.
    destruct Hir as [->|[->|[]]]; reflexivity.
  - destruct Hsome as (lo & hi & dim & _ & _ & _ & Hrun & _).
    { exists (0, Sample.dated (Some 20394)). split; [by left|by eexists]. }
    exists dim. split; [exact Hrun|].
    vm_compute in Hrun. injection Hrun as <-. repeat split.
Defined.

(** ** The fact resolver *)

Section FactResolver.

Context {K : Type} `{EqDecision K}.

Lemma lookup_keys_spec (k : K) (right : list (K * Z)) (o : option Z) :
  o ∈ lookup_keys k right
  ↔ match o with Some z => (k, z) ∈ right | None => k ∉ right.*1 end.
Proof.
  unfold lookup_keys. pose proof (filter_key_nil k right) as Hnil.
  destruct (filter (λ kv, kv.1 = k) right) as [|m ms] eqn:Hf.
  - rewrite list_elem_of_singleton. destruct o as [z|].
    + split; [done|]. intros Hin. exfalso.
      apply (proj1 Hnil eq_refl). by apply (list_elem_of_fmap_2 fst) in Hin.
    + split; [intros _; by apply Hnil|done].
  - rewrite <- Hf. rewrite list_elem_of_fmap. destruct o as [z|].
    + split.
      * intros ([k' z'] & [= ->] & [Hk Hin]%list_elem_of_filter).
        cbn in Hk. by subst k'.
      * intros Hin. exists (k, z). split; [done|]. by apply list_elem_of_filter.
    + split; [by intros (? & ? & _)|].
      intros Hout. apply Hnil in Hout. discriminate Hout.
Qed.

Lemma elem_of_merge_left {L} (left : list L) (on : L → K) (right : list (K * Z))
    (x : L * option Z) :
  x ∈ merge_left left on right ↔ x.1 ∈ left ∧ x.2 ∈ lookup_keys (on x.1) right.
Proof.
  unfold merge_left. rewrite list_elem_of_bind. destruct x as [l o]. cbn [fst snd].
  split.
  - intros (l' & Hx & Hl'). unfold lookup_keys.
    destruct (filter (λ kv, kv.1 = on l') right) as [|m ms] eqn:Hf.
    + apply list_elem_of_singleton in Hx as [= -> ->]. rewrite Hf.
      split; [done|by left].
    + apply list_elem_of_fmap in Hx as (kv & [= -> ->] & Hkv). rewrite Hf.
      split; [done|]. by apply (list_elem_of_fmap_2 (λ kv : K * Z, Some kv.2)).
  - intros [Hl Ho]. exists l. split; [|done]. unfold lookup_keys in Ho.
    destruct (filter (λ kv, kv.1 = on l) right) as [|m ms].
    + apply list_elem_of_singleton in Ho as ->. by left.
    + apply list_elem_of_fmap in Ho as (kv & -> & Hkv).
      by apply (list_elem_of_fmap_2 (λ kv, (l, Some kv.2))).
Qed.

Lemma merge_left_app {L} (l1 l2 : list L) (on : L → K) (right : list (K * Z)) :
  merge_left (l1 ++ l2) on right = merge_left l1 on right ++ merge_left l2 on right.
Proof. unfold merge_left. apply bind_app. Qed.

Lemma lookup_keys_non_empty (k : K) (right : list (K * Z)) :
  lookup_keys k right ≠ [].
Proof.
  unfold lookup_keys. by destruct (filter (λ kv, kv.1 = k) right).
Qed.

End FactResolver.

Section FactResolverClaims.

Implicit Types (conn : Warehouse) (r : RawRecord) (j : Joined).

Lemma join_keys_app conn (l1 l2 : list RawRecord) :
  join_keys conn (l1 ++ l2) = join_keys conn l1 ++ join_keys conn l2.
Proof. unfold join_keys. by rewrite !merge_left_app, fmap_app. Qed.

Lemma build_fact_app conn (l1 l2 : list RawRecord) :
  build_fact conn (l1 ++ l2) = build_fact conn l1 ++ build_fact conn l2.
Proof. unfold build_fact. by rewrite join_keys_app, fmap_app, filter_app. Qed.

(** Each candidate is resolved on its own. *)
Lemma build_fact_bind conn (df : list RawRecord) :
  build_fact conn df = df ≫= λ r, build_fact conn [r].
Proof.
  induction df as [|r df IH]; [done|].
  change (r :: df) with ([r] ++ df).
  rewrite build_fact_app, bind_app, <- IH. f_equal.
  cbn [mbind list_bind]. by rewrite app_nil_r.
Qed.

Lemma date_key_spec conn r (z : Z) :
  (date r, z) ∈ (λ kr, (Some (DateDim.full_date kr.2), kr.1)) <$> dim_date conn
  ↔ ∃ kr, kr ∈ dim_date conn ∧ date r = Some (DateDim.full_date kr.2) ∧ kr.1 = z.
Proof.
  rewrite list_elem_of_fmap. split.
  - intros (kr & [= Hk Hz] & Hin). exists kr. by rewrite Hk, Hz.
  - intros (kr & Hin & Hk & Hz). exists kr. by rewrite Hk, Hz.
Qed.

Lemma item_key_spec conn r (z : Z) :
  (item_code r, z) ∈ (λ kr, (ItemDim.item_code kr.2, kr.1)) <$> dim_item conn
  ↔ ∃ kr, kr ∈ dim_item conn ∧ item_code r = ItemDim.item_code kr.2 ∧ kr.1 = z.
Proof.
  rewrite list_elem_of_fmap. split.
  - intros (kr & [= Hk Hz] & Hin). exists kr. by rewrite Hk, Hz.
  - intros (kr & Hin & Hk & Hz). exists kr. by rewrite Hk, Hz.
Qed.

Lemma buyer_key_spec conn r (z : Z) :
  (buyer_id r, z) ∈ (λ kr, (BuyerDim.buyer_id kr.2, kr.1)) <$> dim_buyer conn
  ↔ ∃ kr, kr ∈ dim_buyer conn ∧ buyer_id r = BuyerDim.buyer_id kr.2 ∧ kr.1 = z.
Proof.
  rewrite list_elem_of_fmap. split.
  - intros (kr & [= Hk Hz] & Hin). exists kr. by rewrite Hk, Hz.
  - intros (kr & Hin & Hk & Hz). exists kr. by rewrite Hk, Hz.
Qed.

(** The rows the three joins make of the candidates. *)
Lemma elem_of_join_keys conn (df : list RawRecord) j :
  j ∈ join_keys conn df ↔
    candidate j ∈ df
    ∧ j_date_key j ∈ lookup_keys (date (candidate j))
        ((λ kr, (Some (DateDim.full_date kr.2), kr.1)) <$> dim_date conn)
    ∧ j_item_key j ∈ lookup_keys (item_code (candidate j))
        ((λ kr, (ItemDim.item_code kr.2, kr.1)) <$> dim_item conn)
    ∧ j_buyer_key j ∈ lookup_keys (buyer_id (candidate j))
        ((λ kr, (BuyerDim.buyer_id kr.2, kr.1)) <$> dim_buyer conn).
Proof.
  unfold join_keys. rewrite list_elem_of_fmap. split.
  - intros ([[[r od] oi] ob] & -> & Hx). cbn [candidate j_date_key j_item_key j_buyer_key fst snd].
    apply elem_of_merge_left in Hx as [Hx Hb]. cbn [fst snd] in Hx, Hb.
    apply elem_of_merge_left in Hx as [Hx Hi]. cbn [fst snd] in Hx, Hi.
    apply elem_of_merge_left in Hx as [Hx Hd]. cbn [fst snd] in Hx, Hd.
    done.
  - intros (Hr & Hd & Hi & Hb). destruct j as [r od oi ob].
    cbn [candidate j_date_key j_item_key j_buyer_key] in *.
    exists (r, od, oi, ob). split; [done|].
    apply elem_of_merge_left. cbn [fst snd]. split; [|done].
    apply elem_of_merge_left. cbn [fst snd]. split; [|done].
    apply elem_of_merge_left. cbn [fst snd]. by split.
Qed.

End FactResolverClaims.

Section FactResolverTheorem.

Implicit Types (conn : Warehouse) (r : RawRecord) (j : Joined).

Lemma head_elem {A} (l : list A) : l ≠ [] → ∃ x, x ∈ l.
Proof. destruct l as [|x l]; [done|]. intros _. exists x. by left. Qed.

Lemma elem_non_empty {A} (l : list A) (x : A) : x ∈ l → l ≠ [].
Proof. intros Hx ->. by apply elem_of_nil in Hx. Qed.

Lemma joined_keys_resolve conn (df : list RawRecord) j :
  j ∈ join_keys conn df →
  missing_fk j = false ↔ keys_resolve conn (candidate j) ∧
    is_Some (j_date_key j) ∧ is_Some (j_item_key j) ∧ is_Some (j_buyer_key j).
Proof.
  intros (_ & Hd & Hi & Hb)%elem_of_join_keys.
  apply lookup_keys_spec in Hd, Hi, Hb.
  unfold missing_fk, keys_resolve. rewrite bool_decide_eq_false. split.
  - intros Hno.
    destruct (j_date_key j) as [kd|]; [|tauto].
    destruct (j_item_key j) as [ki|]; [|tauto].
    destruct (j_buyer_key j) as [kb|]; [|tauto].
    apply date_key_spec in Hd as (kr & ? & ? & _).
    apply item_key_spec in Hi as (kr' & ? & ? & _).
    apply buyer_key_spec in Hb as (kr'' & ? & ? & _).
    repeat split; eauto.
  - intros (_ & [? Hd'] & [? Hi'] & [? Hb']). rewrite Hd', Hi', Hb'.
    intros [?|[?|?]]; done.
Qed.

Lemma missing_key_unresolved conn (df : list RawRecord) j :
  j ∈ join_keys conn df → missing_fk j = true → ¬ keys_resolve conn (candidate j).
Proof.
  intros (_ & Hd & Hi & Hb)%elem_of_join_keys.
  apply lookup_keys_spec in Hd, Hi, Hb.
  unfold missing_fk, keys_resolve. rewrite bool_decide_eq_true.
  intros [Hn|[Hn|Hn]]; rewrite Hn in *;
    intros ((kd & Hkd & Hdk) & (ki & Hki & Hik) & (kb & Hkb & Hbk)).
  - apply Hd. apply (list_elem_of_fmap_2 fst) in Hkd as Hin.
    rewrite <- list_fmap_compose. rewrite Hdk.
    by apply (list_elem_of_fmap_2
                (fst ∘ (λ kr : Z * DateDim.row, (Some (DateDim.full_date kr.2), kr.1)))) in Hkd.
  - apply Hi. rewrite <- list_fmap_compose. rewrite Hik.
    by apply (list_elem_of_fmap_2
                (fst ∘ (λ kr : Z * ItemDim.row, (ItemDim.item_code kr.2, kr.1)))) in Hki.
  - apply Hb. rewrite <- list_fmap_compose. rewrite Hbk.
    by apply (list_elem_of_fmap_2
                (fst ∘ (λ kr : Z * BuyerDim.row, (BuyerDim.buyer_id kr.2, kr.1)))) in Hkb.
Qed.

Lemma elem_of_build_fact conn (df : list RawRecord) (f : Fact.row) :
  f ∈ build_fact conn df ↔
    ∃ j, j ∈ join_keys conn df ∧ f = fact_row j ∧ missing_fk j = false
         ∧ is_Some (transaction_id (candidate j)).
Proof.
  unfold build_fact. rewrite list_elem_of_filter, list_elem_of_fmap.
  unfold fact_complete, missing_fk. split.
  - intros (Hc & j & -> & Hj). exists j. split; [done|]. split; [done|].
    apply bool_decide_unpack in Hc as (Hd & Hi & Hb & Ht).
    cbn [fact_row Fact.date_key Fact.item_key Fact.buyer_key Fact.transaction_id] in *.
    split; [|done]. apply bool_decide_eq_false.
    destruct Hd as [? Hd], Hi as [? Hi], Hb as [? Hb]. rewrite Hd, Hi, Hb.
    intros [?|[?|?]]; done.
  - intros (j & Hj & -> & Hm & Ht). split; [|eauto].
    apply bool_decide_pack. apply bool_decide_eq_false in Hm.
    cbn [fact_row Fact.date_key Fact.item_key Fact.buyer_key Fact.transaction_id].
    destruct (j_date_key j), (j_item_key j), (j_buyer_key j); try tauto.
    repeat split; eauto.
Qed.

(** A candidate yields a fact row exactly when its three keys are found
    and it has a transaction identifier. *)
Lemma build_fact_resolves conn r : build_fact conn [r] ≠ [] ↔ resolves conn r.
Proof.
  split.
  - intros (f & Hf)%head_elem.
    apply elem_of_build_fact in Hf as (j & Hj & -> & Hm & Ht).
    pose proof Hj as (Hr%list_elem_of_singleton & _)%elem_of_join_keys.
    apply (joined_keys_resolve conn [r] j Hj) in Hm as ((Hd & Hi & Hb) & _).
    rewrite Hr in *. by repeat split.
  - intros ((kd & Hkd & Hd) & (ki & Hki & Hi) & (kb & Hkb & Hb) & Ht).
    set (j := {| candidate := r; j_date_key := Some kd.1;
                 j_item_key := Some ki.1; j_buyer_key := Some kb.1 |}).
    apply (elem_non_empty _ (fact_row j)), elem_of_build_fact. exists j.
    split; [|split; [done|split; [|done]]].
    + apply elem_of_join_keys. cbn [j candidate j_date_key j_item_key j_buyer_key].
      split; [by left|]. rewrite !lookup_keys_spec.
      split; [apply date_key_spec; eauto|].
      split; [apply item_key_spec; eauto|apply buyer_key_spec; eauto].
    + apply bool_decide_eq_false. cbn. intros [?|[?|?]]; done.
Qed.

End FactResolverTheorem.

(** C7. [load_fact_sales] never raises, whatever the number of dropped
    rows: it appends the resolved fact rows to [fact_sales], after the rows
    already there, and leaves the dimensions as they are.  Every validated
    candidate is resolved on its own; it yields a fact row exactly when its
    [full_date], [item_code] and [buyer_id] are each found among the
    persisted dimension rows and its [transaction_id] is not null, and each
    fact row carries surrogate keys of matching dimension rows.  So a
    candidate has a row among the appended ones exactly when it resolves.
    The rows lacking a key after the joins are counted in one warning,
    emitted when there is such a row. *)
Theorem load_fact_sales_resolution
    (df : Frame RawRecord) (conn : Warehouse) (cfg : Config) (log : list LogRecord) :
  let missing := filter (λ j, missing_fk j) (join_keys conn df.*2) in
  ∃ facts conn',
    load_fact_sales df conn cfg log
      = (inr conn',
         log ++ fk_warning missing
             ++ [(INFO, FactRowCount (len facts)); (INFO, LoadedFactSales)])
    ∧ fact_sales conn' = fact_sales conn ++ facts
    ∧ dim_date conn' = dim_date conn
    ∧ dim_item conn' = dim_item conn
    ∧ dim_buyer conn' = dim_buyer conn
    ∧ facts = (df.*2 ≫= λ r, build_fact conn [r])
    ∧ (∀ r, r ∈ df.*2 → resolves conn r ↔ ∃ f, f ∈ facts ∧ f ∈ build_fact conn [r])
    ∧ (∀ r, build_fact conn [r] ≠ [] ↔ resolves conn r)
    ∧ (∀ r f, f ∈ build_fact conn [r] →
         (∃ kr, kr ∈ dim_date conn ∧ date r = Some (DateDim.full_date kr.2)
                ∧ Fact.date_key f = Some kr.1)
         ∧ (∃ kr, kr ∈ dim_item conn ∧ item_code r = ItemDim.item_code kr.2
                  ∧ Fact.item_key f = Some kr.1)
         ∧ (∃ kr, kr ∈ dim_buyer conn ∧ buyer_id r = BuyerDim.buyer_id kr.2
                  ∧ Fact.buyer_key f = Some kr.1)
         ∧ is_Some (Fact.transaction_id f)
         ∧ f = fact_row {| candidate := r; j_date_key := Fact.date_key f;
                           j_item_key := Fact.item_key f;
                           j_buyer_key := Fact.buyer_key f |})
    ∧ (missing ≠ [] ↔ ∃ r, r ∈ df.*2 ∧ ¬ keys_resolve conn r)
    ∧ (∀ j, j ∈ missing → candidate j ∈ df.*2 ∧ ¬ keys_resolve conn (candidate j)).
Proof.
  cbn zeta. rewrite load_fact_sales_run.
  exists (build_fact conn df.*2), (append_fact_sales conn (build_fact conn df.*2)).
  split; [reflexivity|]. do 4 (split; [reflexivity|]).
  split; [apply build_fact_bind|].
  split; [|split; [apply build_fact_resolves|split; [|split]]].
  - intros r Hr. rewrite <- build_fact_resolves. split.
    + intros (f & Hf)%head_elem. exists f. split; [|done].
      rewrite build_fact_bind. apply list_elem_of_bind. by exists r.
    + intros (f & _ & Hf). by apply (elem_non_empty _ f).
  - intros r f (j & Hj & -> & Hm & Ht)%elem_of_build_fact.
    pose proof Hj as (Hr%list_elem_of_singleton & Hd & Hi & Hb)%elem_of_join_keys.
    apply (joined_keys_resolve conn [r] j Hj) in Hm as (_ & [kd Hkd] & [ki Hki] & [kb Hkb]).
    rewrite Hkd in Hd. rewrite Hki in Hi. rewrite Hkb in Hb.
    apply lookup_keys_spec in Hd, Hi, Hb.
    apply date_key_spec in Hd as (kr & ? & ? & <-).
    apply item_key_spec in Hi as (kr' & ? & ? & <-).
    apply buyer_key_spec in Hb as (kr'' & ? & ? & <-).
    destruct j as [c od oi ob].
    cbn [candidate j_date_key j_item_key j_buyer_key] in *. subst c od oi ob.
    cbn [fact_row candidate j_date_key j_item_key j_buyer_key
           Fact.date_key Fact.item_key Fact.buyer_key Fact.transaction_id].
    split; [eauto|]. split; [eauto|]. split; [eauto|]. split; done.
  - split.
    + intros (j & Hj)%head_elem. apply list_elem_of_filter in Hj as [Hm Hj].
      apply Is_true_true in Hm. exists (candidate j). split.
      * by apply elem_of_join_keys in Hj as [? _].
      * by apply (missing_key_unresolved conn df.*2 j).
    + intros (r & Hr & Hno).
      destruct (head_elem _ (lookup_keys_non_empty (date r)
        ((λ kr, (Some (DateDim.full_date kr.2), kr.1)) <$> dim_date conn))) as [od Hod].
      destruct (head_elem _ (lookup_keys_non_empty (item_code r)
        ((λ kr, (ItemDim.item_code kr.2, kr.1)) <$> dim_item conn))) as [oi Hoi].
      destruct (head_elem _ (lookup_keys_non_empty (buyer_id r)
        ((λ kr, (BuyerDim.buyer_id kr.2, kr.1)) <$> dim_buyer conn))) as [ob Hob].
      set (j := {| candidate := r; j_date_key := od;
                   j_item_key := oi; j_buyer_key := ob |}).
      assert (Hj : j ∈ join_keys conn df.*2) by (by apply elem_of_join_keys).
      apply (elem_non_empty _ j), list_elem_of_filter. split; [|done].
      destruct (missing_fk j) eqn:Hm; [done|]. exfalso.
      by apply (joined_keys_resolve conn df.*2 j Hj) in Hm as [? _].
  - intros j [Hm Hj]%list_elem_of_filter. apply Is_true_true in Hm. split.
    + by apply elem_of_join_keys in Hj as [? _].
    + by apply (missing_key_unresolved conn df.*2 j).
Qed.

(** ** Identifier cleaning *)

Section Identifiers.

Lemma parse_digits_snoc (s : list N) (c : N) :
  parse_digits (s ++ [c]) = 10 * parse_digits s + (Z.of_N c - 48).
Proof. unfold parse_digits. by rewrite foldl_app. Qed.

Lemma digit_values_strip (s : list N) :
  digit_values s = (λ c, Z.of_N c - 48) <$> strip_non_digits s.
Proof.
  unfold digit_values, strip_non_digits.
  induction s as [|c s IH]; [done|].
  cbn [omap list_omap]. rewrite filter_cons.
  destruct (is_digit c); cbn [Is_true].
  - destruct (decide True) as [_|[]]; [|done]. by rewrite fmap_cons, IH.
  - destruct (decide False) as [[]|_]. exact IH.
Qed.

Lemma decimal_snoc (ds : list Z) (d : Z) :
  decimal (ds ++ [d]) = 10 * decimal ds + d.
Proof.
  induction ds as [|x ds IH]; [cbn; lia|].
  cbn [app decimal]. rewrite IH, length_app. cbn [length].
  replace (Z.of_nat (length ds + 1)) with (Z.succ (Z.of_nat (length ds))) by lia.
  rewrite Z.pow_succ_r by lia. lia.
Qed.

(** Horner's rule computes the positional value. *)
Lemma parse_digits_decimal (s : list N) :
  parse_digits s = decimal ((λ c, Z.of_N c - 48) <$> s).
Proof.
  induction s as [|c s IH] using rev_ind; [done|].
  rewrite parse_digits_snoc, fmap_app, IH.
  exact (eq_sym (decimal_snoc _ _)).
Qed.

Lemma clean_id_stripped_and_parsed (cell : option (list N)) :
  clean_id cell = stripped_and_parsed cell.
Proof.
  unfold clean_id, stripped_and_parsed. destruct cell as [s|]; [|done].
  cbn [mbind option_bind]. rewrite digit_values_strip.
  destruct (decide (strip_non_digits s = [])) as [->|Hne]; [done|].
  rewrite parse_digits_decimal.
  by destruct (strip_non_digits s).
Qed.

Lemma digit_values_none (s : list N) :
  (∀ c, c ∈ s → is_digit c = false) → digit_values s = [].
Proof.
  unfold digit_values. induction s as [|c s IH]; [done|]. intros Hno.
  cbn [omap list_omap]. rewrite (Hno c) by (by left).
  apply IH. intros ??. apply Hno. by right.
Qed.

End Identifiers.

(** C9, as the code has it: when the digits of every identifier of a
    column denote a value that fits [Int64], every cell becomes the
    integer obtained by stripping the non-digit characters and parsing
    what is left, and a cell with no digit becomes absent, not zero. *)
Theorem clean_id_column_parses (col : list (option PyStr)) :
  (∀ cell z, cell ∈ col → stripped_and_parsed cell = Some z → z ≤ int64_max) →
  clean_id_column col = Int64Column (stripped_and_parsed <$> col)
  ∧ ∀ s, Some s ∈ col → (∀ c, c ∈ s → is_digit c = false) →
         stripped_and_parsed (Some s) = None.
Proof.
  intros Hfit. split.
  - unfold clean_id_column.
    rewrite (list_fmap_ext clean_id stripped_and_parsed col)
      by (intros; apply clean_id_stripped_and_parsed).
    destruct (decide _) as [_|Hbad]; [done|]. exfalso. apply Hbad.
    apply Forall_fmap, Forall_forall. intros cell Hcell. cbn.
    destruct (stripped_and_parsed cell) as [z|] eqn:Hz; cbn [default].
    + by apply (Hfit cell).
    + unfold int64_max. lia.
  - intros s _ Hno. unfold stripped_and_parsed. cbn [mbind option_bind].
    by rewrite digit_values_none.
Qed.

Lemma clean_id_column_parses_witness :
  clean_id_column Sample.id_cells = Int64Column [Some 123; None; None; Some 7].
Proof.
  refine (proj1 (clean_id_column_parses Sample.id_cells _)).
  intros cell z Hcell. unfold Sample.id_cells in Hcell.
  rewrite !elem_of_cons, elem_of_nil in Hcell.
  destruct Hcell as [->|[->|[->|[->|[]]]]]; intros Hz; vm_compute in Hz;
    try discriminate Hz; injection Hz as <-; unfold int64_max; lia.
Defined.

(** C9 as stated fails on an identifier whose digits denote [2 ^ 63]:
    the parsed integer is above [int64_max], so the cleaned column does
    not hold it. *)
Lemma clean_id_column_wide :
  stripped_and_parsed (Some Sample.wide_id) = Some (2 ^ 63)
  ∧ clean_id_column [Some Sample.wide_id] = Int64OutOfRange.
Proof. split; vm_compute; reflexivity. Qed.

(** ** The canonicalizer *)

Section Canonicalizer.

#[local] Open Scope N_scope.

Ltac ndecide :=
  repeat first
    [ match goal with
      | |- context [?a <? ?b] => destruct (N.ltb_spec a b); try (exfalso; lia)
      | |- context [?a <=? ?b] => destruct (N.leb_spec a b); try (exfalso; lia)
      | |- context [?a =? ?b] => destruct (N.eqb_spec a b); try (exfalso; lia)
      end ].

Lemma isspace_letter (c : N) : 33 ≤ c < 128 → Str.isspace c = false.
Proof. intros Hc. unfold Str.isspace. ndecide. reflexivity. Qed.

Lemma isspace_space : Str.isspace Str.space = true.
Proof. reflexivity. Qed.

(** On ASCII each case mapping yields one code point; it keeps whitespace
    in place, keeps casedness, and maps its own image to itself. *)
Lemma ascii_case_step (p : bool) (c : N) :
  c < 128 →
  ∃ x, (if p then Str.to_lower_full c else Str.to_title_full c) = [x]
       ∧ x < 128
       ∧ Str.isspace x = Str.isspace c
       ∧ (Str.isspace c = true → x = c)
       ∧ Str.is_cased x = Str.is_cased c
       ∧ (if p then Str.to_lower_full x else Str.to_title_full x) = [x].
Proof.
  intros Hc.
  destruct (decide (65 ≤ c ≤ 90)) as [Hup|Hnup];
    [|destruct (decide (97 ≤ c ≤ 122)) as [Hlo|Hnlo]].
  - assert (Hs : Str.isspace c = false) by (apply isspace_letter; lia).
    destruct p.
    + exists (c + 32).
      assert (Hs' : Str.isspace (c + 32) = false) by (apply isspace_letter; lia).
      rewrite Hs, Hs'.
      unfold Str.to_lower_full, Str.is_cased, Str.is_ascii_upper, Str.is_ascii_lower.
      ndecide; cbn; repeat split; try done; lia.
    + exists c. rewrite Hs.
      unfold Str.to_title_full, Str.is_cased, Str.is_ascii_upper, Str.is_ascii_lower.
      ndecide; cbn; repeat split; try done; lia.
  - assert (Hs : Str.isspace c = false) by (apply isspace_letter; lia).
    destruct p.
    + exists c. rewrite Hs.
      unfold Str.to_lower_full, Str.is_cased, Str.is_ascii_upper, Str.is_ascii_lower.
      ndecide; cbn; repeat split; try done; lia.
    + exists (c - 32).
      assert (Hs' : Str.isspace (c - 32) = false) by (apply isspace_letter; lia).
      rewrite Hs, Hs'.
      unfold Str.to_title_full, Str.is_cased, Str.is_ascii_upper, Str.is_ascii_lower.
      ndecide; cbn; repeat split; try done; lia.
  - exists c.
    destruct p;
      unfold Str.to_lower_full, Str.to_title_full, Str.is_cased,
        Str.is_ascii_upper, Str.is_ascii_lower;
      ndecide; cbn; repeat split; try done; lia.
Qed.

Lemma title_from_spaced (p q : bool) (s : list N) :
  ascii s → spaced_from q (Str.title_from p s) = spaced_from q s.
Proof.
  intros Ha. revert p q. induction Ha as [|c s Hc _ IH]; intros p q; [done|].
  cbn [Str.title_from].
  destruct (ascii_case_step p c Hc) as (x & -> & _ & Hsx & Hfix & _ & _).
  cbn [app spaced_from]. rewrite Hsx, !IH.
  destruct (Str.isspace c); [|done]. by rewrite Hfix.
Qed.

Lemma title_from_idem (p : bool) (s : list N) :
  ascii s → Str.title_from p (Str.title_from p s) = Str.title_from p s.
Proof.
  intros Ha. revert p. induction Ha as [|c s Hc _ IH]; intros p; [done|].
  cbn [Str.title_from].
  destruct (ascii_case_step p c Hc) as (x & -> & _ & _ & _ & Hcx & Himg).
  cbn [app Str.title_from]. by rewrite Himg, Hcx, IH.
Qed.

Lemma title_tidy (s : list N) : ascii s → tidy (Str.title s) = tidy s.
Proof.
  intros Ha. unfold tidy, Str.title.
  pose proof (title_from_spaced false true s Ha) as Hsp.
  destruct s as [|c s]; [done|].
  inversion Ha as [|? ? Hc _]; subst.
  cbn [Str.title_from] in *.
  destruct (ascii_case_step false c Hc) as (x & Hx & _).
  rewrite Hx in *. exact Hsp.
Qed.

Lemma spaced_collapse_fixed (p : bool) (s : list N) :
  spaced_from p s = true → Str.collapse_from p s = s.
Proof.
  revert p. induction s as [|c s IH]; intros p; [done|].
  cbn [spaced_from Str.collapse_from]. destruct (Str.isspace c).
  - destruct p; [done|]. cbn [negb andb].
    destruct (N.eqb_spec c Str.space) as [->|]; [|done].
    intros Hs. by rewrite IH.
  - intros Hs. by rewrite IH.
Qed.

Lemma tidy_lstrip (s : list N) : tidy s = true → Str.lstrip s = s.
Proof.
  destruct s as [|c s]; [done|]. cbn [tidy spaced_from Str.lstrip].
  by destruct (Str.isspace c).
Qed.

Lemma tidy_collapse (s : list N) : tidy s = true → Str.collapse_ws s = s.
Proof.
  destruct s as [|c s]; [done|].
  unfold Str.collapse_ws. cbn [tidy spaced_from Str.collapse_from].
  destruct (Str.isspace c); [done|]. intros Hs. by rewrite spaced_collapse_fixed.
Qed.

Lemma spaced_ends (p : bool) (s : list N) :
  spaced_from p s = true → s ≠ [] → ends_nonspace s.
Proof.
  revert p. induction s as [|c s IH]; intros p Hs Hne; [done|]. clear Hne.
  destruct s as [|c' s].
  - exists [], c. split; [done|]. cbn in Hs.
    destruct (Str.isspace c); [|done].
    by rewrite andb_false_r in Hs.
  - assert (Hrest : ∃ q, spaced_from q (c' :: s) = true).
    { cbn [spaced_from] in Hs. destruct (Str.isspace c).
      - apply andb_true_iff in Hs as [_ Hs]. by exists true.
      - by exists false. }
    destruct Hrest as [q Hq].
    destruct (IH q Hq) as (s0 & x & -> & Hx); [done|].
    exists (c :: s0), x. by rewrite Hx.
Qed.

Lemma lstrip_nonspace (c : N) (s : list N) :
  Str.isspace c = false → Str.lstrip (c :: s) = c :: s.
Proof. intros Hc. cbn. by rewrite Hc. Qed.

Lemma ends_rstrip (s : list N) : ends_nonspace s → Str.rstrip s = s.
Proof.
  intros (s0 & c & -> & Hc). unfold Str.rstrip.
  rewrite reverse_snoc, lstrip_nonspace by done.
  by rewrite reverse_cons, reverse_involutive.
Qed.

Lemma tidy_strip (s : list N) : tidy s = true → Str.strip s = s.
Proof.
  intros Ht. unfold Str.strip. rewrite tidy_lstrip by done.
  destruct s as [|c s]; [done|]. apply ends_rstrip.
  by apply (spaced_ends true).
Qed.

Lemma lstrip_head (s : list N) :
  Str.lstrip s = [] ∨ ∃ c s', Str.lstrip s = c :: s' ∧ Str.isspace c = false.
Proof.
  induction s as [|c s IH]; [by left|]. cbn.
  destruct (Str.isspace c) eqn:Hc; [done|]. right. by exists c, s.
Qed.

Lemma lstrip_snoc (s : list N) (c : N) :
  Str.isspace c = false → Str.lstrip (s ++ [c]) = Str.lstrip s ++ [c].
Proof.
  intros Hc. induction s as [|x s IH]; cbn; [by rewrite Hc|].
  by destruct (Str.isspace x).
Qed.

(** After [strip] a string is empty, or starts and ends off whitespace. *)
Lemma strip_shape (s : list N) :
  Str.strip s = []
  ∨ ∃ c s', Str.strip s = c :: s' ∧ Str.isspace c = false
            ∧ ends_nonspace (c :: s').
Proof.
  unfold Str.strip. destruct (lstrip_head s) as [->|(c & s' & -> & Hc)]; [by left|].
  right. unfold Str.rstrip. rewrite reverse_cons, lstrip_snoc by done.
  rewrite reverse_snoc. exists c, (reverse (Str.lstrip (reverse s'))).
  split; [done|]. split; [done|].
  destruct (lstrip_head (reverse s')) as [->|(x & r & -> & Hx)].
  - by exists [], c.
  - rewrite reverse_cons. exists (c :: reverse r), x. by split.
Qed.

Lemma collapse_from_cons (p : bool) (c : N) (s : list N) :
  Str.collapse_from p (c :: s)
  = if Str.isspace c
    then (if p then Str.collapse_from true s else Str.space :: Str.collapse_from true s)
    else c :: Str.collapse_from false s.
Proof. reflexivity. Qed.

Lemma spaced_from_cons (p : bool) (c : N) (s : list N) :
  spaced_from p (c :: s)
  = if Str.isspace c
    then negb p && (c =? Str.space) && spaced_from true s
    else spaced_from false s.
Proof. reflexivity. Qed.

Lemma collapse_spaced (p : bool) (s : list N) :
  ends_nonspace s → spaced_from p (Str.collapse_from p s) = true.
Proof.
  revert p. induction s as [|c s IH]; intros p (s0 & x & Hs & Hx).
  { by destruct s0. }
  destruct s as [|c' s].
  - destruct s0 as [|y s0]; cbn in Hs.
    + injection Hs as ->. rewrite collapse_from_cons, Hx.
      by rewrite spaced_from_cons, Hx.
    + injection Hs as _ Hs. by destruct s0.
  - assert (Hrest : ends_nonspace (c' :: s)).
    { destruct s0 as [|y s0]; [done|]. injection Hs as _ Hs. by exists s0, x. }
    rewrite collapse_from_cons. destruct (Str.isspace c) eqn:Hc.
    + destruct p; [by apply IH|].
      rewrite spaced_from_cons, isspace_space, (IH true Hrest). done.
    + rewrite spaced_from_cons, Hc. by apply IH.
Qed.

Lemma collapse_strip_tidy (s : list N) :
  tidy (Str.collapse_ws (Str.strip s)) = true.
Proof.
  destruct (strip_shape s) as [->|(c & s' & -> & Hc & Hends)]; [done|].
  pose proof (collapse_spaced false _ Hends) as Hsp.
  unfold Str.collapse_ws. cbn [Str.collapse_from] in *. rewrite Hc in *.
  cbn [tidy spaced_from] in *. by rewrite Hc in *.
Qed.

Lemma ascii_lstrip (s : list N) : ascii s → ascii (Str.lstrip s).
Proof.
  unfold ascii. induction 1 as [|c s Hc Hs IH]; [done|]. cbn.
  destruct (Str.isspace c); [done|by constructor].
Qed.

Lemma ascii_strip (s : list N) : ascii s → ascii (Str.strip s).
Proof.
  intros Ha. unfold Str.strip, Str.rstrip.
  apply Forall_reverse, ascii_lstrip, Forall_reverse, ascii_lstrip, Ha.
Qed.

Lemma ascii_collapse (p : bool) (s : list N) : ascii s → ascii (Str.collapse_from p s).
Proof.
  unfold ascii. intros Ha. revert p.
  induction Ha as [|c s Hc Hs IH]; intros p; [done|]. cbn.
  destruct (Str.isspace c); [destruct p|]; try constructor; try done; apply IH.
Qed.

End Canonicalizer.

(** C8, as the code has it: on a string of ASCII code points the
    canonicalization (strip, collapse whitespace runs to one space,
    title-case) is idempotent. *)
Theorem canon_str_idempotent_ascii (s : PyStr) :
  ascii s →
  canon_str (canon_str s) = canon_str s
  ∧ canon_cell (canon_cell (Some s)) = canon_cell (Some s).
Proof.
  intros Ha.
  assert (Hidem : canon_str (canon_str s) = canon_str s).
  { unfold canon_str.
    set (y := Str.collapse_ws (Str.strip s)).
    assert (Hy : ascii y) by (apply ascii_collapse, ascii_strip, Ha).
    assert (Ht : tidy (Str.title y) = true)
      by (rewrite title_tidy by done; apply collapse_strip_tidy).
    rewrite (tidy_strip _ Ht), (tidy_collapse _ Ht).
    by apply title_from_idem. }
  split; [done|]. cbn. by rewrite Hidem.
Qed.

Lemma canon_str_idempotent_ascii_witness :
  canon_str (canon_str Sample.home_appliances) = canon_str Sample.home_appliances.
Proof.
  refine (proj1 (canon_str_idempotent_ascii Sample.home_appliances _)).
  unfold ascii, Sample.home_appliances. repeat constructor.
Defined.

(** C8 as stated fails outside ASCII: "aİb" becomes "Ai̇b", whose
    lowercased İ leaves an uncased combining dot before the b, and a
    second pass gives "Ai̇B". *)
Lemma canon_str_dotted_i :
  canon_str Sample.dotted_i = [65; 105; 775; 98]%N
  ∧ canon_str (canon_str Sample.dotted_i) = [65; 105; 775; 66]%N.
Proof. split; vm_compute; reflexivity. Qed.

(** ** The correctly rounded quotient *)

Section TrueDivide.

Lemma fexp_binary64 (e : Z) : fexp prec emax e = Z.max (e - 53) (-1074).
Proof. reflexivity. Qed.

Lemma digits2_pos_bounds (p : positive) :
  2 ^ (Z.pos (digits2_pos p) - 1) ≤ Z.pos p < 2 ^ Z.pos (digits2_pos p).
Proof.
  induction p as [p IH|p IH|]; cbn [digits2_pos].
  - rewrite Pos2Z.inj_succ, Z.pow_succ_r by lia.
    replace (Z.succ (Z.pos (digits2_pos p)) - 1) with (Z.succ (Z.pos (digits2_pos p) - 1)) by lia.
    rewrite Z.pow_succ_r by lia. lia.
  - rewrite Pos2Z.inj_succ, Z.pow_succ_r by lia.
    replace (Z.succ (Z.pos (digits2_pos p)) - 1) with (Z.succ (Z.pos (digits2_pos p) - 1)) by lia.
    rewrite Z.pow_succ_r by lia. lia.
  - cbn. lia.
Qed.

Lemma Zdigits2_bounds (q : Z) :
  0 < q → 0 < Zdigits2 q ∧ 2 ^ (Zdigits2 q - 1) ≤ q < 2 ^ Zdigits2 q.
Proof.
  destruct q as [|p|p]; try lia. intros _. cbn [Zdigits2].
  split; [lia|apply digits2_pos_bounds].
Qed.

Lemma Zdigits2_le (q k : Z) : 0 ≤ q < 2 ^ k → 0 ≤ k → Zdigits2 q ≤ k.
Proof.
  intros [Hq0 Hq] Hk. destruct (decide (q = 0)) as [->|Hne]; [done|].
  destruct (Zdigits2_bounds q) as (Hd & Hlo & _); [lia|].
  destruct (decide (Zdigits2 q ≤ k)) as [|Hgt]; [done|]. exfalso.
  assert (2 ^ k ≤ 2 ^ (Zdigits2 q - 1)) by (apply Z.pow_le_mono_r; lia). lia.
Qed.

Lemma Zdigits2_ge (q k : Z) : 2 ^ (k - 1) ≤ q → 0 < k → k ≤ Zdigits2 q.
Proof.
  intros Hq Hk.
  assert (0 < 2 ^ (k - 1)) by (apply Z.pow_pos_nonneg; lia).
  destruct (Zdigits2_bounds q) as (Hd & _ & Hhi); [lia|].
  destruct (decide (k ≤ Zdigits2 q)) as [|Hlt]; [done|]. exfalso.
  assert (2 ^ Zdigits2 q ≤ 2 ^ (k - 1)) by (apply Z.pow_le_mono_r; lia). lia.
Qed.


Lemma new_location_compare (n r : Z) :
  0 < n → 0 ≤ r < n →
  new_location n r = if decide (r = 0) then loc_Exact else loc_Inexact (2 * r ?= n).
Proof.
  intros Hn Hr. unfold new_location, new_location_even, new_location_odd.
  destruct (Z.even n) eqn:Heven.
  - destruct (Z.eqb_spec r 0), (decide (r = 0)); done.
  - destruct (Z.eqb_spec r 0), (decide (r = 0)); try done. f_equal.
    assert (Hodd : Z.odd n = true) by (rewrite <- Z.negb_even, Heven; done).
    apply Z.odd_spec in Hodd as [k Hk].
    destruct (Z.compare_spec (2 * r + 1) n), (Z.compare_spec (2 * r) n); try done; lia.
Qed.

Lemma loc_rank_bounds (l : location) : 0 ≤ loc_rank l ≤ 3.
Proof. destruct l as [|[]]; cbn; lia. Qed.

Lemma loc_rank_mono (n r r' : Z) :
  0 < n → 0 ≤ r ≤ r' → r' < n →
  loc_rank (new_location n r) ≤ loc_rank (new_location n r').
Proof.
  intros Hn Hr Hr'. rewrite !new_location_compare by lia.
  destruct (decide (r = 0)), (decide (r' = 0)); cbn [loc_rank]; try lia.
  - destruct (2 * r' ?= n); lia.
  - destruct (Z.compare_spec (2 * r) n), (Z.compare_spec (2 * r') n); lia.
Qed.

(** The cut quotient grows with the dividend, position included. *)
Lemma quotient_at_mono (a b n E : Z) :
  0 < n → 0 ≤ a ≤ b → E ≤ 0 →
  4 * (quotient_at a n E).1 + loc_rank (quotient_at a n E).2
  ≤ 4 * (quotient_at b n E).1 + loc_rank (quotient_at b n E).2.
Proof.
  intros Hn Hab HE. unfold quotient_at. cbn [fst snd].
  assert (Hp : 0 < 2 ^ (- E)) by (apply Z.pow_pos_nonneg; lia).
  set (x := a * 2 ^ (- E)). set (y := b * 2 ^ (- E)).
  assert (Hxy : 0 ≤ x ≤ y) by (unfold x, y; nia).
  pose proof (Z.div_le_mono x y n Hn (proj2 Hxy)) as Hq.
  pose proof (Z.div_mod x n ltac:(lia)) as Hx.
  pose proof (Z.div_mod y n ltac:(lia)) as Hy.
  pose proof (Z.mod_pos_bound x n Hn) as Hrx.
  pose proof (Z.mod_pos_bound y n Hn) as Hry.
  pose proof (loc_rank_bounds (new_location n (x `mod` n))).
  pose proof (loc_rank_bounds (new_location n (y `mod` n))).
  destruct (decide (x `div` n = y `div` n)) as [Heq|Hne]; [|lia].
  rewrite Heq. apply Z.add_le_mono_l, loc_rank_mono; [done| |lia].
  rewrite Heq in Hx. split; [lia|]. nia.
Qed.

Lemma round_nearest_even_mono (m m' : Z) (l l' : location) :
  4 * m + loc_rank l ≤ 4 * m' + loc_rank l' →
  round_nearest_even m l ≤ round_nearest_even m' l'.
Proof.
  intros Hr.
  assert (Hm : round_nearest_even m l = m ∨ round_nearest_even m l = m + 1)
    by (destruct l as [|[]]; cbn; try destruct (Z.even m); lia).
  assert (Hm' : round_nearest_even m' l' = m' ∨ round_nearest_even m' l' = m' + 1)
    by (destruct l' as [|[]]; cbn; try destruct (Z.even m'); lia).
  pose proof (loc_rank_bounds l). pose proof (loc_rank_bounds l').
  destruct (decide (m = m')) as [<-|Hne]; [|lia].
  destruct l as [|[]], l' as [|[]]; cbn in *; try destruct (Z.even m); lia.
Qed.

Lemma shr_1_halves (m : Z) (r s : bool) :
  0 ≤ m →
  shr_1 {| shr_m := m; shr_r := r; shr_s := s |}
  = {| shr_m := m `div` 2; shr_r := Z.odd m; shr_s := r || s |}.
Proof.
  intros Hm. destruct m as [|[p|p|]|]; try lia; cbn [shr_1 Z.odd].
  - done.
  - f_equal. rewrite Pos2Z.inj_xI. apply (Z.div_unique _ _ _ 1); lia.
  - f_equal. rewrite Pos2Z.inj_xO. apply (Z.div_unique _ _ _ 0); lia.
  - done.
Qed.

Lemma shr_record_of_loc_m (m : Z) (l : location) : shr_m (shr_record_of_loc m l) = m.
Proof. by destruct l as [|[]]. Qed.

Lemma loc_of_shr_record_of_loc (m : Z) (l : location) :
  loc_of_shr_record (shr_record_of_loc m l) = l.
Proof. by destruct l as [|[]]. Qed.

(** One right shift of the cut quotient is the quotient cut one binary
    place higher. *)
Lemma shr_1_quotient (x n : Z) :
  0 ≤ x → 0 < n →
  shr_1 (shr_record_of_loc ((2 * x) `div` n) (new_location n ((2 * x) `mod` n)))
  = shr_record_of_loc (x `div` n) (new_location n (x `mod` n)).
Proof.
  intros Hx Hn.
  pose proof (Z.div_mod x n ltac:(lia)) as Hdm.
  pose proof (Z.mod_pos_bound x n Hn) as Hr.
  pose proof (Z.div_pos x n Hx Hn) as Hq.
  set (m := x `div` n) in *. set (r := x `mod` n) in *.
  rewrite (new_location_compare n r) by done.
  destruct (decide (2 * r < n)) as [Hlt|Hge].
  - assert (Hq2 : (2 * x) `div` n = 2 * m)
      by (symmetry; apply (Z.div_unique _ _ _ (2 * r)); lia).
    assert (Hr2 : (2 * x) `mod` n = 2 * r)
      by (symmetry; apply (Z.mod_unique _ _ (2 * m)); lia).
    rewrite Hq2, Hr2, new_location_compare by lia.
    assert (Hhalf : (2 * m) `div` 2 = m)
      by (symmetry; apply (Z.div_unique _ _ _ 0); lia).
    assert (Hodd : Z.odd (2 * m) = false) by (rewrite Z.odd_mul; done).
    destruct (decide (r = 0)) as [->|Hr0].
    + destruct (decide (2 * 0 = 0)); [|lia]. cbn [shr_record_of_loc].
      rewrite shr_1_halves by lia. by rewrite Hhalf, Hodd.
    + destruct (decide (2 * r = 0)); [lia|].
      assert (Hc : (2 * r ?= n) = Lt) by (by apply Z.compare_lt_iff).
      rewrite Hc. destruct (2 * (2 * r) ?= n); cbn [shr_record_of_loc];
        rewrite shr_1_halves by lia; by rewrite Hhalf, Hodd.
  - assert (Hq2 : (2 * x) `div` n = 2 * m + 1)
      by (symmetry; apply (Z.div_unique _ _ _ (2 * r - n)); lia).
    assert (Hr2 : (2 * x) `mod` n = 2 * r - n)
      by (symmetry; apply (Z.mod_unique _ _ (2 * m + 1)); lia).
    rewrite Hq2, Hr2, new_location_compare by lia.
    assert (Hhalf : (2 * m + 1) `div` 2 = m)
      by (symmetry; apply (Z.div_unique _ _ _ 1); lia).
    assert (Hodd : Z.odd (2 * m + 1) = true)
      by (rewrite Z.odd_add, Z.odd_mul; done).
    destruct (decide (r = 0)) as [->|Hr0]; [lia|].
    destruct (decide (2 * r - n = 0)) as [Hz|Hnz].
    + assert (Hc : (2 * r ?= n) = Eq) by (apply Z.compare_eq_iff; lia).
      rewrite Hc. cbn [shr_record_of_loc].
      rewrite shr_1_halves by lia. by rewrite Hhalf, Hodd.
    + assert (Hc : (2 * r ?= n) = Gt) by (apply Z.compare_gt_iff; lia).
      rewrite Hc. destruct (2 * (2 * r - n) ?= n); cbn [shr_record_of_loc];
        rewrite shr_1_halves by lia; by rewrite Hhalf, Hodd.
Qed.

Lemma int_true_divide_zero (n : Z) : 0 < n → int_true_divide 0 n = zero.
Proof. destruct n; try lia. reflexivity. Qed.

Lemma int_true_divide_pos (a n : Z) :
  0 < a → 0 < n →
  int_true_divide a n
  = let '(q, e, l) := SFdiv_core_binary prec emax a 0 n 0 in
    binary_round_aux prec emax false q e l.
Proof. destruct a, n; try lia. reflexivity. Qed.

Lemma Zdigits2_mono (a n : Z) : 0 < a ≤ n → Zdigits2 a ≤ Zdigits2 n.
Proof.
  intros Han.
  destruct (Zdigits2_bounds a) as (Hda & Hlo & _); [lia|].
  destruct (Zdigits2_bounds n) as (Hdn & _ & Hhi); [lia|].
  apply Zdigits2_le; [lia|lia].
Qed.

(** The division step: the dividend is scaled by [2 ^ (- e)]. *)
Lemma SFdiv_core_binary_int (a n : Z) :
  0 < a ≤ n →
  let e := Z.max (Zdigits2 a - Zdigits2 n - 53) (-1074) in
  SFdiv_core_binary prec emax a 0 n 0
  = ((a * 2 ^ (- e)) `div` n, e, new_location n ((a * 2 ^ (- e)) `mod` n)).
Proof.
  intros Han e. pose proof (Zdigits2_mono a n Han) as Hd.
  unfold SFdiv_core_binary. rewrite fexp_binary64.
  replace (Zdigits2 a + 0 - (Zdigits2 n + 0) - 53)
    with (Zdigits2 a - Zdigits2 n - 53) by lia.
  fold e. replace (0 - 0) with 0 by lia.
  assert (He : e ≤ -53) by (unfold e; lia).
  rewrite (Z.min_l e 0) by lia.
  replace (0 - e) with (- e) by lia.
  destruct (- e) as [|s|s] eqn:Hs; try lia.
  rewrite Z.shiftl_mul_pow2 by lia.
  unfold Z.div, Z.modulo.
  by destruct (Z.div_eucl (a * 2 ^ Z.pos s) n).
Qed.

Lemma shr_zero (mrs : shr_record) (e k : Z) : k ≤ 0 → shr mrs e k = (mrs, e).
Proof. intros Hk. unfold shr. destruct k; [done|lia|done]. Qed.

Lemma shr_one (mrs : shr_record) (e : Z) : shr mrs e 1 = (shr_1 mrs, e + 1).
Proof. reflexivity. Qed.

Lemma div_lower (x n k : Z) : 0 < n → k * n ≤ x → k ≤ x `div` n.
Proof. intros Hn Hx. apply Z.div_le_lower_bound; lia. Qed.

Lemma div_upper (x n k : Z) : 0 < n → x < k * n → x `div` n < k.
Proof. intros Hn Hx. apply Z.div_lt_upper_bound; lia. Qed.

Lemma pow2_split (u v : Z) : 0 ≤ u → 0 ≤ v → 2 ^ (u + v) = 2 ^ u * 2 ^ v.
Proof. intros. by apply Z.pow_add_r. Qed.

(** The first shift of [binary_round_aux]: what is left is the quotient
    cut at the exponent [E] of the result, below [2 ^ 53] and, off the
    subnormal exponent, at least [2 ^ 52]. *)
Lemma round_stage_one (a n : Z) :
  0 < a ≤ n →
  ∃ E, -1074 ≤ E ≤ -52
       ∧ (let '(q, e, l) := SFdiv_core_binary prec emax a 0 n 0 in
          shr_fexp prec emax q e l)
         = (shr_record_of_loc (quotient_at a n E).1 (quotient_at a n E).2, E)
       ∧ 0 ≤ (quotient_at a n E).1 < 2 ^ 53
       ∧ (-1074 < E → 2 ^ 52 ≤ (quotient_at a n E).1).
Proof.
  intros Han. rewrite (SFdiv_core_binary_int a n Han). cbn zeta.
  pose proof (Zdigits2_mono a n Han) as Hd.
  destruct (Zdigits2_bounds a) as (Hda & Halo & Hahi); [lia|].
  destruct (Zdigits2_bounds n) as (Hdn & Hnlo & Hnhi); [lia|].
  set (d1 := Zdigits2 a) in *. set (d2 := Zdigits2 n) in *.
  set (e := Z.max (d1 - d2 - 53) (-1074)).
  set (x := a * 2 ^ (- e)). set (q := x `div` n).
  assert (He : -1074 ≤ e ≤ -53) by (unfold e; lia).
  assert (Hx0 : 0 ≤ x) by (unfold x; apply Z.mul_nonneg_nonneg; [lia|apply Z.pow_nonneg; lia]).
  assert (Hq0 : 0 ≤ q) by (apply Z.div_pos; lia).
  unfold shr_fexp. rewrite fexp_binary64.
  assert (Hn2 : n < 2 * 2 ^ (d2 - 1)).
  { replace (2 * 2 ^ (d2 - 1)) with (2 ^ Z.succ (d2 - 1)) by (rewrite Z.pow_succ_r; lia).
    replace (Z.succ (d2 - 1)) with d2 by lia. lia. }
  destruct (decide (-1074 ≤ d1 - d2 - 53)) as [Hnormal|Hsub].
  - (* the quotient has 53 or 54 bits *)
    assert (Hee : e = d1 - d2 - 53) by (unfold e; lia).
    assert (Hscale : x = 2 ^ 53 * (a * 2 ^ (d2 - d1))).
    { unfold x. replace (- e) with (53 + (d2 - d1)) by lia.
      rewrite pow2_split by lia. lia. }
    assert (Hp : 0 < 2 ^ (d2 - d1)) by (apply Z.pow_pos_nonneg; lia).
    assert (Hlow : 2 ^ (d2 - 1) ≤ a * 2 ^ (d2 - d1)).
    { replace (d2 - 1) with ((d1 - 1) + (d2 - d1)) by lia.
      rewrite pow2_split by lia. nia. }
    assert (Hhigh : a * 2 ^ (d2 - d1) < 2 * 2 ^ (d2 - 1)).
    { replace (2 * 2 ^ (d2 - 1)) with (2 ^ d1 * 2 ^ (d2 - d1)).
      - nia.
      - rewrite <- pow2_split by lia.
        replace (d1 + (d2 - d1)) with (Z.succ (d2 - 1)) by lia.
        rewrite Z.pow_succ_r by lia. lia. }
    assert (Hqlo : 2 ^ 52 ≤ q).
    { apply div_lower; [lia|]. rewrite Hscale.
      change (2 ^ 53) with (2 * 2 ^ 52). nia. }
    assert (Hqhi : q < 2 ^ 54).
    { apply div_upper; [lia|]. rewrite Hscale.
      change (2 ^ 54) with (2 * 2 ^ 53). nia. }
    destruct (decide (q < 2 ^ 53)) as [Hsmall|Hbig].
    + exists e. split; [lia|].
      assert (Hdq : Zdigits2 q = 53).
      { apply Z.le_antisymm; [apply Zdigits2_le; lia|apply Zdigits2_ge; lia]. }
      rewrite Hdq, shr_zero by lia.
      unfold quotient_at. cbn [fst snd]. fold x q. split; [done|]. lia.
    + exists (e + 1). split; [lia|].
      assert (Hdq : Zdigits2 q = 54).
      { apply Z.le_antisymm; [apply Zdigits2_le; lia|apply Zdigits2_ge; lia]. }
      rewrite Hdq.
      replace (Z.max (54 + e - 53) (-1074) - e) with 1 by lia.
      rewrite shr_one.
      unfold quotient_at. cbn [fst snd].
      set (x' := a * 2 ^ (- (e + 1))).
      assert (Hxx : x = 2 * x').
      { unfold x, x'. replace (- e) with (Z.succ (- (e + 1))) by lia.
        rewrite Z.pow_succ_r by lia. lia. }
      assert (Hx'0 : 0 ≤ x') by lia.
      unfold q. rewrite Hxx, shr_1_quotient by lia.
      split; [done|].
      assert (Hhalf : x' `div` n = ((2 * x') `div` n) `div` 2).
      { rewrite Z.div_div by lia. rewrite (Z.mul_comm n 2).
        symmetry. apply Z.div_mul_cancel_l; lia. }
      fold x' in Hhalf. rewrite <- Hxx in Hhalf. fold q in Hhalf.
      assert (Hq2 : 2 ^ 52 ≤ q `div` 2 < 2 ^ 53).
      { split; [apply div_lower; lia|apply div_upper; lia]. }
      rewrite Hhalf. lia.
  - (* the subnormal exponent *)
    assert (Hee : e = -1074) by (unfold e; lia).
    assert (Hqhi : q < 2 ^ 53).
    { apply div_upper; [lia|]. unfold x. rewrite Hee.
      replace (- -1074) with 1074 by lia.
      assert (Hd1 : d1 + 1074 ≤ (d2 - 1) + 53) by lia.
      assert (Hpow : 2 ^ (d1 + 1074) ≤ 2 ^ ((d2 - 1) + 53))
        by (apply Z.pow_le_mono_r; lia).
      rewrite !pow2_split in Hpow by lia.
      assert (0 < 2 ^ 1074) by (by apply Z.pow_pos_nonneg).
      nia. }
    exists e. split; [lia|].
    assert (Hdq : Zdigits2 q ≤ 53) by (apply Zdigits2_le; lia).
    assert (Hdq0 : 0 ≤ Zdigits2 q) by (destruct q; cbn; lia).
    rewrite shr_zero by lia.
    unfold quotient_at. cbn [fst snd]. fold x q. split; [done|]. lia.
Qed.

Lemma round_nearest_even_bounds (m : Z) (l : location) :
  m ≤ round_nearest_even m l ≤ m + 1.
Proof. destruct l as [|[]]; cbn; try destruct (Z.even m); lia. Qed.

(** The second shift and the packing of [binary_round_aux]. *)
Lemma round_stage_two (m E : Z) :
  0 ≤ m ≤ 2 ^ 53 → -1074 ≤ E ≤ -52 →
  (let '(mrs, e) := shr_fexp prec emax m E loc_Exact in
   match shr_m mrs with
   | 0 => S754_zero false
   | Z.pos p => if e <=? emax - prec then S754_finite false p e
                else S754_infinity false
   | Z.neg _ => S754_nan
   end) = finish m E.
Proof.
  intros Hm HE. unfold shr_fexp, finish. rewrite fexp_binary64.
  destruct (decide (m = 0)) as [->|Hm0].
  - cbn [Zdigits2]. by rewrite shr_zero by lia.
  - destruct (decide (m = 2 ^ 53)) as [->|Hm53].
    + change (Zdigits2 (2 ^ 53)) with 54.
      replace (Z.max (54 + E - 53) (-1074) - E) with 1 by lia.
      rewrite shr_one.
      change (shr_m (shr_1 (shr_record_of_loc (2 ^ 53) loc_Exact)))
        with (Z.pos (Z.to_pos (2 ^ 52))).
      cbv iota beta.
      by rewrite (proj2 (Z.leb_le (E + 1) (emax - prec))) by (unfold emax, prec; lia).
    + assert (Hd : Zdigits2 m ≤ 53) by (apply Zdigits2_le; lia).
      assert (Hd0 : 0 ≤ Zdigits2 m) by (destruct m; cbn; lia).
      rewrite shr_zero by lia. cbn [shr_record_of_loc shr_m].
      destruct m as [|p|p]; try lia.
      by rewrite (proj2 (Z.leb_le E (emax - prec))) by (unfold emax, prec; lia).
Qed.

(** The quotient of two positive integers, in closed form. *)
Lemma int_true_divide_finish (a n : Z) :
  0 < a ≤ n →
  ∃ E, -1074 ≤ E ≤ -52
       ∧ int_true_divide a n
         = finish (round_nearest_even (quotient_at a n E).1 (quotient_at a n E).2) E
       ∧ 0 ≤ (quotient_at a n E).1 < 2 ^ 53
       ∧ (-1074 < E → 2 ^ 52 ≤ (quotient_at a n E).1).
Proof.
  intros Han. destruct (round_stage_one a n Han) as (E & HE & Hone & Hm & Hnormal).
  exists E. split; [done|]. split; [|done].
  rewrite int_true_divide_pos by lia.
  destruct (SFdiv_core_binary prec emax a 0 n 0) as [[q e] l].
  unfold binary_round_aux. rewrite Hone.
  rewrite shr_record_of_loc_m, loc_of_shr_record_of_loc.
  apply round_stage_two; [|done].
  pose proof (round_nearest_even_bounds (quotient_at a n E).1 (quotient_at a n E).2).
  lia.
Qed.

Lemma leb_finite (m1 m2 : positive) (e1 e2 : Z) :
  e1 < e2 ∨ (e1 = e2 ∧ (m1 ≤ m2)%positive) →
  leb (S754_finite false m1 e1) (S754_finite false m2 e2) = true.
Proof.
  intros H. unfold leb, SFleb, SFcompare.
  destruct (Z.compare_spec e1 e2) as [Heq|Hlt|Hgt]; [|done|lia].
  destruct H as [?|[_ Hle]]; [lia|].
  change (Pos.compare_cont Eq m1 m2) with (m1 ?= m2)%positive.
  destruct (Pos.compare_spec m1 m2); [done|done|lia].
Qed.

Lemma to_pos_le (x y : Z) : 0 < x ≤ y → (Z.to_pos x ≤ Z.to_pos y)%positive.
Proof. intros Hxy. destruct x as [|p|p], y as [|q|q]; lia. Qed.

Lemma leb_finish (ma mb Ea Eb : Z) :
  0 ≤ ma ≤ 2 ^ 53 → 0 ≤ mb ≤ 2 ^ 53 → Ea ≤ Eb →
  (Ea = Eb → ma ≤ mb) → (Ea < Eb → 2 ^ 52 ≤ mb) →
  leb (finish ma Ea) (finish mb Eb) = true.
Proof.
  intros Ha Hb HE Hsame Hless. unfold finish.
  destruct (decide (ma = 0)) as [->|Ha0].
  { by destruct (decide (mb = 0)), (decide (mb = 2 ^ 53)). }
  assert (Hb0 : mb ≠ 0) by (destruct (decide (Ea = Eb)); lia).
  destruct (decide (mb = 0)) as [|_]; [done|].
  destruct (decide (ma = 2 ^ 53)) as [->|Ha53], (decide (mb = 2 ^ 53)) as [->|Hb53];
    apply leb_finite.
  - destruct (decide (Ea = Eb)); [right|left]; [split; [lia|reflexivity]|lia].
  - destruct (decide (Ea + 1 = Eb)) as [Heq|Hne]; [right|left; lia].
    split; [done|]. apply to_pos_le; lia.
  - left. lia.
  - destruct (decide (Ea = Eb)) as [Heq|Hne]; [right|left; lia].
    split; [done|]. apply to_pos_le; lia.
Qed.

Lemma leb_zero_finish (m E : Z) : 0 ≤ m → leb zero (finish m E) = true.
Proof.
  intros Hm. unfold finish.
  by destruct (decide (m = 0)), (decide (m = 2 ^ 53)).
Qed.

(** With a fixed divisor the rounded quotient grows with the dividend. *)
Lemma int_true_divide_mono (a b n : Z) :
  0 ≤ a ≤ b → b ≤ n → 0 < n →
  leb (int_true_divide a n) (int_true_divide b n) = true.
Proof.
  intros Hab Hbn Hn.
  destruct (decide (b = 0)) as [->|Hb0].
  { assert (a = 0) as -> by lia. by rewrite int_true_divide_zero. }
  destruct (int_true_divide_finish b n) as (Eb & HEb & -> & Hmb & Hnb); [lia|].
  pose proof (round_nearest_even_bounds (quotient_at b n Eb).1 (quotient_at b n Eb).2)
    as Hrb.
  destruct (decide (a = 0)) as [->|Ha0].
  { rewrite int_true_divide_zero by done. apply leb_zero_finish. lia. }
  destruct (int_true_divide_finish a n) as (Ea & HEa & -> & Hma & Hna); [lia|].
  pose proof (round_nearest_even_bounds (quotient_at a n Ea).1 (quotient_at a n Ea).2)
    as Hra.
  assert (HE : Ea ≤ Eb).
  { destruct (decide (Ea ≤ Eb)) as [|Hgt]; [done|]. exfalso.
    unfold quotient_at in Hma, Hna, Hmb. cbn [fst] in Hma, Hna, Hmb.
    assert (Hpa : 0 < 2 ^ (- Ea)) by (apply Z.pow_pos_nonneg; lia).
    assert (Hpow : 2 ^ (- Eb) = 2 ^ (- Ea) * 2 ^ (Ea - Eb))
      by (rewrite <- pow2_split by lia; f_equal; lia).
    assert (Hp2 : 2 ≤ 2 ^ (Ea - Eb)).
    { change 2 with (2 ^ 1) at 1. apply Z.pow_le_mono_r; lia. }
    assert (Hlo : 2 ^ 52 * n ≤ a * 2 ^ (- Ea)).
    { pose proof (Z.mul_div_le (a * 2 ^ (- Ea)) n Hn). specialize (Hna ltac:(lia)). nia. }
    assert (Hhi : b * 2 ^ (- Eb) < 2 ^ 53 * n).
    { pose proof (Z.mul_succ_div_gt (b * 2 ^ (- Eb)) n Hn). nia. }
    rewrite Hpow in Hhi. change (2 ^ 53) with (2 * 2 ^ 52) in Hhi. nia. }
  apply leb_finish; [lia|lia|done| |].
  - intros <-. apply round_nearest_even_mono, quotient_at_mono; lia.
  - intros Hlt. specialize (Hnb ltac:(lia)). lia.
Qed.
End TrueDivide.

(** C10. For a fixed frame and tolerance, enabling more of the four
    checks never decreases the number of dropped rows, nor the drop rate
    computed from it; with the four checks disabled no row is dropped and
    the drop rate is 0. *)
Theorem dropped_rows_monotone (df : Frame RawRecord) (cfg cfg' : Config) :
  (tolerance cfg = tolerance cfg' →
   (∀ k, k ∈ check_names →
         truthy (checks cfg) k = true → truthy (checks cfg') k = true) →
   0 ≤ dropped_rows cfg df ≤ dropped_rows cfg' df
   ∧ leb (drop_rate cfg df) (drop_rate cfg' df) = true)
  ∧ ((∀ k, k ∈ check_names → truthy (checks cfg) k = false) →
     dropped_rows cfg df = 0 ∧ drop_rate cfg df = zero).
Proof.
  split.
  - intros Htol Hmore.
    assert (Hdrop : 0 ≤ dropped_rows cfg df ≤ dropped_rows cfg' df).
    { rewrite !dropped_rows_passes.
      pose proof (len_select_le (passes cfg) df).
      pose proof (len_select_mono (passes cfg) (passes cfg') df
                    (λ r, passes_mono cfg cfg' r Htol Hmore)).
      lia. }
    split; [done|]. unfold drop_rate.
    apply int_true_divide_mono; [done| |lia].
    rewrite dropped_rows_passes. unfold len. lia.
  - intros Hoff.
    assert (Hzero : dropped_rows cfg df = 0).
    { rewrite dropped_rows_passes, select_true; [lia|].
      intros r. by apply passes_disabled. }
    split; [done|]. unfold drop_rate. rewrite Hzero.
    apply int_true_divide_zero. lia.
Qed.

Lemma dropped_rows_monotone_witness :
  (0 ≤ dropped_rows Sample.unchecked Sample.two_rows
     ≤ dropped_rows (Sample.config "mode" Sample.half) Sample.two_rows
   ∧ leb (drop_rate Sample.unchecked Sample.two_rows)
         (drop_rate (Sample.config "mode" Sample.half) Sample.two_rows) = true)
  ∧ dropped_rows Sample.unchecked Sample.two_rows = 0
  ∧ drop_rate Sample.unchecked Sample.two_rows = zero.
Proof.
  destruct (dropped_rows_monotone
              Sample.two_rows Sample.unchecked (Sample.config "mode" Sample.half))
    as [Hmore Hoff].
  split.
  - apply Hmore; [reflexivity|]. intros k _ Hk. vm_compute in Hk. discriminate Hk.
  - apply Hoff. intros k _. reflexivity.
Defined.

(** * Further properties *)

(** ** The order of binary64 values *)

Ltac float_cases :=
  repeat match goal with
    | s : bool |- _ => destruct s
    end;
  cbn in *; try done;
  repeat match goal with
    | H : context [(?a ?= ?b)%Z] |- _ => destruct (Z.compare_spec a b)
    | |- context [(?a ?= ?b)%Z] => destruct (Z.compare_spec a b)
    end;
  change (PosDef.Pos.compare_cont Eq) with Pos.compare in *;
  repeat match goal with
    | H : context [(?a ?= ?b)%positive] |- _ => destruct (Pos.compare_spec a b)
    | |- context [(?a ?= ?b)%positive] => destruct (Pos.compare_spec a b)
    end;
  cbn in *; try done; try lia.

Lemma SFcompare_opp (x y : float) (c : comparison) :
  SFcompare x y = Some c → SFcompare y x = Some (CompOpp c).
Proof.
  destruct x as [sx|sx| |sx mx ex], y as [sy|sy| |sy my ey]; cbn; try done;
    intros [= <-]; f_equal; float_cases.
Qed.

Lemma leb_trans (x y z : float) :
  leb x y = true → leb y z = true → leb x z = true.
Proof.
  unfold leb, SFleb.
  destruct x as [sx|sx| |sx mx ex], y as [sy|sy| |sy my ey],
    z as [sz|sz| |sz mz ez]; cbn; try done; float_cases.
Qed.

Lemma ltb_leb_trans (x y z : float) :
  SFltb x y = true → leb y z = true → SFltb x z = true.
Proof.
  unfold leb, SFleb, SFltb.
  destruct x as [sx|sx| |sx mx ex], y as [sy|sy| |sy my ey],
    z as [sz|sz| |sz mz ez]; cbn; try done; float_cases.
Qed.

Lemma leb_not_gtb (x y : float) : leb x y = true → gtb x y = false.
Proof.
  unfold leb, gtb, SFleb, SFltb.
  destruct (SFcompare x y) as [c|] eqn:Hc; [|done].
  rewrite (SFcompare_opp _ _ _ Hc). by destruct c.
Qed.

Lemma add_nan_l (y : float) : add S754_nan y = S754_nan.
Proof. done. Qed.

Lemma add_nan_r (x : float) : add x S754_nan = S754_nan.
Proof. by destruct x. Qed.

Lemma sub_nan_l (y : float) : sub S754_nan y = S754_nan.
Proof. done. Qed.

Lemma sub_nan_r (x : float) : sub x S754_nan = S754_nan.
Proof. by destruct x. Qed.

Lemma leb_nan_r (x : float) : leb x S754_nan = false.
Proof. by destruct x. Qed.

(** ** The drop rate as a proportion *)

Lemma int_true_divide_self (n : Z) : 0 < n → int_true_divide n n = one.
Proof.
  intros Hn.
  destruct (int_true_divide_finish n n ltac:(lia)) as (E & HE & -> & Hq & Hbig).
  unfold quotient_at in *. cbn [fst snd] in *.
  assert (Hpow : 0 < 2 ^ (- E)) by (apply Z.pow_pos_nonneg; lia).
  rewrite (Z.mul_comm n) in *. rewrite Z.mod_mul by lia.
  rewrite Z.div_mul in * by lia.
  rewrite new_location_compare by lia.
  assert (E = -52) as ->.
  { destruct (decide (E = -52)) as [|Hne]; [done|]. exfalso.
    assert (2 ^ 53 ≤ 2 ^ (- E)) by (apply Z.pow_le_mono_r; lia). lia. }
  reflexivity.
Qed.

Lemma len_nonneg {A} (l : list A) : 0 ≤ len l.
Proof. unfold len. lia. Qed.

Lemma dropped_rows_bounds (cfg : Config) (df : Frame RawRecord) :
  0 ≤ dropped_rows cfg df ≤ len df.
Proof.
  rewrite dropped_rows_passes.
  pose proof (len_select_le (passes cfg) df).
  pose proof (len_nonneg (select (passes cfg) df)). lia.
Qed.

Lemma drop_rate_bounds (cfg : Config) (df : Frame RawRecord) :
  leb zero (drop_rate cfg df) = true ∧ leb (drop_rate cfg df) one = true.
Proof.
  pose proof (dropped_rows_bounds cfg df) as Hd. unfold drop_rate.
  set (n := Z.max (len df) 1). assert (Hn : 0 < n ∧ len df ≤ n) by lia.
  split.
  - rewrite <- (int_true_divide_zero n) by lia.
    apply int_true_divide_mono; lia.
  - rewrite <- (int_true_divide_self n) by lia.
    apply int_true_divide_mono; lia.
Qed.

(** X1.  The drop rate is a binary64 number between 0 and 1, whatever the
    frame and the checks; so a ceiling of 1 or more never raises, and
    neither does a configuration without the [max_error_rate] key, whose
    ceiling is the default 1.0. *)
Theorem drop_rate_proportion
    (df : Frame RawRecord) (cfg : Config) (log : list LogRecord) :
  leb zero (drop_rate cfg df) = true
  ∧ leb (drop_rate cfg df) one = true
  ∧ (leb one (max_err cfg) = true → ¬ raised (apply_validations df cfg log).1)
  ∧ (max_error_rate cfg = None → ¬ raised (apply_validations df cfg log).1).
Proof.
  destruct (drop_rate_bounds cfg df) as [H0 H1].
  assert (Hceil : leb one (max_err cfg) = true →
                  ¬ raised (apply_validations df cfg log).1).
  { intros Hm. rewrite apply_validations_run. cbn zeta.
    rewrite (leb_not_gtb _ _ (leb_trans _ _ _ H1 Hm)). apply not_raised_inr. }
  repeat split; [done|done|done|].
  intros Hnone. apply Hceil. unfold max_err. by rewrite Hnone.
Qed.

Lemma drop_rate_proportion_witness :
  leb (drop_rate Fixture.no_ceiling Sample.two_rows) one = true
  ∧ ¬ raised (apply_validations Sample.two_rows Fixture.no_ceiling []).1.
Proof.
  destruct (drop_rate_proportion Sample.two_rows Fixture.no_ceiling [])
    as (_ & Hone & _ & Hnone).
  split; [exact Hone|exact (Hnone eq_refl)].
Defined.

(** ** Frames that pass *)

Lemma select_all {R} (p : R → bool) (l : Frame R) :
  (∀ ir, ir ∈ l → p ir.2 = true) → select p l = l.
Proof.
  intros Hall. unfold select. induction l as [|ir l IH]; [done|].
  rewrite filter_cons. destruct (decide _) as [|Hno].
  - f_equal. apply IH. intros ??. apply Hall. by right.
  - exfalso. apply Hno. rewrite Hall; [done|by left].
Qed.

Lemma not_isin_self {R} (l : Frame R) : not_isin l l = [].
Proof.
  unfold not_isin. apply filter_none. intros ir Hin Hno. apply Hno.
  unfold index. apply list_elem_of_fmap. by exists ir.
Qed.

Lemma int_true_divide_zero_max (n : Z) : int_true_divide 0 (Z.max n 1) = zero.
Proof. apply int_true_divide_zero. lia. Qed.

(** A frame all of whose rows pass the enabled checks. *)
Lemma apply_validations_all_pass
    (df : Frame RawRecord) (cfg : Config) (log : list LogRecord) :
  (∀ ir, ir ∈ df → passes cfg ir.2 = true) →
  gtb zero (max_err cfg) = false →
  apply_validations df cfg log
  = (inr (df, []), log ++ [(INFO, PostValidation (len df) 0 zero)]).
Proof.
  intros Hall Hceil. rewrite apply_validations_run. cbn zeta.
  assert (Hrun : len (run_checks cfg df) = len df).
  { rewrite <- len_drop_chk, drop_chk_run_checks. by rewrite select_all. }
  assert (Hd : dropped_rows cfg df = 0) by (unfold dropped_rows; lia).
  assert (Hr : drop_rate cfg df = zero).
  { unfold drop_rate. rewrite Hd. apply int_true_divide_zero_max. }
  rewrite Hrun, Hd, Hr, Hceil, select_all, not_isin_self by done.
  reflexivity.
Qed.

Lemma success_ceiling (df : Frame RawRecord) (cfg : Config) (log : list LogRecord)
    (out : Frame RawRecord * Frame RawRecord) :
  (apply_validations df cfg log).1 = inr out → gtb zero (max_err cfg) = false.
Proof.
  rewrite apply_validations_run. cbn zeta.
  destruct (gtb (drop_rate cfg df) (max_err cfg)) eqn:Hgt; [done|]. intros _.
  destruct (gtb zero (max_err cfg)) eqn:Hz; [|done].
  destruct (drop_rate_bounds cfg df) as [H0 _].
  unfold gtb in *. by rewrite (ltb_leb_trans _ _ _ Hz H0) in Hgt.
Qed.

(** X2.  A frame in which every row passes the enabled checks comes back
    whole, with nothing rejected and a drop count of 0 in the log, provided
    the ceiling is not negative. *)
Theorem apply_validations_clean
    (df : Frame RawRecord) (cfg : Config) (log : list LogRecord) :
  (∀ ir, ir ∈ df → passes cfg ir.2 = true) →
  leb zero (max_err cfg) = true →
  apply_validations df cfg log
  = (inr (df, []), log ++ [(INFO, PostValidation (len df) 0 zero)]).
Proof.
  intros Hall Hceil. apply apply_validations_all_pass; [done|].
  by apply leb_not_gtb.
Qed.

Lemma apply_validations_clean_witness :
  apply_validations [(0, Sample.balanced)] (Sample.config "mode" Sample.half) []
  = (inr ([(0, Sample.balanced)], []), [(INFO, PostValidation 1 0 zero)]).
Proof.
  apply (apply_validations_clean [(0, Sample.balanced)]
           (Sample.config "mode" Sample.half) []).
  - intros ir Hir. apply list_elem_of_singleton in Hir as ->. vm_compute. reflexivity.
  - vm_compute. reflexivity.
Defined.

(** X3.  Validation is idempotent: validating the accepted rows again, under
    the same configuration, accepts all of them, rejects none and does not
    raise. *)
Theorem apply_validations_idempotent
    (df : Frame RawRecord) (cfg : Config) (log log2 : list LogRecord)
    (accepted rejected : Frame RawRecord) :
  (apply_validations df cfg log).1 = inr (accepted, rejected) →
  apply_validations accepted cfg log2
  = (inr (accepted, []), log2 ++ [(INFO, PostValidation (len accepted) 0 zero)]).
Proof.
  intros Hrun. pose proof (success_ceiling _ _ _ _ Hrun) as Hceil.
  apply apply_validations_all_pass; [|done].
  rewrite apply_validations_run in Hrun. cbn zeta in Hrun.
  destruct (gtb _ _); [done|]. cbn in Hrun. injection Hrun as <- _.
  intros ir Hir. unfold select in Hir.
  apply list_elem_of_filter in Hir as [Hp _]. by apply Is_true_true.
Qed.

Lemma apply_validations_idempotent_witness :
  apply_validations [(0, Sample.balanced)] (Sample.config "mode" Sample.half) []
  = (inr ([(0, Sample.balanced)], []), [(INFO, PostValidation 1 0 zero)]).
Proof.
  refine (apply_validations_idempotent Sample.two_rows
            (Sample.config "mode" Sample.half) [] []
            [(0, Sample.balanced)] [(1, Sample.unbalanced)] _).
  vm_compute. reflexivity.
Defined.

(** ** Tolerance *)

Lemma passes_tolerance (cfg cfg' : Config) (r : RawRecord) :
  checks cfg = checks cfg' →
  leb (tolerance cfg) (tolerance cfg') = true →
  passes cfg r = true → passes cfg' r = true.
Proof.
  intros Hc Htol. unfold passes. rewrite <- Hc.
  unfold revenue_balance_ok, overall_balance_ok.
  rewrite !andb_true_iff, !orb_true_iff.
  intros [[[Hr Ho] Hq] Hn]. repeat split; [| |done|done].
  - destruct Hr as [|Hr]; [by left|right]. by apply (leb_trans _ _ _ Hr).
  - destruct Ho as [|Ho]; [by left|right]. by apply (leb_trans _ _ _ Ho).
Qed.

(** X4.  With the same checks enabled, a larger tolerance never drops more
    rows and never gives a larger drop rate. *)
Theorem dropped_rows_tolerance (df : Frame RawRecord) (cfg cfg' : Config) :
  checks cfg = checks cfg' →
  leb (tolerance cfg) (tolerance cfg') = true →
  dropped_rows cfg' df ≤ dropped_rows cfg df
  ∧ leb (drop_rate cfg' df) (drop_rate cfg df) = true.
Proof.
  intros Hc Htol.
  assert (Hd : dropped_rows cfg' df ≤ dropped_rows cfg df).
  { rewrite !dropped_rows_passes.
    pose proof (len_select_mono (passes cfg') (passes cfg) df
                  (λ r, passes_tolerance cfg cfg' r Hc Htol)). lia. }
  split; [done|].
  pose proof (dropped_rows_bounds cfg df). pose proof (dropped_rows_bounds cfg' df).
  unfold drop_rate. apply int_true_divide_mono; lia.
Qed.

Lemma dropped_rows_tolerance_witness :
  dropped_rows Fixture.lenient Sample.two_rows
    ≤ dropped_rows (Sample.config "mode" Sample.half) Sample.two_rows
  ∧ leb (drop_rate Fixture.lenient Sample.two_rows)
        (drop_rate (Sample.config "mode" Sample.half) Sample.two_rows) = true.
Proof.
  apply (dropped_rows_tolerance Sample.two_rows
           (Sample.config "mode" Sample.half) Fixture.lenient).
  - reflexivity.
  - vm_compute. reflexivity.
Defined.

(** ** Missing amounts *)

Lemma revenue_balance_nan (tol : float) (r : RawRecord) :
  final_revenue r = S754_nan ∨ total_revenue r = S754_nan
  ∨ price_reductions r = S754_nan ∨ refunds r = S754_nan ∨ tol = S754_nan →
  revenue_balance_ok tol r = false.
Proof.
  unfold revenue_balance_ok, leb.
  intros [->|[->|[->|[->| ->]]]];
    rewrite ?add_nan_l, ?add_nan_r, ?add_nan_l, ?sub_nan_l, ?sub_nan_r,
      ?leb_nan_r; try done.
  all: unfold add; rewrite ?add_nan_r; try done.
Qed.

Lemma overall_balance_nan (tol : float) (r : RawRecord) :
  overall_revenue r = S754_nan ∨ final_revenue r = S754_nan
  ∨ sales_tax r = S754_nan ∨ tol = S754_nan →
  overall_balance_ok tol r = false.
Proof.
  unfold overall_balance_ok, leb.
  intros [->|[->|[->| ->]]];
    rewrite ?add_nan_l, ?add_nan_r, ?sub_nan_l, ?sub_nan_r, ?leb_nan_r; try done.
Qed.

Lemma apply_validations_outputs
    (df : Frame RawRecord) (cfg : Config) (log : list LogRecord)
    (accepted rejected : Frame RawRecord) :
  (apply_validations df cfg log).1 = inr (accepted, rejected) →
  accepted = select (passes cfg) df ∧ rejected = not_isin df accepted.
Proof.
  rewrite apply_validations_run. cbn zeta. destruct (gtb _ _); [done|].
  cbn. by intros [= <- <-].
Qed.

(** X5.  No accepted row lacks an amount that an enabled balance check
    reads: a comparison with a missing value (NaN) is false, so such a row
    fails the check.  The same holds for a tolerance that is NaN. *)
Theorem accepted_amounts_present
    (df : Frame RawRecord) (cfg : Config) (log : list LogRecord)
    (accepted rejected : Frame RawRecord) (i : Z) (r : RawRecord) :
  (apply_validations df cfg log).1 = inr (accepted, rejected) →
  (i, r) ∈ accepted →
  (truthy (checks cfg) "revenue_balance" = true →
     final_revenue r ≠ S754_nan ∧ total_revenue r ≠ S754_nan
     ∧ price_reductions r ≠ S754_nan ∧ refunds r ≠ S754_nan
     ∧ tolerance cfg ≠ S754_nan)
  ∧ (truthy (checks cfg) "overall_balance" = true →
       overall_revenue r ≠ S754_nan ∧ final_revenue r ≠ S754_nan
       ∧ sales_tax r ≠ S754_nan ∧ tolerance cfg ≠ S754_nan).
Proof.
  intros [-> _]%apply_validations_outputs Hin.
  apply list_elem_of_filter in Hin as [Hp _]. apply Is_true_true in Hp.
  cbn [snd] in Hp. unfold passes in Hp.
  rewrite !andb_true_iff, !orb_true_iff, !negb_true_iff in Hp.
  destruct Hp as [[[Hr Ho] _] _]. split; intros Hon.
  - destruct Hr as [Hr|Hr]; [congruence|].
    repeat split; intros Hnan;
      rewrite revenue_balance_nan in Hr by tauto; done.
  - destruct Ho as [Ho|Ho]; [congruence|].
    repeat split; intros Hnan;
      rewrite overall_balance_nan in Ho by tauto; done.
Qed.

Lemma accepted_amounts_present_witness :
  refunds Sample.balanced ≠ S754_nan
  ∧ (apply_validations [(0, Sample.balanced); (1, Fixture.no_refunds)]
       (Sample.config "mode" Sample.half) []).1
    = inr ([(0, Sample.balanced)], [(1, Fixture.no_refunds)]).
Proof.
  assert (Hrun : (apply_validations [(0, Sample.balanced); (1, Fixture.no_refunds)]
                    (Sample.config "mode" Sample.half) []).1
                 = inr ([(0, Sample.balanced)], [(1, Fixture.no_refunds)]))
    by (vm_compute; reflexivity).
  split; [|exact Hrun].
  destruct (accepted_amounts_present _ _ _ _ _ 0 Sample.balanced Hrun) as [Hrev _];
    [by left|].
  destruct Hrev as (_ & _ & _ & Hrefunds & _); [reflexivity|exact Hrefunds].
Defined.

(** ** The two outputs, labels repeated or not *)

Lemma filter_length_impl {A} (P Q : A → Prop)
    `{∀ x, Decision (P x)} `{∀ x, Decision (Q x)} (l : list A) :
  (∀ x, x ∈ l → P x → Q x) → (length (filter P l) ≤ length (filter Q l))%nat.
Proof.
  intros Himp. induction l as [|x l IH]; [done|].
  rewrite !filter_cons.
  assert (IH' : (length (filter P l) ≤ length (filter Q l))%nat).
  { apply IH. intros ???. apply Himp; [by right|done]. }
  destruct (decide (P x)) as [HP|], (decide (Q x)) as [|HQ]; cbn; try lia.
  exfalso. apply HQ, Himp; [by left|done].
Qed.

(** X6.  Whatever the index labels, the two outputs are subsequences of the
    input in input order, no label is in both, every accepted row passes the
    enabled checks and every rejected row fails one; rows can be lost (a
    failing row under the label of an accepted one) but are never
    duplicated. *)
Theorem apply_validations_subframes
    (df : Frame RawRecord) (cfg : Config) (log : list LogRecord)
    (accepted rejected : Frame RawRecord) :
  (apply_validations df cfg log).1 = inr (accepted, rejected) →
  sublist accepted df
  ∧ sublist rejected df
  ∧ (∀ x y, x ∈ accepted → y ∈ rejected → x.1 ≠ y.1)
  ∧ (∀ x, x ∈ accepted → passes cfg x.2 = true)
  ∧ (∀ y, y ∈ rejected → passes cfg y.2 = false)
  ∧ len accepted + len rejected ≤ len df.
Proof.
  intros [-> ->]%apply_validations_outputs.
  assert (Hrej : ∀ y, y ∈ not_isin df (select (passes cfg) df) →
                      passes cfg y.2 = false).
  { intros y [Hno Hin]%list_elem_of_filter.
    destruct (passes cfg y.2) eqn:Hp; [|done]. exfalso. apply Hno.
    unfold index. apply list_elem_of_fmap. exists y. split; [done|].
    apply list_elem_of_filter. split; [by apply Is_true_true|done]. }
  split; [apply sublist_filter|]. split; [apply sublist_filter|].
  split; [|split; [|split; [done|]]].
  - intros x y Hx [Hno _]%list_elem_of_filter Heq. apply Hno.
    rewrite <- Heq. unfold index. apply list_elem_of_fmap. by exists x.
  - intros x [Hp _]%list_elem_of_filter. by apply Is_true_true.
  - unfold len, not_isin, select.
    rewrite (length_filter_split (λ ir, passes cfg ir.2) df).
    pose proof (filter_length_impl
                  (λ ir, ir.1 ∉ index (filter (λ ir, passes cfg ir.2) df))
                  (λ ir, ¬ passes cfg ir.2) df) as Hle.
    assert (length (filter (λ ir, ir.1 ∉ index (filter (λ ir, passes cfg ir.2) df)) df)
            ≤ length (filter (λ ir, ¬ passes cfg ir.2) df))%nat; [|lia].
    apply Hle. intros y Hy Hno Hp. apply Hno.
    unfold index. apply list_elem_of_fmap. exists y. split; [done|].
    by apply list_elem_of_filter.
Qed.

Lemma apply_validations_subframes_witness :
  sublist [(0, Sample.balanced)] Sample.same_label
  ∧ len [(0, Sample.balanced)] + len ([] : Frame RawRecord) ≤ len Sample.same_label.
Proof.
  destruct (apply_validations_subframes Sample.same_label
              (Sample.config "mode" Sample.half) []
              [(0, Sample.balanced)] [])
    as (Hacc & _ & _ & _ & _ & Hlen); [vm_compute; reflexivity|].
  split; [exact Hacc|exact Hlen].
Defined.

(** ** The log of the validator *)

(** X7.  [apply_validations] appends exactly one record to the log, before
    it decides whether to raise: the number of rows kept, the number dropped
    and the drop rate in percent; kept and dropped add up to the size of the
    input. *)
Theorem apply_validations_logs
    (df : Frame RawRecord) (cfg : Config) (log : list LogRecord) :
  ∃ kept dropped,
    (apply_validations df cfg log).2
    = log ++ [(INFO, PostValidation kept dropped (mul (drop_rate cfg df) hundred))]
    ∧ kept = len (filter (λ ir, passes cfg ir.2) df)
    ∧ dropped = dropped_rows cfg df
    ∧ kept + dropped = len df
    ∧ 0 ≤ dropped.
Proof.
  exists (len (run_checks cfg df)), (dropped_rows cfg df).
  rewrite apply_validations_run. cbn zeta.
  assert (Hk : len (run_checks cfg df) = len (filter (λ ir, passes cfg ir.2) df)).
  { by rewrite <- len_drop_chk, drop_chk_run_checks. }
  pose proof (dropped_rows_bounds cfg df).
  split; [by destruct (gtb _ _)|]. split; [done|]. split; [done|].
  split; [unfold dropped_rows; lia|lia].
Qed.

(** ** The date dimension and the days of the frame *)

Lemma build_date_dimension_span
    (df : Frame RawRecord) (cfg : Config) (log : list LogRecord) :
  (days_of df = [] ∧ build_date_dimension df cfg log = (inl NoValidDates, log))
  ∨ ∃ lo hi,
      lo ∈ days_of df ∧ hi ∈ days_of df
      ∧ (∀ d, d ∈ days_of df → lo ≤ d ≤ hi)
      ∧ build_date_dimension df cfg log
        = (inr (date_row <$> seqZ lo (hi - lo + 1)), log).
Proof.
  unfold build_date_dimension, days_of.
  destruct (omap (λ ir : Z * RawRecord, date ir.2) df) as [|t ts]; [by left|].
  right. destruct (min_list_spec t ts) as [Hmin_in Hmin_le].
  destruct (max_list_spec t ts) as [Hmax_in Hmax_le].
  exists (Calendar.date_of (min_list t ts)), (Calendar.date_of (max_list t ts)).
  split; [by apply list_elem_of_fmap_2|]. split; [by apply list_elem_of_fmap_2|].
  split; [|done].
  intros d (t' & -> & Ht')%list_elem_of_fmap.
  split; apply date_of_mono; [by apply Hmin_le|by apply Hmax_le].
Qed.

(** X8.  The date dimension depends on the frame only through the set of
    calendar days on which it has a row: the order of the rows, their
    number, the time of day of a timestamp and every other column are
    immaterial. *)
Theorem build_date_dimension_days
    (df df' : Frame RawRecord) (cfg : Config) (log : list LogRecord) :
  (∀ d, d ∈ days_of df ↔ d ∈ days_of df') →
  build_date_dimension df cfg log = build_date_dimension df' cfg log.
Proof.
  intros Hsame.
  destruct (build_date_dimension_span df cfg log)
    as [[Hnil ->]|(lo & hi & Hlo & Hhi & Hb & ->)];
    destruct (build_date_dimension_span df' cfg log)
      as [[Hnil' ->]|(lo' & hi' & Hlo' & Hhi' & Hb' & ->)].
  - done.
  - apply Hsame in Hlo'. rewrite Hnil in Hlo'. by apply elem_of_nil in Hlo'.
  - apply Hsame in Hlo. rewrite Hnil' in Hlo. by apply elem_of_nil in Hlo.
  - assert (lo = lo') as ->.
    { pose proof (Hb lo' (proj2 (Hsame _) Hlo')).
      pose proof (Hb' lo (proj1 (Hsame _) Hlo)). lia. }
    assert (hi = hi') as ->.
    { pose proof (Hb hi' (proj2 (Hsame _) Hhi')).
      pose proof (Hb' hi (proj1 (Hsame _) Hhi)). lia. }
    done.
Qed.

Lemma build_date_dimension_days_witness :
  build_date_dimension Sample.nine_days (Sample.config "mode" Sample.half) []
  = build_date_dimension Fixture.noon (Sample.config "mode" Sample.half) [].
Proof.
  apply build_date_dimension_days. intros d. vm_compute days_of.
  rewrite !elem_of_cons, !elem_of_nil. tauto.
Defined.

(** X9.  Adding rows to the frame only extends the date dimension: the rows
    built from the smaller frame form a contiguous block of the rows built
    from the larger one. *)
Theorem build_date_dimension_grows
    (df df' : Frame RawRecord) (cfg : Config) (log : list LogRecord)
    (dim : list DateDim.row) :
  df ⊆ df' →
  (build_date_dimension df cfg log).1 = inr dim →
  ∃ before after,
    (build_date_dimension df' cfg log).1 = inr (before ++ dim ++ after).
Proof.
  intros Hsub.
  assert (Hdays : ∀ d, d ∈ days_of df → d ∈ days_of df').
  { unfold days_of. intros d (t & -> & Ht)%list_elem_of_fmap.
    apply list_elem_of_fmap_2. apply list_elem_of_omap in Ht as (ir & Hir & Hd).
    apply list_elem_of_omap. exists ir. split; [by apply Hsub|done]. }
  destruct (build_date_dimension_span df cfg log)
    as [[Hnil ->]|(lo & hi & Hlo & Hhi & Hb & ->)]; [done|].
  cbn [fst]. intros [= <-].
  destruct (build_date_dimension_span df' cfg log)
    as [[Hnil' ->]|(lo' & hi' & Hlo' & Hhi' & Hb' & ->)].
  { apply Hdays in Hlo. rewrite Hnil' in Hlo. by apply elem_of_nil in Hlo. }
  pose proof (Hb' lo (Hdays _ Hlo)). pose proof (Hb' hi (Hdays _ Hhi)).
  pose proof (Hb hi Hhi).
  exists (date_row <$> seqZ lo' (lo - lo')),
         (date_row <$> seqZ (hi + 1) (hi' - hi)).
  cbn [fst]. f_equal. rewrite <- !fmap_app. f_equal.
  replace (hi' - lo' + 1) with ((lo - lo') + ((hi - lo + 1) + (hi' - hi))) by lia.
  rewrite seqZ_app by lia. f_equal.
  replace (lo' + (lo - lo')) with lo by lia.
  rewrite seqZ_app by lia. f_equal. f_equal. lia.
Qed.

Lemma build_date_dimension_grows_witness :
  ∃ before after,
    (build_date_dimension Sample.nine_days (Sample.config "mode" Sample.half) []).1
    = inr (before
           ++ [date_row 20394]
           ++ after).
Proof.
  apply (build_date_dimension_grows [(0, Sample.dated (Some 20394))]
           Sample.nine_days (Sample.config "mode" Sample.half) []).
  - intros ir Hir. apply list_elem_of_singleton in Hir as ->. by left.
  - reflexivity.
Defined.

(** ** The calendar of the date dimension *)

Section Gregorian.

Lemma same_date_eq (a b : Z * Z * Z) : same_date a b = true → a = b.
Proof.
  destruct a as [[??]?], b as [[??]?]. unfold same_date. cbn [fst snd].
  rewrite !andb_true_iff, !Z.eqb_eq. by intros [[-> ->] ->].
Qed.

Lemma all_from_spec (ok : Z → bool) (n : nat) (z k : Z) :
  all_from ok n z = true → z ≤ k < z + Z.of_nat n → ok k = true.
Proof.
  revert z. induction n as [|n IH]; intros z; cbn [all_from]; [lia|].
  intros [Hz Hrest]%andb_true_iff Hk.
  destruct (decide (k = z)) as [->|]; [done|]. apply (IH (z + 1)); [done|lia].
Qed.

Lemma common_days : all_from common_day_ok 364 0 = true.
Proof. vm_compute. reflexivity. Qed.

Lemma common_day (doy : Z) :
  0 ≤ doy ≤ 363 →
  valid_in false (month_day doy) = true
  ∧ ∀ leap, month_day (doy + 1) = next_in leap (month_day doy).
Proof.
  intros Hd. pose proof (all_from_spec _ _ _ doy common_days ltac:(lia)) as Hok.
  unfold common_day_ok in Hok. rewrite !andb_true_iff in Hok.
  destruct Hok as [[Hv Hf] Ht]. split; [done|].
  intros [|]; by apply same_date_eq.
Qed.

Lemma is_leap_add_era (y k : Z) : is_leap (y + k * 400) = is_leap y.
Proof.
  unfold is_leap.
  replace ((y + k * 400) `mod` 4) with (y `mod` 4)
    by (replace (y + k * 400) with (y + (100 * k) * 4) by lia;
        by rewrite Z.mod_add by lia).
  replace ((y + k * 400) `mod` 100) with (y `mod` 100)
    by (replace (y + k * 400) with (y + (4 * k) * 100) by lia;
        by rewrite Z.mod_add by lia).
  by rewrite Z.mod_add by lia.
Qed.

Lemma yoe_of_common (y doy : Z) :
  0 ≤ y < 400 → 0 ≤ doy ≤ 364 → yoe_of (year_start y + doy) = y.
Proof.
  intros Hy Hd. unfold yoe_of, year_start. Z.div_mod_to_equations. lia.
Qed.

Lemma yoe_of_leap_day (y : Z) :
  0 ≤ y < 400 → is_leap (y + 1) = true → yoe_of (year_start y + 365) = y.
Proof.
  intros Hy Hl%is_leap_spec. unfold yoe_of, year_start.
  Z.div_mod_to_equations. lia.
Qed.

Lemma year_start_succ (y : Z) :
  0 ≤ y < 399 →
  year_start (y + 1) = year_start y + (if is_leap (y + 1) then 366 else 365).
Proof.
  intros Hy. unfold year_start.
  destruct (is_leap (y + 1)) eqn:Hl.
  - apply is_leap_spec in Hl. Z.div_mod_to_equations. lia.
  - assert (Hn : ¬ (((y + 1) `mod` 4 = 0 ∧ (y + 1) `mod` 100 ≠ 0)
                     ∨ (y + 1) `mod` 400 = 0))
      by (rewrite <- is_leap_spec; congruence).
    Z.div_mod_to_equations. lia.
Qed.

Lemma doy_of_year_day (y doy : Z) :
  yoe_of (year_start y + doy) = y → doy_of (year_start y + doy) = doy.
Proof. intros Hy. unfold doy_of. rewrite Hy. unfold year_start. lia. Qed.

(** From a day of the era to the next one. *)
Lemma year_of_era_succ (doe : Z) :
  0 ≤ doe < 146096 →
  (yoe_of (doe + 1) = yoe_of doe ∧ doy_of (doe + 1) = doy_of doe + 1)
  ∨ (yoe_of (doe + 1) = yoe_of doe + 1 ∧ doy_of (doe + 1) = 0
     ∧ doy_of doe = (if is_leap (yoe_of doe + 1) then 365 else 364)).
Proof.
  intros Hdoe.
  destruct (year_of_era doe ltac:(lia)) as (Hy & Hd & Hleap).
  pose proof (doe_year_day doe) as Hsplit.
  set (y := yoe_of doe) in *. set (doy := doy_of doe) in *.
  assert (Hy399 : y = 399 → doy < 365).
  { intros Hy'. rewrite Hy' in Hsplit. unfold year_start in Hsplit.
    change (399 `div` 4) with 99 in Hsplit. change (399 `div` 100) with 3 in Hsplit.
    lia. }
  assert (Hroll : y < 399 →
                  doy = (if is_leap (y + 1) then 365 else 364) →
                  yoe_of (doe + 1) = y + 1 ∧ doy_of (doe + 1) = 0).
  { intros Hlt Hlast.
    assert (Hnext : doe + 1 = year_start (y + 1) + 0).
    { rewrite year_start_succ by lia. destruct (is_leap (y + 1)); lia. }
    rewrite Hnext.
    assert (Hyoe : yoe_of (year_start (y + 1) + 0) = y + 1)
      by (apply yoe_of_common; lia).
    split; [done|]. by apply doy_of_year_day. }
  assert (Hstay : ∀ doy', doy' = doy + 1 → yoe_of (year_start y + doy') = y →
                  yoe_of (doe + 1) = y ∧ doy_of (doe + 1) = doy + 1).
  { intros doy' -> Hyoe.
    replace (doe + 1) with (year_start y + (doy + 1)) by lia.
    split; [done|]. by apply doy_of_year_day. }
  destruct (decide (doy ≤ 363)) as [Hcommon|Hlate].
  { left. apply (Hstay (doy + 1)); [done|]. apply yoe_of_common; lia. }
  destruct (is_leap (y + 1)) eqn:Hl.
  - destruct (decide (doy = 364)) as [H364|].
    + left. apply (Hstay 365); [lia|]. by apply yoe_of_leap_day; [lia|].
    + right. assert (doy = 365) by lia.
      destruct Hroll as [? ?]; [lia|lia|]. done.
  - assert (doy = 364).
    { destruct (decide (doy = 365)) as [H365|]; [|lia].
      specialize (Hleap H365). congruence. }
    right. assert (y < 399).
    { destruct (decide (y = 399)) as [Hy'|]; [|lia].
      rewrite Hy' in Hl. by vm_compute in Hl. }
    destruct Hroll as [? ?]; [lia|lia|]. done.
Qed.

Lemma valid_in_mono (ymd : Z * Z * Z) : valid_in false ymd = true → valid_in true ymd = true.
Proof.
  unfold valid_in, days_in. rewrite !andb_true_iff, !Z.leb_le.
  intros [[[? ?] ?] Hd]. repeat split; try done.
  destruct (ymd.1.2 =? 2); [lia|done].
Qed.

Lemma add_years_next_in (leap : bool) (k : Z) (ymd : Z * Z * Z) :
  next_in leap (add_years k ymd) = add_years k (next_in leap ymd).
Proof.
  destruct ymd as [[y m] d]. unfold next_in, add_years. cbn [fst snd].
  destruct (d <? days_in leap m); [done|].
  destruct (m <? 12); cbn [fst snd]; f_equal; f_equal; lia.
Qed.

Lemma valid_in_add_years (leap : bool) (k : Z) (ymd : Z * Z * Z) :
  valid_in leap (add_years k ymd) = valid_in leap ymd.
Proof. done. Qed.

Lemma era_succ (d : Z) :
  doe_of d < 146096 → era_of (d + 1) = era_of d ∧ doe_of (d + 1) = doe_of d + 1.
Proof. unfold era_of, doe_of. intros Hd. Z.div_mod_to_equations. lia. Qed.

Lemma era_wrap (d : Z) :
  doe_of d = 146096 → era_of (d + 1) = era_of d + 1 ∧ doe_of (d + 1) = 0.
Proof. unfold era_of, doe_of. intros Hd. Z.div_mod_to_equations. lia. Qed.

Lemma valid_date_add_years (k : Z) (ymd : Z * Z * Z) (leap : bool) :
  is_leap (ymd.1.1 + k) = leap →
  valid_date (add_years k ymd) = valid_in leap ymd.
Proof. intros <-. done. Qed.

Lemma next_day_add_years (k : Z) (ymd : Z * Z * Z) (leap : bool) :
  is_leap (ymd.1.1 + k) = leap →
  next_day (add_years k ymd) = add_years k (next_in leap ymd).
Proof. intros <-. unfold next_day. by rewrite add_years_next_in. Qed.

(** The calendar of [Calendar.civil] is the Gregorian one: every day
    number is a date that exists, and the next day number is the next
    date. *)
Lemma civil_gregorian (d : Z) :
  valid_date (Calendar.civil d) = true
  ∧ Calendar.civil (d + 1) = next_day (Calendar.civil d).
Proof.
  rewrite !civil_stages.
  assert (Hdoe : 0 ≤ doe_of d < 146097) by (apply Z.mod_pos_bound; done).
  destruct (year_of_era (doe_of d) Hdoe) as (Hy & Hdoy & Hleap).
  destruct (decide (doe_of d = 146096)) as [Hlast|Hnot].
  { (* the last day of an era *)
    destruct (era_wrap d Hlast) as [-> ->]. rewrite Hlast.
    change (yoe_of 146096) with 399. change (doy_of 146096) with 365.
    change (yoe_of 0) with 0. change (doy_of 0) with 0.
    change (month_day 365) with (1, 2, 29). change (month_day 0) with (0, 3, 1).
    assert (Hl : is_leap ((1, 2, 29).1.1 + (399 + era_of d * 400)) = true).
    { cbn [fst]. replace (1 + (399 + era_of d * 400)) with (400 + era_of d * 400) by lia.
      by rewrite is_leap_add_era. }
    rewrite (valid_date_add_years _ _ _ Hl), (next_day_add_years _ _ _ Hl).
    split; [done|]. unfold add_years. cbn. f_equal. f_equal. lia. }
  destruct (era_succ d ltac:(lia)) as [-> Hdoe'].
  destruct (year_of_era (doe_of (d + 1)) ltac:(lia)) as (_ & _ & Hleap').
  rewrite Hdoe' in *.
  pose proof (year_of_era_succ (doe_of d) ltac:(lia)) as Hsucc.
  set (y := yoe_of (doe_of d)) in *. set (doy := doy_of (doe_of d)) in *.
  set (e := era_of d).
  assert (Hcarry : is_leap (1 + (y + e * 400)) = is_leap (y + 1)).
  { replace (1 + (y + e * 400)) with (y + 1 + e * 400) by lia.
    apply is_leap_add_era. }
  destruct (decide (doy ≤ 363)) as [Hcommon|Hlate].
  { destruct (common_day doy ltac:(lia)) as [Hv Hn].
    destruct Hsucc as [[-> ->]|(_ & _ & Hroll)]; [|destruct (is_leap _); lia].
    rewrite (valid_date_add_years _ _ _ eq_refl), (next_day_add_years _ _ _ eq_refl).
    rewrite <- Hn. split; [|done].
    destruct (is_leap ((month_day doy).1.1 + (y + e * 400)));
      [by apply valid_in_mono|done]. }
  destruct (decide (doy = 364)) as [H364|H365].
  - rewrite H364 in *. change (month_day 364) with (1, 2, 28).
    rewrite (valid_date_add_years _ (1, 2, 28) _ Hcarry),
      (next_day_add_years _ (1, 2, 28) _ Hcarry).
    split; [by destruct (is_leap _)|].
    destruct Hsucc as [[Hy' Hd']|(-> & -> & Hroll)].
    + rewrite Hy', Hd' in Hleap' |- *. rewrite Hleap' by done. done.
    + destruct (is_leap (y + 1)); [lia|].
      change (month_day 0) with (0, 3, 1). unfold add_years. cbn.
      f_equal. f_equal. lia.
  - assert (H365' : doy = 365) by lia. rewrite H365' in *.
    change (month_day 365) with (1, 2, 29).
    rewrite (valid_date_add_years _ (1, 2, 29) _ Hcarry),
      (next_day_add_years _ (1, 2, 29) _ Hcarry).
    rewrite Hleap by done. split; [done|].
    destruct Hsucc as [[_ Hbad]|(-> & -> & _)].
    { destruct (year_of_era (doe_of d + 1) ltac:(lia)) as (_ & ? & _). lia. }
    change (month_day 0) with (0, 3, 1). unfold add_years. cbn.
    f_equal. f_equal. lia.
Qed.


End Gregorian.

(** X10.  Every row of the date dimension carries a date that exists in the
    Gregorian calendar, with the quarter of its month, and from one row to
    the next the timestamp advances by one day and the (year, month, day) by
    one calendar day. *)
Theorem build_date_dimension_calendar
    (df : Frame RawRecord) (cfg : Config) (log : list LogRecord)
    (dim : list DateDim.row) :
  (build_date_dimension df cfg log).1 = inr dim →
  (∀ r, r ∈ dim →
     valid_date (DateDim.year r, DateDim.month r, DateDim.day r) = true
     ∧ 1 ≤ DateDim.quarter r ≤ 4
     ∧ 3 * DateDim.quarter r - 2 ≤ DateDim.month r ≤ 3 * DateDim.quarter r)
  ∧ (∀ (i : nat) r r', dim !! i = Some r → dim !! S i = Some r' →
       DateDim.full_date r' = DateDim.full_date r + Calendar.ns_per_day
       ∧ (DateDim.year r', DateDim.month r', DateDim.day r')
         = next_day (DateDim.year r, DateDim.month r, DateDim.day r)).
Proof.
  destruct (build_date_dimension_span df cfg log)
    as [[_ ->]|(lo & hi & _ & _ & _ & ->)]; [done|].
  cbn [fst]. intros [= <-].
  assert (Hymd : ∀ d, (DateDim.year (date_row d), DateDim.month (date_row d),
                       DateDim.day (date_row d)) = Calendar.civil d).
  { intros d. cbn [date_row DateDim.year DateDim.month DateDim.day].
    unfold Calendar.year, Calendar.month, Calendar.day.
    by destruct (Calendar.civil d) as [[??]?]. }
  split.
  - intros r (d & -> & _)%list_elem_of_fmap. rewrite Hymd.
    destruct (civil_gregorian d) as [Hv _]. split; [done|].
    cbn [date_row DateDim.quarter DateDim.month].
    unfold valid_date, valid_in in Hv. rewrite !andb_true_iff, !Z.leb_le in Hv.
    unfold Calendar.quarter, Calendar.month.
    destruct (Calendar.civil d) as [[y m] dd]. cbn [fst snd] in *.
    Z.div_mod_to_equations. lia.
  - intros i r r'. rewrite !list_lookup_fmap, !fmap_Some.
    intros (d & [-> Hi]%lookup_seqZ & ->) (d' & [-> Hi']%lookup_seqZ & ->).
    rewrite !Hymd. split.
    + cbn. unfold Calendar.midnight. lia.
    + replace (lo + Z.of_nat (S i)) with (lo + Z.of_nat i + 1) by lia.
      apply civil_gregorian.
Qed.

Lemma build_date_dimension_calendar_witness :
  (∀ r, r ∈ date_row <$> seqZ 20394 9 →
     valid_date (DateDim.year r, DateDim.month r, DateDim.day r) = true
     ∧ 1 ≤ DateDim.quarter r ≤ 4
     ∧ 3 * DateDim.quarter r - 2 ≤ DateDim.month r ≤ 3 * DateDim.quarter r)
  ∧ DateDim.quarter (date_row 20394) = 4.
Proof.
  split; [|reflexivity].
  refine (proj1 (build_date_dimension_calendar Sample.nine_days
                   (Sample.config "mode" Sample.half) [] _ _)).
  reflexivity.
Defined.

(** ** The buyer dimension *)

Lemma drop_duplicates_from_filter {A} `{EqDecision A}
    (P : A → Prop) `{∀ x, Decision (P x)} (seen l : list A) :
  filter P (drop_duplicates_from seen l)
  = drop_duplicates_from (filter P seen) (filter P l).
Proof.
  revert seen. induction l as [|x l IH]; intros seen; [done|].
  cbn [drop_duplicates_from]. rewrite (filter_cons P x l).
  destruct (decide (P x)) as [HP|HP]; cbn [drop_duplicates_from].
  - destruct (decide (x ∈ seen)) as [Hin|Hin],
      (decide (x ∈ filter P seen)) as [Hin'|Hin'].
    + apply IH.
    + exfalso. apply Hin'. by apply list_elem_of_filter.
    + exfalso. by apply list_elem_of_filter in Hin' as [_ ?].
    + rewrite filter_cons_True by done. f_equal.
      rewrite IH. by rewrite filter_cons_True.
  - destruct (decide (x ∈ seen)); [apply IH|].
    rewrite filter_cons_False by done. rewrite IH.
    by rewrite filter_cons_False.
Qed.

Lemma drop_duplicates_filter {A} `{EqDecision A}
    (P : A → Prop) `{∀ x, Decision (P x)} (l : list A) :
  filter P (drop_duplicates l) = drop_duplicates (filter P l).
Proof. apply (drop_duplicates_from_filter P [] l). Qed.

Lemma drop_duplicates_sublist {A} `{EqDecision A} (seen l : list A) :
  sublist (drop_duplicates_from seen l) l.
Proof.
  revert seen. induction l as [|x l IH]; intros seen; [done|].
  cbn [drop_duplicates_from].
  destruct (decide (x ∈ seen)); [apply sublist_cons|apply sublist_skip]; apply IH.
Qed.

Lemma NoDup_all_equal_length {A} (l : list A) (a : A) :
  NoDup l → (∀ x, x ∈ l → x = a) → (length l ≤ 1)%nat.
Proof.
  intros Hnd Hall. destruct l as [|x [|y l]]; cbn; [lia|lia|]. exfalso.
  apply NoDup_cons in Hnd as [Hx _]. apply Hx.
  rewrite (Hall x) by (by left). rewrite (Hall y) at 1 by (right; by left).
  by left.
Qed.

Lemma load_buyer_dimension_dropped (df : Frame RawRecord) :
  let buyers := drop_duplicates (BuyerDim.Build_row ∘ buyer_id <$> df.*2) in
  len buyers - len (filter (λ r, is_Some (BuyerDim.buyer_id r)) buyers)
  = if bool_decide (None ∈ buyer_ids df) then 1 else 0.
Proof.
  cbn zeta. set (buyers := drop_duplicates _).
  destruct (drop_duplicates_from_spec [] (BuyerDim.Build_row ∘ buyer_id <$> df.*2))
    as [Hnd Hin]. fold (drop_duplicates (BuyerDim.Build_row ∘ buyer_id <$> df.*2)) in *.
  fold buyers in Hnd, Hin.
  unfold len. rewrite (length_filter_split (λ r, is_Some (BuyerDim.buyer_id r)) buyers).
  set (nulls := filter (λ r, ¬ is_Some (BuyerDim.buyer_id r)) buyers).
  assert (Hnull : ∀ r, r ∈ nulls ↔ r = BuyerDim.Build_row None ∧ None ∈ buyer_ids df).
  { intros [b]. unfold nulls. rewrite list_elem_of_filter, Hin. cbn.
    unfold buyer_ids. rewrite list_fmap_compose, list_elem_of_fmap.
    split.
    - intros (Hno & (b' & [= ->] & Hb') & _).
      destruct b' as [z|]; [exfalso; apply Hno; by eexists|done].
    - intros [[= ->] Hb]. split; [by intros [? ?]|]. split; [by exists None|].
      apply not_elem_of_nil. }
  assert (Hle : (length nulls ≤ 1)%nat).
  { apply (NoDup_all_equal_length _ (BuyerDim.Build_row None)).
    - by apply NoDup_filter.
    - by intros r [? _]%Hnull. }
  case_bool_decide as Hnone.
  - assert (BuyerDim.Build_row None ∈ nulls) as Hin' by (by apply Hnull).
    destruct nulls; [by apply elem_of_nil in Hin'|]. cbn in *. lia.
  - destruct nulls as [|r ?]; [cbn; lia|]. exfalso. apply Hnone.
    destruct (Hnull r) as [Hr _]. by destruct Hr; [by left|].
Qed.

(** X11.  On the cleaned frame [run_etl] passes, whose [buyer_id] column is
    a nullable integer, the buyer dimension never raises.  Its rows are the
    distinct non-null buyer identifiers of the frame, in order of first
    occurrence; the warning is logged exactly when some row has no buyer
    identifier, and the count it gives is always 1, however many such rows
    there are, because duplicates are dropped first. *)
Theorem load_buyer_dimension_distinct
    (df : Frame RawRecord) (cfg : Config) (log : list LogRecord) :
  ∃ rows,
    load_buyer_dimension df cfg log = (inr rows, log ++ buyer_warning df)
    ∧ rows = drop_duplicates
               (filter (λ r, is_Some (BuyerDim.buyer_id r))
                       (BuyerDim.Build_row ∘ buyer_id <$> df.*2))
    ∧ NoDup rows
    ∧ (∀ b, BuyerDim.Build_row b ∈ rows ↔ is_Some b ∧ b ∈ buyer_ids df)
    ∧ sublist rows (BuyerDim.Build_row ∘ buyer_id <$> df.*2).
Proof.
  eexists. split; [|split; [reflexivity|]].
  - unfold load_buyer_dimension. cbn zeta.
    rewrite load_buyer_dimension_dropped, drop_duplicates_filter.
    unfold buyer_warning. eff.
    destruct (bool_decide (None ∈ buyer_ids df)); cbn; [done|].
    by rewrite app_nil_r.
  - destruct (drop_duplicates_from_spec []
                (filter (λ r, is_Some (BuyerDim.buyer_id r))
                        (BuyerDim.Build_row ∘ buyer_id <$> df.*2))) as [Hnd Hin].
    split; [done|]. split.
    + intros b. unfold drop_duplicates. rewrite Hin, list_elem_of_filter.
      unfold buyer_ids. rewrite list_fmap_compose, list_elem_of_fmap. cbn. split.
      * intros [[Hb (b' & [= ->] & ?)] _]. done.
      * intros [Hb ?]. split; [|apply not_elem_of_nil]. split; [done|by exists b].
    + etrans; [apply drop_duplicates_sublist|apply sublist_filter].
Qed.

(** ** The item dimension, row order *)

Lemma StronglySorted_filter {A} (R : relation A) (P : A → Prop)
    `{∀ x, Decision (P x)} (l : list A) :
  StronglySorted R l → StronglySorted R (filter P l).
Proof.
  induction 1 as [|x l Hl IH Hx]; [constructor|].
  rewrite filter_cons. destruct (decide (P x)); [|done].
  constructor; [done|].
  apply Forall_forall. intros y [_ Hy]%list_elem_of_filter.
  by apply (proj1 (Forall_forall _ _) Hx).
Qed.

Lemma grouped_codes (item_df : list ItemDim.row) :
  ItemDim.item_code <$> dropna_item_id (groupby_agg item_df)
  = Some <$> filter (λ k, is_Some (ItemDim.item_id (agg_group item_df k)))
                    (group_keys item_df).
Proof.
  unfold dropna_item_id, groupby_agg.
  by rewrite filter_fmap, <- list_fmap_compose.
Qed.

(** X12.  Under the [mode] strategy the rows come out in ascending code
    point order of [item_code], each code once, whatever the order of the
    input rows. *)
Theorem mode_strategy_sorted
    (df : Frame RawRecord) (cfg : Config) (log : list LogRecord)
    (rows : list ItemDim.row) :
  item_attributes cfg = "mode" →
  (load_item_dimension df cfg log).1 = inr rows →
  ∃ codes,
    ItemDim.item_code <$> rows = Some <$> codes
    ∧ StronglySorted Str.le codes
    ∧ NoDup codes.
Proof.
  intros Hmode. rewrite load_item_dimension_run.
  rewrite decide_True by done. cbn [fst]. intros [= <-].
  eexists. split; [apply grouped_codes|]. split.
  - apply StronglySorted_filter. unfold group_keys.
    apply StronglySorted_merge_sort; apply _.
  - apply NoDup_filter, group_keys_NoDup.
Qed.

Lemma mode_strategy_sorted_witness :
  ∃ codes,
    ItemDim.item_code <$> [Sample.item_out 65 1 [97%N]; Sample.item_out 66 5 [120%N]]
    = Some <$> codes
    ∧ StronglySorted Str.le codes
    ∧ NoDup codes.
Proof.
  apply (mode_strategy_sorted (reverse Sample.tied_names)
           (Sample.config "mode" Sample.half) []).
  - reflexivity.
  - vm_compute. reflexivity.
Defined.

Lemma count_of_Permutation {A} `{EqDecision A} (v : A) (l k : list A) :
  l ≡ₚ k → count_of v l = count_of v k.
Proof. intros Hp. unfold count_of. by rewrite Hp. Qed.

Lemma mode_nil (series : list (option (list N))) :
  mode series = [] → omap id series = [].
Proof.
  unfold mode. set (values := omap id series). intros Hs.
  destruct (decide (values = [])) as [?|Hne]; [done|]. exfalso.
  destruct (max_list_with_attained (λ v, count_of v values) values Hne)
    as (x & Hx & Hfx).
  pose proof (merge_sort_Permutation Str.le
    (filter (λ v, count_of v values
                  = max_list_with (λ v, count_of v values) values)
            (remove_dups values))) as Hp.
  rewrite Hs in Hp. symmetry in Hp. apply Permutation_nil_r in Hp.
  assert (Hin : x ∈ filter (λ v, count_of v values
                                 = max_list_with (λ v, count_of v values) values)
                           (remove_dups values))
    by (apply list_elem_of_filter; split; [done|by apply elem_of_remove_dups]).
  rewrite Hp in Hin. by apply elem_of_nil in Hin.
Qed.

Lemma mode_Permutation (series series' : list (option (list N))) :
  series ≡ₚ series' → mode series = mode series'.
Proof.
  intros Hp. unfold mode.
  assert (Hv : omap id series ≡ₚ omap id series') by (by rewrite Hp).
  set (values := omap id series) in *. set (values' := omap id series') in *.
  apply (Sorted_unique Str.le).
  - apply Sorted_merge_sort; apply _.
  - apply Sorted_merge_sort; apply _.
  - rewrite !merge_sort_Permutation.
    apply NoDup_Permutation.
    + apply NoDup_filter, NoDup_remove_dups.
    + apply NoDup_filter, NoDup_remove_dups.
    + intros v. rewrite !list_elem_of_filter, !elem_of_remove_dups.
      rewrite (count_of_Permutation v values values' Hv).
      assert (Htop : max_list_with (λ v, count_of v values) values
                     = max_list_with (λ v, count_of v values') values').
      { assert (Hext : ∀ l, max_list_with (λ v, count_of v values) l
                            = max_list_with (λ v, count_of v values') l).
        { intros l. induction l as [|a l IHl]; [done|]. cbn.
          by rewrite IHl, (count_of_Permutation a values values' Hv). }
        rewrite Hext. by apply max_list_with_Permutation_proper. }
      rewrite Htop. by rewrite Hv.
Qed.

Lemma canon_Permutation (series series' : list (option (list N))) :
  series ≡ₚ series' → canon series = canon series'.
Proof.
  intros Hp. unfold canon. rewrite <- (mode_Permutation _ _ Hp).
  destruct (mode series) as [|m rest] eqn:Hm; [|done].
  assert (Hnone : ∀ l : list (option (list N)), omap id l = [] → mjoin (head l) = None).
  { intros [|[v|] l]; cbn; try done. }
  rewrite (Hnone series) by (by apply mode_nil).
  rewrite (Hnone series'); [done|].
  apply mode_nil. by rewrite <- (mode_Permutation _ _ Hp).
Qed.

Lemma group_keys_Permutation (item_df item_df' : list ItemDim.row) :
  item_df ≡ₚ item_df' → group_keys item_df = group_keys item_df'.
Proof.
  intros Hp. unfold group_keys. apply (Sorted_unique Str.le).
  - apply Sorted_merge_sort; apply _.
  - apply Sorted_merge_sort; apply _.
  - rewrite !merge_sort_Permutation.
    apply NoDup_Permutation; [apply NoDup_remove_dups..|].
    intros k. rewrite !elem_of_remove_dups. by rewrite Hp.
Qed.

Lemma agg_group_Permutation (item_df item_df' : list ItemDim.row) (k : list N) :
  item_df ≡ₚ item_df' →
  item_attributes_of (agg_group item_df k) = item_attributes_of (agg_group item_df' k)
  ∧ (is_Some (ItemDim.item_id (agg_group item_df k))
     ↔ is_Some (ItemDim.item_id (agg_group item_df' k))).
Proof.
  intros Hp.
  assert (Hg : group_of item_df k ≡ₚ group_of item_df' k)
    by (unfold group_of; by rewrite Hp).
  split.
  - unfold item_attributes_of, agg_group. cbn.
    rewrite (canon_Permutation (ItemDim.item_name <$> group_of item_df k)
               (ItemDim.item_name <$> group_of item_df' k)) by (by rewrite Hg).
    rewrite (canon_Permutation (ItemDim.category <$> group_of item_df k)
               (ItemDim.category <$> group_of item_df' k)) by (by rewrite Hg).
    rewrite (canon_Permutation (ItemDim.version <$> group_of item_df k)
               (ItemDim.version <$> group_of item_df' k)) by (by rewrite Hg).
    done.
  - cbn. rewrite <- !not_eq_None_Some, !agg_first_None.
    split; intros Hno Hall; apply Hno; intros x Hx; apply Hall.
    + by rewrite <- Hg.
    + by rewrite Hg.
Qed.

(** X13.  Under the [mode] strategy the item dimension does not depend on
    the order of the input rows, except for [item_id], which is the first
    non-null identifier of the group in row order: two frames with the same
    rows in another order give the same codes, names, categories and
    versions, row by row, and the same log. *)
Theorem mode_strategy_row_order
    (df df' : Frame RawRecord) (cfg : Config) (log : list LogRecord)
    (rows rows' : list ItemDim.row) :
  item_attributes cfg = "mode" →
  df.*2 ≡ₚ df'.*2 →
  (load_item_dimension df cfg log).1 = inr rows →
  (load_item_dimension df' cfg log).1 = inr rows' →
  item_attributes_of <$> rows = item_attributes_of <$> rows'
  ∧ (load_item_dimension df cfg log).2 = (load_item_dimension df' cfg log).2.
Proof.
  intros Hmode Hperm. rewrite !load_item_dimension_run.
  rewrite !decide_True by done. cbn [fst snd]. intros [= <-] [= <-].
  assert (Hp : item_frame df cfg ≡ₚ item_frame df' cfg).
  { unfold item_frame. destruct (default false _); by rewrite Hperm. }
  set (I := item_frame df cfg) in *. set (I' := item_frame df' cfg) in *.
  assert (Hrows : item_attributes_of <$> dropna_item_id (groupby_agg I)
                  = item_attributes_of <$> dropna_item_id (groupby_agg I')).
  { unfold dropna_item_id, groupby_agg.
    rewrite (group_keys_Permutation I I' Hp).
    induction (group_keys I') as [|k ks IH]; [done|].
    rewrite !fmap_cons, !filter_cons.
    destruct (agg_group_Permutation I I' k Hp) as [Hattr Hsome].
    destruct (decide (is_Some (ItemDim.item_id (agg_group I k)))) as [Hk|Hk],
      (decide (is_Some (ItemDim.item_id (agg_group I' k)))) as [Hk'|Hk'];
      try tauto.
    by rewrite !fmap_cons, Hattr, IH. }
  split; [done|]. f_equal. f_equal.
  assert (Hlen : ∀ J, len (groupby_agg J) = len (group_keys J)).
  { intros J. unfold groupby_agg, len. by rewrite length_fmap. }
  rewrite !Hlen, (group_keys_Permutation I I' Hp). f_equal.
  unfold len. f_equal.
  rewrite <- (length_fmap item_attributes_of (dropna_item_id (groupby_agg I))).
  rewrite <- (length_fmap item_attributes_of (dropna_item_id (groupby_agg I'))).
  by rewrite Hrows.
Qed.

Lemma mode_strategy_row_order_witness :
  item_attributes_of <$> [Sample.item_out 65 1 [97%N]; Sample.item_out 66 5 [120%N]]
  = item_attributes_of <$> [Sample.item_out 65 1 [97%N]; Sample.item_out 66 5 [120%N]]
  ∧ (load_item_dimension Sample.tied_names (Sample.config "mode" Sample.half) []).2
    = (load_item_dimension (reverse Sample.tied_names)
         (Sample.config "mode" Sample.half) []).2.
Proof.
  apply (mode_strategy_row_order Sample.tied_names (reverse Sample.tied_names)
           (Sample.config "mode" Sample.half) []).
  - reflexivity.
  - rewrite fmap_reverse. symmetry. apply reverse_Permutation.
  - vm_compute. reflexivity.
  - vm_compute. reflexivity.
Defined.

(** ** The canonicalizer: shape and case *)

Section CanonicalForm.

#[local] Open Scope N_scope.

Implicit Types (s t : list N) (c : N).

Lemma fold_isspace c :
  Str.isspace (if Str.is_ascii_upper c then c + 32 else c) = Str.isspace c.
Proof.
  unfold Str.is_ascii_upper.
  destruct (N.leb_spec 65 c), (N.leb_spec c 90); cbn [andb]; try done.
  rewrite !isspace_letter; [done|lia|lia].
Qed.

Lemma fold_case_cons c s :
  fold_case (c :: s) = (if Str.is_ascii_upper c then c + 32 else c) :: fold_case s.
Proof. done. Qed.

Lemma lstrip_fold_case s : Str.lstrip (fold_case s) = fold_case (Str.lstrip s).
Proof.
  induction s as [|c s IH]; [done|].
  rewrite fold_case_cons. cbn [Str.lstrip]. rewrite fold_isspace.
  destruct (Str.isspace c); [done|]. by rewrite fold_case_cons.
Qed.

Lemma strip_fold_case s : Str.strip (fold_case s) = fold_case (Str.strip s).
Proof.
  unfold Str.strip, Str.rstrip. rewrite lstrip_fold_case.
  unfold fold_case at 1. rewrite <- fmap_reverse.
  fold (fold_case (reverse (Str.lstrip s))). rewrite lstrip_fold_case.
  unfold fold_case. by rewrite fmap_reverse.
Qed.

Lemma collapse_fold_case (p : bool) s :
  Str.collapse_from p (fold_case s) = fold_case (Str.collapse_from p s).
Proof.
  revert p. induction s as [|c s IH]; intros p; [done|].
  rewrite fold_case_cons, !collapse_from_cons, fold_isspace.
  destruct (Str.isspace c); [destruct p|];
    rewrite ?fold_case_cons, ?IH; done.
Qed.

Lemma title_fold_case (p : bool) s :
  Str.title_from p (fold_case s) = Str.title_from p s.
Proof.
  revert p. induction s as [|c s IH]; intros p; [done|].
  rewrite fold_case_cons. cbn [Str.title_from].
  assert (Hc : Str.is_cased (if Str.is_ascii_upper c then c + 32 else c)
               = Str.is_cased c
               ∧ Str.to_lower_full (if Str.is_ascii_upper c then c + 32 else c)
                 = Str.to_lower_full c
               ∧ Str.to_title_full (if Str.is_ascii_upper c then c + 32 else c)
                 = Str.to_title_full c).
  { destruct (Str.is_ascii_upper c) eqn:Hup; [|done].
    unfold Str.is_ascii_upper in Hup.
    apply andb_true_iff in Hup as [Hlo%N.leb_le Hhi%N.leb_le].
    unfold Str.is_cased, Str.to_lower_full, Str.to_title_full,
      Str.is_ascii_upper, Str.is_ascii_lower.
    rewrite (proj2 (N.leb_le 65 c)), (proj2 (N.leb_le c 90)) by done.
    rewrite (proj2 (N.leb_gt 97 c)) by lia.
    rewrite (proj2 (N.leb_gt (c + 32) 90)) by lia.
    rewrite (proj2 (N.leb_le 97 (c + 32))), (proj2 (N.leb_le (c + 32) 122)) by lia.
    rewrite (proj2 (N.eqb_neq (c + 32) 304)) by lia.
    cbn. rewrite ?andb_false_r. cbn. repeat split. f_equal. lia. }
  destruct Hc as (-> & -> & ->). by rewrite IH.
Qed.

Lemma canon_str_fold_case s : canon_str (fold_case s) = canon_str s.
Proof.
  unfold canon_str, Str.title, Str.collapse_ws.
  by rewrite strip_fold_case, collapse_fold_case, title_fold_case.
Qed.

Lemma length_lstrip s : (length (Str.lstrip s) ≤ length s)%nat.
Proof.
  induction s as [|c s IH]; [done|]. cbn [Str.lstrip].
  destruct (Str.isspace c); cbn; lia.
Qed.

Lemma length_strip s : (length (Str.strip s) ≤ length s)%nat.
Proof.
  unfold Str.strip, Str.rstrip. rewrite length_reverse.
  etrans; [apply length_lstrip|]. rewrite length_reverse. apply length_lstrip.
Qed.

Lemma length_collapse (p : bool) s : (length (Str.collapse_from p s) ≤ length s)%nat.
Proof.
  revert p. induction s as [|c s IH]; intros p; [done|].
  rewrite collapse_from_cons.
  destruct (Str.isspace c); [destruct p|]; cbn;
    [pose proof (IH true)|pose proof (IH true)|pose proof (IH false)]; lia.
Qed.

Lemma length_title (p : bool) s : ascii s → length (Str.title_from p s) = length s.
Proof.
  intros Ha. revert p. induction Ha as [|c s Hc _ IH]; intros p; [done|].
  cbn [Str.title_from].
  destruct (ascii_case_step p c Hc) as (x & -> & _). cbn. by rewrite IH.
Qed.

Lemma ascii_title (p : bool) s : ascii s → ascii (Str.title_from p s).
Proof.
  intros Ha. revert p. induction Ha as [|c s Hc _ IH]; intros p; [constructor|].
  cbn [Str.title_from].
  destruct (ascii_case_step p c Hc) as (x & -> & Hx & _). cbn.
  constructor; [done|apply IH].
Qed.

Lemma lstrip_blank s : blank s → Str.lstrip s = [].
Proof.
  induction 1 as [|c s Hc _ IH]; [done|]. cbn [Str.lstrip]. by rewrite Hc.
Qed.

Lemma lstrip_nil_blank s : Str.lstrip s = [] → blank s.
Proof.
  induction s as [|c s IH]; [constructor|]. cbn [Str.lstrip].
  destruct (Str.isspace c) eqn:Hc; [|done]. intros Hs. constructor; [done|by apply IH].
Qed.

Lemma strip_nil_blank s : Str.strip s = [] ↔ blank s.
Proof.
  unfold Str.strip, Str.rstrip. split.
  - intros Hs. apply lstrip_nil_blank.
    destruct (decide (Str.lstrip s = [])) as [|Hne]; [done|]. exfalso.
    assert (Hb : blank (reverse (Str.lstrip s))).
    { apply lstrip_nil_blank. apply (f_equal reverse) in Hs.
      by rewrite reverse_involutive in Hs. }
    destruct (lstrip_head s) as [?|(c & s' & Hs' & Hc)]; [done|].
    rewrite Hs' in Hb. unfold blank in Hb.
    apply Forall_reverse in Hb. rewrite reverse_involutive in Hb.
    apply Forall_cons in Hb as [Hb _]. congruence.
  - intros Hb. by rewrite (lstrip_blank s Hb).
Qed.

End CanonicalForm.

(** X14.  The canonical form of an ASCII category: no leading or trailing
    whitespace, whitespace only as single spaces between words, no longer
    than the input, and ASCII again.  It is the empty string, and not a
    missing value, exactly when the input is blank; a missing cell stays
    missing. *)
Theorem canon_str_shape (s : PyStr) :
  ascii s →
  tidy (canon_str s) = true
  ∧ ascii (canon_str s)
  ∧ (length (canon_str s) ≤ length s)%nat
  ∧ (canon_str s = [] ↔ blank s)
  ∧ canon_cell (Some s) = Some (canon_str s)
  ∧ canon_cell None = None.
Proof.
  intros Ha. unfold canon_str, Str.title, Str.collapse_ws.
  assert (Ha' : ascii (Str.collapse_from false (Str.strip s)))
    by (apply ascii_collapse, ascii_strip, Ha).
  split; [|split; [|split; [|split; [|done]]]].
  - pose proof (title_tidy _ Ha') as Ht. unfold Str.title in Ht. rewrite Ht.
    apply collapse_strip_tidy.
  - by apply ascii_title.
  - rewrite length_title by done.
    etrans; [apply length_collapse|apply length_strip].
  - rewrite <- strip_nil_blank. split.
    + intros Hnil. apply (f_equal length) in Hnil.
      rewrite length_title in Hnil by done.
      destruct (Str.strip s) as [|c s'] eqn:Hs; [done|]. exfalso.
      destruct (strip_shape s) as [Hno|(c' & s'' & Hs' & Hc & _)]; [congruence|].
      rewrite Hs in Hs'. injection Hs' as <- <-.
      rewrite collapse_from_cons, Hc in Hnil. done.
    + by intros ->.
Qed.

Lemma canon_str_shape_witness :
  tidy (canon_str Sample.home_appliances) = true
  ∧ (length (canon_str Sample.home_appliances)
     ≤ length Sample.home_appliances)%nat.
Proof.
  destruct (canon_str_shape Sample.home_appliances) as (Ht & _ & Hl & _).
  - unfold ascii, Sample.home_appliances. repeat constructor.
  - split; [exact Ht|exact Hl].
Defined.

(** X15.  The canonicalizer identifies the case variants of an ASCII string:
    two strings that differ only in the case of their letters have the same
    canonical form. *)
Theorem canon_str_case_insensitive (s t : PyStr) :
  ascii s → ascii t →
  fold_case s = fold_case t →
  canon_str s = canon_str t.
Proof.
  intros _ _ Hfold.
  by rewrite <- (canon_str_fold_case s), <- (canon_str_fold_case t), Hfold.
Qed.

Lemma canon_str_case_insensitive_witness :
  canon_str Sample.home_appliances = canon_str Fixture.home_appliances_upper.
Proof.
  apply canon_str_case_insensitive.
  - unfold ascii, Sample.home_appliances. repeat constructor.
  - unfold ascii, Fixture.home_appliances_upper. repeat constructor.
  - reflexivity.
Defined.

(** ** The fact loader: how many rows *)

Section FanOut.

Implicit Types (conn : Warehouse) (r : RawRecord) (j : Joined).

Lemma merge_left_singleton {L K} `{EqDecision K} (l : L) (on : L → K)
    (right : list (K * Z)) :
  merge_left [l] on right = (λ o, (l, o)) <$> lookup_keys (on l) right.
Proof.
  unfold merge_left, lookup_keys. rewrite bind_singleton.
  destruct (filter (λ kv, kv.1 = on l) right); [done|].
  by rewrite <- list_fmap_compose.
Qed.

Lemma merge_left_fmap {A L K} `{EqDecision K} (f : A → L) (l : list A)
    (on : L → K) (right : list (K * Z)) :
  merge_left (f <$> l) on right
  = l ≫= λ x, (λ o, (f x, o)) <$> lookup_keys (on (f x)) right.
Proof.
  induction l as [|x l IH]; [done|].
  rewrite fmap_cons, merge_left_cons, merge_left_singleton, IH. by rewrite bind_cons.
Qed.

Lemma merge_left_bind {A L K} `{EqDecision K} (f : A → list L) (l : list A)
    (on : L → K) (right : list (K * Z)) :
  merge_left (l ≫= f) on right = l ≫= λ x, merge_left (f x) on right.
Proof.
  induction l as [|x l IH]; [done|].
  by rewrite !bind_cons, merge_left_app, IH.
Qed.

Lemma fmap_list_bind {A B C} (g : B → C) (f : A → list B) (l : list A) :
  g <$> (l ≫= f) = l ≫= λ x, g <$> f x.
Proof.
  induction l as [|x l IH]; [done|]. by rewrite !bind_cons, fmap_app, IH.
Qed.

Lemma fmap_as_bind {A B} (g : A → B) (l : list A) : g <$> l = l ≫= λ x, [g x].
Proof. induction l as [|x l IH]; [done|]. by rewrite fmap_cons, bind_cons, IH. Qed.

Lemma join_keys_singleton conn r :
  join_keys conn [r]
  = dk ← lookup_keys (date r)
           ((λ kr, (Some (DateDim.full_date kr.2), kr.1)) <$> dim_date conn);
    ik ← lookup_keys (item_code r)
           ((λ kr, (ItemDim.item_code kr.2, kr.1)) <$> dim_item conn);
    bk ← lookup_keys (buyer_id r)
           ((λ kr, (BuyerDim.buyer_id kr.2, kr.1)) <$> dim_buyer conn);
    [{| candidate := r; j_date_key := dk; j_item_key := ik; j_buyer_key := bk |}].
Proof.
  unfold join_keys. rewrite merge_left_singleton.
  rewrite merge_left_fmap, merge_left_bind, fmap_list_bind.
  apply list_bind_ext; [|done]. intros dk. cbn [fst snd].
  rewrite merge_left_fmap, fmap_list_bind.
  apply list_bind_ext; [|done]. intros ik. cbn [fst snd].
  rewrite <- list_fmap_compose. by rewrite fmap_as_bind.
Qed.

Lemma length_filter_bind {A B} (P : B → Prop) `{∀ y, Decision (P y)}
    (f : A → list B) (l : list A) :
  length (filter P (l ≫= f)) = sum_list_with (λ x, length (filter P (f x))) l.
Proof.
  induction l as [|x l IH]; [done|].
  by rewrite bind_cons, filter_app, length_app, IH.
Qed.

Lemma sum_list_with_somes (g : option Z → nat) (n : nat) (l : list (option Z)) :
  (∀ o, g o = when_some o n) →
  sum_list_with g l = (length (filter is_Some l) * n)%nat.
Proof.
  intros Hg. induction l as [|o l IH]; [done|].
  cbn [sum_list_with]. rewrite IH, Hg, filter_cons.
  destruct o as [z|].
  - rewrite decide_True by (by eexists). cbn [when_some length]. lia.
  - rewrite decide_False by (by intros [? ?]). cbn [when_some]. lia.
Qed.

Lemma lookup_keys_somes {K} `{EqDecision K} (k : K) (right : list (K * Z)) :
  length (filter is_Some (lookup_keys k right))
  = length (filter (λ kv, kv.1 = k) right).
Proof.
  unfold lookup_keys. destruct (filter (λ kv, kv.1 = k) right) as [|m ms]; [done|].
  generalize (m :: ms) as l. intros l.
  induction l as [|x l IH]; [done|].
  rewrite fmap_cons, filter_cons_True by (by eexists). cbn. by rewrite IH.
Qed.

(** The number of fact rows one candidate gives: none without a
    transaction identifier, else one per combination of the persisted
    rows its three natural keys match. *)
Lemma build_fact_count conn r :
  length (build_fact conn [r])
  = when_some (transaction_id r)
      (length (date_matches conn r)
       * (length (item_matches conn r) * length (buyer_matches conn r)))%nat.
Proof.
  unfold build_fact. rewrite join_keys_singleton, filter_fmap.
  set (P := λ j, fact_complete (fact_row j)).
  assert (HP : ∀ dk ik bk,
            P {| candidate := r; j_date_key := dk; j_item_key := ik;
                 j_buyer_key := bk |}
            ↔ is_Some dk ∧ is_Some ik ∧ is_Some bk ∧ is_Some (transaction_id r)).
  { intros. unfold P, fact_complete. cbn. by rewrite bool_decide_spec. }
  rewrite length_fmap, length_filter_bind.
  set (LD := lookup_keys (date r) _). set (LI := lookup_keys (item_code r) _).
  set (LB := lookup_keys (buyer_id r) _).
  set (nb := when_some (transaction_id r) (length (filter is_Some LB))).
  assert (Hb : ∀ dk ik,
            length (filter P (bk ← LB;
                      [{| candidate := r; j_date_key := dk; j_item_key := ik;
                          j_buyer_key := bk |}]))
            = when_some dk (when_some ik nb)).
  { intros dk ik. rewrite length_filter_bind.
    rewrite (sum_list_with_somes _
               (when_some dk (when_some ik (when_some (transaction_id r) 1%nat)))).
    - unfold nb. destruct dk, ik, (transaction_id r); cbn; lia.
    - intros bk. rewrite filter_cons, filter_nil.
      destruct (decide (P _)) as [Hp|Hp]; rewrite HP in Hp.
      + destruct Hp as ([? ->] & [? ->] & [? ->] & [? ->]). done.
      + destruct dk, ik, bk, (transaction_id r); try done.
        exfalso. apply Hp. repeat split; by eexists. }
  assert (Hi : ∀ dk,
            length (filter P (ik ← LI; bk ← LB;
                      [{| candidate := r; j_date_key := dk; j_item_key := ik;
                          j_buyer_key := bk |}]))
            = when_some dk (length (filter is_Some LI) * nb)%nat).
  { intros dk. rewrite length_filter_bind.
    rewrite (sum_list_with_somes _ (when_some dk nb)).
    - destruct dk; cbn; lia.
    - intros ik. rewrite Hb. by destruct dk, ik. }
  rewrite (sum_list_with_somes _ (length (filter is_Some LI) * nb)%nat)
    by (intros dk; apply Hi).
  unfold nb, LD, LI, LB. rewrite !lookup_keys_somes, !filter_fmap, !length_fmap.
  unfold date_matches, item_matches, buyer_matches. cbn [fst snd].
  destruct (transaction_id r); cbn [when_some]; lia.
Qed.

Lemma build_fact_length conn (df : list RawRecord) :
  length (build_fact conn df)
  = sum_list_with (λ r, length (build_fact conn [r])) df.
Proof.
  rewrite build_fact_bind. induction df as [|r df IH]; [done|].
  by rewrite bind_cons, length_app, IH.
Qed.

Lemma filter_key_unique {A K} `{EqDecision K} (f : A → K) (k : K) (l : list A) :
  NoDup (f <$> l) → (length (filter (λ x, f x = k) l) ≤ 1)%nat.
Proof.
  intros Hnd. induction l as [|x l IH]; [cbn; lia|].
  rewrite fmap_cons in Hnd. apply NoDup_cons in Hnd as [Hx Hnd].
  rewrite filter_cons. destruct (decide (f x = k)) as [Hk|]; [|by apply IH].
  rewrite (filter_none (λ y, f y = k) l); [cbn; lia|].
  intros y Hy Hfy. apply Hx. rewrite Hk, <- Hfy. by apply list_elem_of_fmap_2.
Qed.

Lemma build_fact_at_most_one conn r :
  unique_keys conn → (length (build_fact conn [r]) ≤ 1)%nat.
Proof.
  intros (Hd & Hi & Hb). rewrite build_fact_count.
  assert (length (date_matches conn r) ≤ 1)%nat.
  { unfold date_matches.
    destruct (date r) as [t|].
    - etrans; [|apply (filter_key_unique (λ kr, DateDim.full_date kr.2) t
                         (dim_date conn) Hd)].
      apply filter_length_impl. intros kr _ [= ->]. done.
    - rewrite (filter_none _ (dim_date conn)); [cbn; lia|]. by intros ???. }
  assert (length (item_matches conn r) ≤ 1)%nat
    by apply (filter_key_unique (λ kr, ItemDim.item_code kr.2) _ _ Hi).
  assert (length (buyer_matches conn r) ≤ 1)%nat
    by apply (filter_key_unique (λ kr, BuyerDim.buyer_id kr.2) _ _ Hb).
  destruct (transaction_id r); cbn [when_some]; [|lia].
  destruct (length (date_matches conn r)) as [|[|?]],
    (length (item_matches conn r)) as [|[|?]],
    (length (buyer_matches conn r)) as [|[|?]]; cbn; lia.
Qed.

End FanOut.

(** X16.  [load_fact_sales] appends to [fact_sales] and leaves the three
    dimensions alone.  A candidate with a transaction identifier gives one
    fact row per combination of the persisted rows that its date, its item
    code and its buyer identifier match, so a natural key held by two
    persisted rows doubles the candidate; a candidate without a transaction
    identifier gives none. *)
Theorem load_fact_sales_fan_out
    (df : Frame RawRecord) (conn : Warehouse) (cfg : Config) (log : list LogRecord) :
  ∃ conn' facts,
    (load_fact_sales df conn cfg log).1 = inr conn'
    ∧ fact_sales conn' = fact_sales conn ++ facts
    ∧ dim_date conn' = dim_date conn
    ∧ dim_item conn' = dim_item conn
    ∧ dim_buyer conn' = dim_buyer conn
    ∧ length facts
      = sum_list_with
          (λ r, when_some (transaction_id r)
                  (length (date_matches conn r)
                   * (length (item_matches conn r)
                      * length (buyer_matches conn r)))%nat)
          df.*2.
Proof.
  rewrite load_fact_sales_run. eexists _, _. split; [reflexivity|].
  repeat split. rewrite build_fact_length.
  induction df.*2 as [|r l IH]; [done|].
  cbn [sum_list_with]. by rewrite IH, build_fact_count.
Qed.

(** X17.  When the natural keys of the three persisted dimensions are
    unique, no candidate is duplicated: each one gives at most one fact row,
    and the fact table grows by at most the number of candidates. *)
Theorem load_fact_sales_unique_keys
    (df : Frame RawRecord) (conn conn' : Warehouse) (cfg : Config)
    (log : list LogRecord) :
  unique_keys conn →
  (load_fact_sales df conn cfg log).1 = inr conn' →
  ∃ facts,
    fact_sales conn' = fact_sales conn ++ facts
    ∧ (length facts ≤ length df)%nat
    ∧ ∀ r, (length (build_fact conn [r]) ≤ 1)%nat.
Proof.
  intros Huniq. rewrite load_fact_sales_run. cbn [fst]. intros [= <-].
  eexists. split; [reflexivity|]. split; [|intros r; by apply build_fact_at_most_one].
  rewrite build_fact_length, <- (length_fmap snd df).
  induction df.*2 as [|r l IH]; [done|].
  cbn [sum_list_with length].
  pose proof (build_fact_at_most_one conn r Huniq). lia.
Qed.

Lemma load_fact_sales_unique_keys_witness :
  ∃ facts,
    fact_sales (append_fact_sales Fixture.warehouse
                  (build_fact Fixture.warehouse Sample.two_rows.*2))
    = fact_sales Fixture.warehouse ++ facts
    ∧ (length facts ≤ length Sample.two_rows)%nat
    ∧ ∀ r, (length (build_fact Fixture.warehouse [r]) ≤ 1)%nat.
Proof.
  apply (load_fact_sales_unique_keys Sample.two_rows Fixture.warehouse _
           (Sample.config "mode" Sample.half) []).
  - unfold unique_keys. repeat split; vm_compute; repeat constructor;
      by intros ?%elem_of_nil.
  - rewrite load_fact_sales_run. reflexivity.
Defined.

(** X18.  The two counts [load_fact_sales] logs do not cover every joined
    row: a row whose three keys were found but whose transaction identifier
    is missing is dropped without being counted in the warning.  The fact
    rows, the rows of the warning and these rows add up to the joined rows,
    of which there is at least one per candidate. *)
Theorem load_fact_sales_accounting
    (df : Frame RawRecord) (conn : Warehouse) (cfg : Config) (log : list LogRecord) :
  let joined := join_keys conn df.*2 in
  let missing := filter (λ j, missing_fk j) joined in
  ∃ conn' facts,
    load_fact_sales df conn cfg log
    = (inr conn',
       log ++ fk_warning missing
           ++ [(INFO, FactRowCount (len facts)); (INFO, LoadedFactSales)])
    ∧ fact_sales conn' = fact_sales conn ++ facts
    ∧ len facts + len missing + len (unreported joined) = len joined
    ∧ len df ≤ len joined.
Proof.
  cbn zeta. rewrite load_fact_sales_run. eexists _, _.
  split; [reflexivity|]. split; [reflexivity|]. split.
  - unfold build_fact, unreported, len. rewrite filter_fmap, length_fmap.
    induction (join_keys conn df.*2) as [|j l IH]; [done|].
    rewrite !filter_cons.
    assert (Hj : fact_complete (fact_row j)
                 ↔ missing_fk j = false ∧ is_Some (transaction_id (candidate j))).
    { unfold fact_complete, missing_fk. cbn.
      rewrite bool_decide_spec, bool_decide_eq_false.
      split.
      - intros ([??] & [??] & [??] & ?). split; [|done].
        intros [?|[?|?]]; congruence.
      - intros [Hno ?]. repeat split; try done.
        + destruct (j_date_key j); [by eexists|]. exfalso. apply Hno. by left.
        + destruct (j_item_key j); [by eexists|]. exfalso. apply Hno. right. by left.
        + destruct (j_buyer_key j); [by eexists|]. exfalso. apply Hno. by do 2 right. }
    destruct (decide (fact_complete (fact_row j))) as [Hc|Hc];
      destruct (decide (missing_fk j)) as [Hm|Hm];
      destruct (decide (missing_fk j = false
                        ∧ transaction_id (candidate j) = None)) as [Hu|Hu];
      cbn [length]; try lia; exfalso.
    + apply Hj in Hc as [Hc _]. rewrite Hc in Hm. done.
    + apply Hj in Hc as [Hc _]. rewrite Hc in Hm. done.
    + apply Hj in Hc as [_ [? Hc]]. destruct Hu as [_ Hu]. congruence.
    + destruct Hu as [Hu _]. rewrite Hu in Hm. done.
    + apply Hc, Hj. destruct (missing_fk j); [by exfalso; apply Hm|].
      split; [done|]. destruct (transaction_id (candidate j)); [by eexists|].
      exfalso. by apply Hu.
  - unfold len. rewrite <- (length_fmap snd df).
    induction df.*2 as [|r l IH]; [done|].
    change (r :: l) with ([r] ++ l). rewrite join_keys_app, !length_app.
    assert (1 ≤ length (join_keys conn [r]))%nat; [|cbn [length] in *; lia].
    rewrite join_keys_singleton.
    destruct (lookup_keys (date r) _) as [|dk ?] eqn:Hd;
      [by apply lookup_keys_non_empty in Hd|].
    destruct (lookup_keys (item_code r) _) as [|ik ?] eqn:Hi;
      [by apply lookup_keys_non_empty in Hi|].
    destruct (lookup_keys (buyer_id r) _) as [|bk ?] eqn:Hb;
      [by apply lookup_keys_non_empty in Hb|].
    rewrite !bind_cons. cbn [app length]. lia.
Qed.

Lemma load_fact_sales_accounting_witness :
  ∃ conn' facts,
    fact_sales conn' = fact_sales Fixture.warehouse ++ facts
    ∧ len facts = 0
    ∧ len (unreported (join_keys Fixture.warehouse [Fixture.no_transaction])) = 1.
Proof.
  destruct (load_fact_sales_accounting [(0, Fixture.no_transaction)]
              Fixture.warehouse (Sample.config "mode" Sample.half) [])
    as (conn' & facts & Hrun & Hfacts & Hsum & _).
  exists conn', facts. split; [exact Hfacts|].
  rewrite load_fact_sales_run in Hrun. injection Hrun as _ Hlen.
  split; [by rewrite <- Hlen|reflexivity].
Defined.

(** X19.  A candidate whose timestamp has a time of day finds no date key in
    a date dimension of midnights, which is what [build_date_dimension]
    builds: it gives no fact row. *)
Theorem load_fact_sales_time_of_day
    (conn : Warehouse) (r : RawRecord) (ts : Z) :
  midnights conn →
  date r = Some ts →
  ts `mod` Calendar.ns_per_day ≠ 0 →
  date_matches conn r = [] ∧ build_fact conn [r] = [].
Proof.
  intros Hmid Hts Htime.
  assert (Hno : date_matches conn r = []).
  { unfold date_matches. apply filter_none. intros kr Hkr Heq.
    destruct (Hmid kr Hkr) as [d Hd]. rewrite Hts, Hd in Heq.
    injection Heq as <-. apply Htime. unfold Calendar.midnight.
    by rewrite Z.mod_mul. }
  split; [done|]. apply length_zero_iff_nil.
  rewrite build_fact_count, Hno. by destruct (transaction_id r).
Qed.

Lemma load_fact_sales_time_of_day_witness :
  date_matches Fixture.warehouse (Fixture.at_noon 20394) = []
  ∧ build_fact Fixture.warehouse [Fixture.at_noon 20394] = [].
Proof.
  apply (load_fact_sales_time_of_day Fixture.warehouse (Fixture.at_noon 20394)
           (Calendar.midnight 20394 + 12 * 3600 * 1000000000)).
  - intros kr Hkr. apply list_elem_of_singleton in Hkr as ->. by exists 20394.
  - reflexivity.
  - vm_compute. discriminate.
Defined.

(** ** The persist stage, run after run *)

Section PersistStage.

Variable next_key : list Z → Z.

Implicit Types (conn : Warehouse) (cfg : Config) (log : list LogRecord).

(** The facts depend on the warehouse through its dimensions only. *)
Lemma build_fact_dims conn conn' (df : list RawRecord) :
  dim_date conn = dim_date conn' → dim_item conn = dim_item conn' →
  dim_buyer conn = dim_buyer conn' →
  build_fact conn df = build_fact conn' df.
Proof. intros Hd Hi Hb. unfold build_fact, join_keys. by rewrite Hd, Hi, Hb. Qed.

(** The persist stage never raises: it appends the new candidates of
    each dimension, then the facts resolved against the result. *)
Lemma persist_run (dates : list DateDim.row) (items : list ItemDim.row)
    (buyers : list BuyerDim.row) (df : Frame RawRecord) conn cfg log :
  ∃ nd ni nb log',
    let conn1 := with_dims conn (dim_date conn ++ nd) (dim_item conn ++ ni)
                   (dim_buyer conn ++ nb) in
    persist next_key dates items buyers df conn cfg log
    = (inr (append_fact_sales conn1 (build_fact conn1 df.*2)), log')
    ∧ nd.*2 = new_dates conn dates
    ∧ ni.*2 = new_items conn items
    ∧ nb.*2 = new_buyers conn buyers.
Proof.
  unfold persist.
  destruct (reconcile_appends next_key "dim_date" DateDim.full_date dates
              (dim_date conn) log) as (nd & log1 & Hd & Hnd).
  destruct (reconcile_appends next_key "dim_item" ItemDim.item_code items
              (dim_item conn) log1) as (ni & log2 & Hi & Hni).
  destruct (reconcile_appends next_key "dim_buyer" BuyerDim.buyer_id buyers
              (dim_buyer conn) log2) as (nb & log3 & Hb & Hnb).
  unfold mbind at 1 2 3. unfold Eff_bind at 1 2 3.
  rewrite Hd. cbn [dim_date dim_item dim_buyer fact_sales].
  rewrite Hi. cbn [dim_date dim_item dim_buyer fact_sales].
  rewrite Hb, load_fact_sales_run.
  exists nd, ni, nb. eexists. split; [reflexivity|]. done.
Qed.

End PersistStage.

(** ** [run_etl], stage by stage *)

Section RunEtl.

Variable next_key : list Z → Z.

Implicit Types (df : Frame RawRecord) (conn engine : Warehouse) (cfg : Config)
  (log : list LogRecord).

Lemma build_date_dimension_log df cfg log :
  build_date_dimension df cfg log = (date_rows df cfg, log).
Proof.
  unfold date_rows, build_date_dimension.
  by destruct (omap (λ ir : Z * RawRecord, date ir.2) df).
Qed.

Lemma load_item_dimension_log df cfg log :
  load_item_dimension df cfg log = (inr (item_rows df cfg), log ++ item_log df cfg).
Proof.
  rewrite load_item_dimension_run. unfold item_rows, item_log.
  destruct (decide (item_attributes cfg = "mode")); [done|]. by rewrite app_nil_r.
Qed.

Lemma load_buyer_dimension_log df cfg log :
  load_buyer_dimension df cfg log = (inr (buyer_rows df), log ++ buyer_warning df).
Proof.
  unfold load_buyer_dimension. cbn zeta.
  rewrite load_buyer_dimension_dropped, drop_duplicates_filter.
  unfold buyer_warning, buyer_rows. eff.
  destruct (bool_decide (None ∈ buyer_ids df)); cbn; [done|].
  by rewrite app_nil_r.
Qed.

Lemma run_etl_stages df cfg engine log :
  run_etl next_key df cfg engine log
  = match date_rows df cfg with
    | inl e => (inl e, log ++ [(INFO, SavedCleanedData); (INFO, GeneratingDimensions)])
    | inr dates =>
        let log' := log ++ staged_log df cfg in
        if gtb (drop_rate cfg df) (max_err cfg)
        then (inl (DropRateExceeds (mul (drop_rate cfg df) hundred)
                                   (mul (max_err cfg) hundred)), log')
        else if default false (dry_run cfg)
        then (inr engine,
              log' ++ saved_log df cfg
                   ++ dry_run_log (len dates) (len (item_rows df cfg))
                        (len (buyer_rows df)) (len (validated df cfg)))
        else
          let res := persist next_key dates (item_rows df cfg) (buyer_rows df)
                       (validated df cfg) engine cfg
                       (log' ++ saved_log df cfg ++ [(INFO, LoadingPostgres)]) in
          (res.1, res.2 ++ [(INFO, EtlCompleted)])
    end.
Proof.
  unfold run_etl.
  unfold mbind at 1 2 3. unfold Eff_bind at 1 2 3. unfold emit at 1 2.
  rewrite build_date_dimension_log.
  destruct (date_rows df cfg) as [e|dates]; [by rewrite <- app_assoc|].
  unfold mbind at 1. unfold Eff_bind at 1. rewrite load_item_dimension_log.
  unfold mbind at 1. unfold Eff_bind at 1. rewrite load_buyer_dimension_log.
  unfold mbind at 1 2 3. unfold Eff_bind at 1 2 3. unfold emit at 1 2.
  rewrite apply_validations_run.
  cbn zeta. unfold staged_log, saved_log, dry_run_log, validated.
  assert (Hk : len (run_checks cfg df) = len (filter (λ ir, passes cfg ir.2) df))
    by (by rewrite <- len_drop_chk, drop_chk_run_checks).
  rewrite Hk. rewrite <- !app_assoc. cbn [app].
  destruct (gtb (drop_rate cfg df) (max_err cfg)); [done|].
  unfold select.
  destruct (decide (not_isin df (filter (λ ir, passes cfg ir.2) df) ≠ []));
    destruct (default false (dry_run cfg)); eff;
    repeat first [rewrite <- app_assoc | progress cbn [app]]; try done.
  all: match goal with
       | |- context [persist ?k ?d ?i ?b ?v ?e ?c ?l] =>
           destruct (persist_run k d i b v e c l) as (nd & ni & nb & log5 & Hrun & _)
       end;
       cbn zeta in Hrun; rewrite Hrun;
       match type of Hrun with
       | ?run = _ => match goal with |- _ = (?res.1, _) => change res with run end
       end;
       by rewrite Hrun.
Qed.

End RunEtl.


(** ** [run_etl], run after run *)

Section RunEtlProperties.

Variable next_key : list Z → Z.

Implicit Types (df : Frame RawRecord) (conn engine : Warehouse) (cfg : Config)
  (log : list LogRecord).

Lemma date_rows_span df cfg :
  (days_of df = [] ∧ date_rows df cfg = inl NoValidDates)
  ∨ ∃ lo hi,
      lo ∈ days_of df ∧ hi ∈ days_of df
      ∧ (∀ d, d ∈ days_of df → lo ≤ d ≤ hi)
      ∧ date_rows df cfg = inr (date_row <$> seqZ lo (hi - lo + 1)).
Proof.
  unfold date_rows.
  destruct (build_date_dimension_span df cfg [])
    as [[Hnil ->]|(lo & hi & Hlo & Hhi & Hb & ->)]; [by left|].
  right. by exists lo, hi.
Qed.

Lemma reconciled_key {R K} `{EqDecision K} (on : R → K) (dim : list R)
    (persisted inserted : list (Keyed R)) (row : R) :
  inserted.*2 = filter (λ r, on r ∉ (λ kr, on kr.2) <$> persisted) dim →
  row ∈ dim →
  ∃ kr, kr ∈ persisted ++ inserted ∧ on kr.2 = on row.
Proof.
  intros Hins Hrow.
  destruct (decide (on row ∈ (λ kr, on kr.2) <$> persisted)) as [Hin|Hout].
  - apply list_elem_of_fmap in Hin as (kr & Hk & Hkr).
    exists kr. split; [apply elem_of_app; by left|done].
  - assert (Hin : row ∈ inserted.*2)
      by (rewrite Hins; apply list_elem_of_filter; by split).
    apply list_elem_of_fmap in Hin as (kr & -> & Hkr).
    exists kr. split; [apply elem_of_app; by right|done].
Qed.

Lemma NoDup_fmap_filter {A B} (f : A → B) (P : A → Prop)
    `{∀ x, Decision (P x)} (l : list A) :
  NoDup (f <$> l) → NoDup (f <$> filter P l).
Proof.
  induction l as [|x l IH]; [done|]. rewrite fmap_cons, filter_cons.
  intros [Hx Hl]%NoDup_cons. destruct (decide (P x)); [|by apply IH].
  rewrite fmap_cons. apply NoDup_cons. split; [|by apply IH].
  intros (y & Hy & [_ Hin]%list_elem_of_filter)%list_elem_of_fmap.
  apply Hx. rewrite Hy. by apply list_elem_of_fmap_2.
Qed.

Lemma reconciled_keys_NoDup {R K} `{EqDecision K} (on : R → K) (dim : list R)
    (persisted inserted : list (Keyed R)) :
  inserted.*2 = filter (λ r, on r ∉ (λ kr, on kr.2) <$> persisted) dim →
  NoDup ((λ kr, on kr.2) <$> persisted) →
  NoDup (on <$> dim) →
  NoDup ((λ kr, on kr.2) <$> (persisted ++ inserted)).
Proof.
  intros Hins Hp Hd. rewrite fmap_app. apply NoDup_app. split; [done|].
  assert (Hkeys : (λ kr : Keyed R, on kr.2) <$> inserted
                  = on <$> filter (λ r, on r ∉ (λ kr, on kr.2) <$> persisted) dim).
  { rewrite <- Hins. by rewrite <- list_fmap_compose. }
  rewrite Hkeys. split.
  - intros k Hk (r & -> & [Hout _]%list_elem_of_filter)%list_elem_of_fmap. done.
  - by apply NoDup_fmap_filter.
Qed.

Lemma date_rows_NoDup df cfg (dates : list DateDim.row) :
  date_rows df cfg = inr dates → NoDup (DateDim.full_date <$> dates).
Proof.
  destruct (date_rows_span df cfg) as [[_ ->]|(lo & hi & _ & _ & _ & ->)]; [done|].
  intros [= <-]. rewrite <- list_fmap_compose.
  apply NoDup_fmap_2_strong; [|apply NoDup_seqZ].
  intros d d' _ _ Heq. by apply midnight_inj.
Qed.

Lemma buyer_rows_NoDup df : NoDup (BuyerDim.buyer_id <$> buyer_rows df).
Proof.
  unfold buyer_rows.
  apply NoDup_fmap_2_strong.
  - by intros [b] [b'] _ _ [= ->].
  - apply (drop_duplicates_from_spec []).
Qed.

(** X22.  Under the [mode] strategy a run keeps the natural keys of the
    three persisted dimensions unique. *)
Theorem run_etl_keeps_keys_unique df cfg engine log conn :
  item_attributes cfg = "mode" →
  unique_keys engine →
  (run_etl next_key df cfg engine log).1 = inr conn →
  unique_keys conn.
Proof.
  intros Hmode (Hd & Hi & Hb). rewrite run_etl_stages.
  destruct (date_rows df cfg) as [e|dates] eqn:Hdates; [done|]. cbn zeta.
  destruct (gtb _ _); [done|].
  destruct (default false (dry_run cfg)); cbn [fst]; [by intros [= <-]|].
  match goal with
  | |- context [persist ?k ?d ?i ?b ?v ?e ?c ?l] =>
      destruct (persist_run k d i b v e c l)
        as (nd & ni & nb & log5 & -> & Hnd & Hni & Hnb)
  end.
  cbn [fst]. intros [= <-].
  unfold unique_keys, persisted_dates, persisted_item_codes, persisted_buyer_ids.
  cbn [append_fact_sales with_dims dim_date dim_item dim_buyer].
  split; [|split].
  - apply (reconciled_keys_NoDup DateDim.full_date dates); [done|done|].
    by apply (date_rows_NoDup df cfg).
  - apply (reconciled_keys_NoDup ItemDim.item_code (item_rows df cfg)); [done|done|].
    unfold item_rows. rewrite decide_True by done. apply grouped_codes_NoDup.
  - apply (reconciled_keys_NoDup BuyerDim.buyer_id (buyer_rows df)); [done|done|].
    apply buyer_rows_NoDup.
Qed.

Lemma reconciled_none_new {R K} `{EqDecision K} (on : R → K) (dim : list R)
    (persisted inserted : list (Keyed R)) :
  inserted.*2 = filter (λ r, on r ∉ (λ kr, on kr.2) <$> persisted) dim →
  filter (λ r, on r ∉ (λ kr, on kr.2) <$> (persisted ++ inserted)) dim = [].
Proof.
  intros Hins. apply filter_none. intros row Hrow Hout. apply Hout.
  destruct (reconciled_key on dim persisted inserted row Hins Hrow) as (kr & Hkr & <-).
  by apply (list_elem_of_fmap_2 (λ kr, on kr.2)).
Qed.

(** X23.  The fact table is not reconciled: a second run on the same input,
    against the warehouse the first run left, appends the same fact rows
    once more, while the three dimensions stay as they are. *)
Theorem run_etl_twice df cfg engine log conn1 log1 :
  default false (dry_run cfg) = false →
  run_etl next_key df cfg engine log = (inr conn1, log1) →
  ∃ facts conn2 log2,
    fact_sales conn1 = fact_sales engine ++ facts
    ∧ run_etl next_key df cfg conn1 log1 = (inr conn2, log2)
    ∧ fact_sales conn2 = fact_sales conn1 ++ facts
    ∧ dim_date conn2 = dim_date conn1
    ∧ dim_item conn2 = dim_item conn1
    ∧ dim_buyer conn2 = dim_buyer conn1.
Proof.
  intros Hdry. rewrite !run_etl_stages.
  destruct (date_rows df cfg) as [e|dates]; [done|]. cbn zeta.
  destruct (gtb _ _); [done|]. rewrite Hdry.
  match goal with
  | |- context [persist ?k ?d ?i ?b ?v engine ?c ?l] =>
      destruct (persist_run k d i b v engine c l)
        as (nd & ni & nb & log5 & -> & Hnd & Hni & Hnb)
  end.
  cbn [fst snd]. intros [= <- <-].
  match goal with
  | |- context [persist ?k ?d ?i ?b ?v ?e ?c ?l] =>
      destruct (persist_run k d i b v e c l)
        as (nd' & ni' & nb' & log6 & -> & Hnd' & Hni' & Hnb')
  end.
  unfold new_dates, new_items, new_buyers, persisted_dates, persisted_item_codes,
    persisted_buyer_ids in *.
  cbn [append_fact_sales with_dims dim_date dim_item dim_buyer fact_sales] in *.
  rewrite (reconciled_none_new DateDim.full_date dates _ nd Hnd) in Hnd'.
  rewrite (reconciled_none_new ItemDim.item_code _ _ ni Hni) in Hni'.
  rewrite (reconciled_none_new BuyerDim.buyer_id _ _ nb Hnb) in Hnb'.
  apply fmap_nil_inv in Hnd', Hni', Hnb'. subst nd' ni' nb'.
  rewrite !app_nil_r.
  eexists _, _, _. split; [reflexivity|]. split; [reflexivity|].
  cbn [fst append_fact_sales with_dims dim_date dim_item dim_buyer fact_sales].
  split; [|done]. f_equal; by apply build_fact_dims.
Qed.

Lemma date_rows_midnight df cfg (dates : list DateDim.row) (ir : Z * RawRecord)
    (d : Z) :
  date_rows df cfg = inr dates → ir ∈ df → date ir.2 = Some (Calendar.midnight d) →
  date_row d ∈ dates.
Proof.
  intros Hdates Hir Hd.
  assert (Hday : d ∈ days_of df).
  { unfold days_of. apply list_elem_of_fmap. exists (Calendar.midnight d). split.
    - unfold Calendar.date_of, Calendar.midnight. by rewrite Z.div_mul.
    - apply list_elem_of_omap. by exists ir. }
  destruct (date_rows_span df cfg) as [[Hnil _]|(lo & hi & _ & _ & Hb & Hrows)].
  { rewrite Hnil in Hday. by apply elem_of_nil in Hday. }
  rewrite Hrows in Hdates. injection Hdates as <-.
  apply list_elem_of_fmap_2, elem_of_seqZ. specialize (Hb d Hday). lia.
Qed.

Lemma buyer_rows_elem df (ir : Z * RawRecord) :
  ir ∈ df → is_Some (buyer_id ir.2) → BuyerDim.Build_row (buyer_id ir.2) ∈ buyer_rows df.
Proof.
  intros Hir Hb. unfold buyer_rows, drop_duplicates.
  apply (drop_duplicates_from_spec []). split; [|apply not_elem_of_nil].
  apply list_elem_of_filter. split; [done|].
  rewrite list_fmap_compose. apply list_elem_of_fmap_2, list_elem_of_fmap_2.
  by apply list_elem_of_fmap_2.
Qed.

Lemma item_frame_elem df cfg (ir : Z * RawRecord) :
  ir ∈ df →
  ∃ x, x ∈ item_frame df cfg ∧ ItemDim.item_code x = item_code ir.2
       ∧ ItemDim.item_id x = item_id ir.2.
Proof.
  intros Hir. unfold item_frame. destruct (default false _).
  - exists (canonicalize_category_column (item_columns ir.2)). split; [|done].
    apply list_elem_of_fmap_2, list_elem_of_fmap_2. by apply list_elem_of_fmap_2.
  - exists (item_columns ir.2). split; [|done].
    apply list_elem_of_fmap_2. by apply list_elem_of_fmap_2.
Qed.

Lemma item_rows_elem df cfg (ir : Z * RawRecord) :
  ir ∈ df → is_Some (item_code ir.2) → is_Some (item_id ir.2) →
  ∃ row, row ∈ item_rows df cfg ∧ ItemDim.item_code row = item_code ir.2.
Proof.
  intros Hir [k Hk] Hid.
  destruct (item_frame_elem df cfg ir Hir) as (x & Hx & Hxc & Hxi).
  unfold item_rows. destruct (decide (item_attributes cfg = "mode")).
  - exists (agg_group (item_frame df cfg) k). split; [|by rewrite Hk].
    apply list_elem_of_filter. split.
    + cbn. apply not_eq_None_Some. rewrite agg_first_None. intros Hall.
      assert (Hin : ItemDim.item_id x ∈ ItemDim.item_id <$> group_of (item_frame df cfg) k).
      { apply list_elem_of_fmap_2, list_elem_of_filter. split; [congruence|done]. }
      apply Hall in Hin. rewrite Hxi in Hin. rewrite Hin in Hid. by destruct Hid.
    + apply list_elem_of_fmap_2, group_keys_spec. exists x. split; [done|congruence].
  - exists x. split; [|done]. unfold drop_duplicates.
    apply (drop_duplicates_from_spec []). split; [|apply not_elem_of_nil].
    apply list_elem_of_filter. split; [by rewrite Hxi|done].
Qed.

Lemma filter_non_empty {A} (P : A → Prop) `{∀ x, Decision (P x)} (l : list A) (x : A) :
  x ∈ l → P x → (1 ≤ length (filter P l))%nat.
Proof.
  intros Hx HP. assert (Hin : x ∈ filter P l) by (by apply list_elem_of_filter).
  destruct (filter P l); [by apply elem_of_nil in Hin|cbn; lia].
Qed.

(** X24.  A completed run loads every validated row that can be loaded: a
    row that passes the enabled checks, is stamped at midnight and has an
    item code, an item identifier, a buyer identifier and a transaction
    identifier finds its three keys among the reconciled dimensions and has
    a fact row in the warehouse. *)
Theorem run_etl_loads_validated df cfg engine log conn (i : Z) (r : RawRecord) :
  default false (dry_run cfg) = false →
  (run_etl next_key df cfg engine log).1 = inr conn →
  (i, r) ∈ df → passes cfg r = true →
  (∃ d, date r = Some (Calendar.midnight d)) →
  is_Some (item_code r) → is_Some (item_id r) →
  is_Some (buyer_id r) → is_Some (transaction_id r) →
  ∃ j, candidate j = r ∧ missing_fk j = false ∧ fact_row j ∈ fact_sales conn.
Proof.
  intros Hdry Hrun Hir Hpass [d Hd] Hcode Hid Hbuyer Htxn.
  rewrite run_etl_stages in Hrun.
  destruct (date_rows df cfg) as [e|dates] eqn:Hdates; [done|]. cbn zeta in Hrun.
  destruct (gtb _ _); [done|]. rewrite Hdry in Hrun.
  match type of Hrun with
  | context [persist ?k ?d ?i ?b ?v ?e ?c ?l] =>
      destruct (persist_run k d i b v e c l)
        as (nd & ni & nb & log5 & Hp & Hnd & Hni & Hnb)
  end.
  cbn zeta in Hp. rewrite Hp in Hrun. cbn [fst] in Hrun. injection Hrun as <-.
  set (conn1 := with_dims engine (dim_date engine ++ nd) (dim_item engine ++ ni)
                  (dim_buyer engine ++ nb)).
  pose proof (date_rows_midnight df cfg dates (i, r) d Hdates Hir Hd) as Hdate.
  destruct (reconciled_key DateDim.full_date dates (dim_date engine) nd
              (date_row d) Hnd Hdate) as (kd & Hkd & Hkd').
  destruct (item_rows_elem df cfg (i, r) Hir Hcode Hid) as (row & Hrow & Hrow').
  destruct (reconciled_key ItemDim.item_code (item_rows df cfg) (dim_item engine) ni
              row Hni Hrow) as (ki & Hki & Hki').
  pose proof (buyer_rows_elem df (i, r) Hir Hbuyer) as Hb.
  destruct (reconciled_key BuyerDim.buyer_id (buyer_rows df) (dim_buyer engine) nb
              _ Hnb Hb) as (kb & Hkb & Hkb').
  assert (Hcount : (1 ≤ length (build_fact conn1 [r]))%nat).
  { rewrite build_fact_count. destruct Htxn as [t ->]. cbn [when_some].
    assert (1 ≤ length (date_matches conn1 r))%nat.
    { apply (filter_non_empty _ _ kd); [done|]. cbn. by rewrite Hkd', Hd. }
    assert (1 ≤ length (item_matches conn1 r))%nat.
    { apply (filter_non_empty _ _ ki); [done|]. cbn. by rewrite Hki', Hrow'. }
    assert (1 ≤ length (buyer_matches conn1 r))%nat.
    { apply (filter_non_empty _ _ kb); [done|]. cbn. by rewrite Hkb'. }
    nia. }
  destruct (build_fact conn1 [r]) as [|f fs] eqn:Hf; [cbn in Hcount; lia|].
  assert (Hin : f ∈ build_fact conn1 [r]) by (rewrite Hf; by left).
  pose proof Hin as (j & Hj & -> & Hm & _)%elem_of_build_fact.
  exists j. split; [|split; [done|]].
  - apply elem_of_join_keys in Hj as [Hc _]. by apply list_elem_of_singleton in Hc.
  - cbn [append_fact_sales fact_sales]. apply elem_of_app. right.
    rewrite build_fact_bind. apply list_elem_of_bind. exists r. split; [done|].
    apply (list_elem_of_fmap_2 snd (validated df cfg) (i, r)).
    apply list_elem_of_filter. split; [by apply Is_true_true|done].
Qed.

Lemma date_rows_day df cfg (dates : list DateDim.row) (ir : Z * RawRecord) (t : Z) :
  date_rows df cfg = inr dates → ir ∈ df → date ir.2 = Some t →
  date_row (Calendar.date_of t) ∈ dates.
Proof.
  intros Hdates Hir Ht.
  assert (Hday : Calendar.date_of t ∈ days_of df).
  { unfold days_of. apply list_elem_of_fmap_2, list_elem_of_omap. by exists ir. }
  destruct (date_rows_span df cfg) as [[Hnil _]|(lo & hi & _ & _ & Hb & Hrows)].
  { rewrite Hnil in Hday. by apply elem_of_nil in Hday. }
  rewrite Hrows in Hdates. injection Hdates as <-.
  apply list_elem_of_fmap_2, elem_of_seqZ. specialize (Hb _ Hday). lia.
Qed.

(** X28.  The dimensions are built from the raw frame, before validation:
    after a completed run the warehouse holds the day of every dated row,
    the buyer of every row with a buyer identifier and the item code of
    every row with an item code and an item identifier, whether the row was
    accepted or rejected; what the warehouse held before stays in place. *)
Theorem run_etl_dimensions_cover_raw df cfg engine log conn :
  default false (dry_run cfg) = false →
  (run_etl next_key df cfg engine log).1 = inr conn →
  (∀ ir t, ir ∈ df → date ir.2 = Some t →
     Calendar.midnight (Calendar.date_of t) ∈ persisted_dates conn)
  ∧ (∀ ir, ir ∈ df → is_Some (buyer_id ir.2) →
       buyer_id ir.2 ∈ persisted_buyer_ids conn)
  ∧ (∀ ir, ir ∈ df → is_Some (item_code ir.2) → is_Some (item_id ir.2) →
       item_code ir.2 ∈ persisted_item_codes conn)
  ∧ ∃ nd ni nb,
      dim_date conn = dim_date engine ++ nd
      ∧ dim_item conn = dim_item engine ++ ni
      ∧ dim_buyer conn = dim_buyer engine ++ nb.
Proof.
  intros Hdry Hrun. rewrite run_etl_stages in Hrun.
  destruct (date_rows df cfg) as [e|dates] eqn:Hdates; [done|]. cbn zeta in Hrun.
  destruct (gtb _ _); [done|]. rewrite Hdry in Hrun.
  match type of Hrun with
  | context [persist ?k ?d ?i ?b ?v ?e ?c ?l] =>
      destruct (persist_run k d i b v e c l)
        as (nd & ni & nb & log5 & Hp & Hnd & Hni & Hnb)
  end.
  cbn zeta in Hp. rewrite Hp in Hrun. cbn [fst] in Hrun. injection Hrun as <-.
  unfold persisted_dates, persisted_buyer_ids, persisted_item_codes.
  cbn [append_fact_sales with_dims dim_date dim_item dim_buyer].
  split; [|split; [|split; [|by exists nd, ni, nb]]].
  - intros ir t Hir Ht.
    pose proof (date_rows_day df cfg dates ir t Hdates Hir Ht) as Hrow.
    destruct (reconciled_key DateDim.full_date dates (dim_date engine) nd
                _ Hnd Hrow) as (kr & Hkr & Hk).
    change (Calendar.midnight (Calendar.date_of t))
      with (DateDim.full_date (date_row (Calendar.date_of t))).
    rewrite <- Hk. by apply (list_elem_of_fmap_2 (λ kr, DateDim.full_date kr.2)).
  - intros ir Hir Hb.
    destruct (reconciled_key BuyerDim.buyer_id (buyer_rows df) (dim_buyer engine) nb
                _ Hnb (buyer_rows_elem df ir Hir Hb)) as (kr & Hkr & Hk).
    cbn in Hk. rewrite <- Hk.
    by apply (list_elem_of_fmap_2 (λ kr, BuyerDim.buyer_id kr.2)).
  - intros ir Hir Hc Hi.
    destruct (item_rows_elem df cfg ir Hir Hc Hi) as (row & Hrow & Hcode).
    destruct (reconciled_key ItemDim.item_code (item_rows df cfg) (dim_item engine) ni
                row Hni Hrow) as (kr & Hkr & Hk).
    rewrite <- Hcode, <- Hk.
    by apply (list_elem_of_fmap_2 (λ kr, ItemDim.item_code kr.2)).
Qed.

End RunEtlProperties.


Lemma run_etl_keeps_keys_unique_witness :
  ∃ conn,
    (run_etl Fixture.next_key Sample.two_rows (Sample.config "mode" Sample.half)
       Fixture.warehouse []).1 = inr conn
    ∧ unique_keys conn.
Proof.
  destruct (run_etl Fixture.next_key Sample.two_rows
              (Sample.config "mode" Sample.half) Fixture.warehouse []).1
    as [e|conn] eqn:Hrun; [by vm_compute in Hrun|].
  exists conn. split; [reflexivity|].
  apply (run_etl_keeps_keys_unique Fixture.next_key Sample.two_rows
           (Sample.config "mode" Sample.half) Fixture.warehouse [] conn eq_refl)
    in Hrun; [exact Hrun|].
  unfold unique_keys. repeat split; vm_compute; repeat constructor;
    by intros ?%elem_of_nil.
Defined.

Lemma run_etl_twice_witness :
  ∃ conn1 log1 facts conn2 log2,
    run_etl Fixture.next_key Sample.two_rows (Sample.config "mode" Sample.half)
      Fixture.warehouse [] = (inr conn1, log1)
    ∧ fact_sales conn1 = fact_sales Fixture.warehouse ++ facts
    ∧ run_etl Fixture.next_key Sample.two_rows (Sample.config "mode" Sample.half)
        conn1 log1 = (inr conn2, log2)
    ∧ fact_sales conn2 = fact_sales conn1 ++ facts.
Proof.
  destruct (run_etl Fixture.next_key Sample.two_rows
              (Sample.config "mode" Sample.half) Fixture.warehouse [])
    as [[e|conn1] log1] eqn:Hrun; [by vm_compute in Hrun|].
  destruct (run_etl_twice Fixture.next_key Sample.two_rows
              (Sample.config "mode" Sample.half) Fixture.warehouse [] conn1 log1
              eq_refl Hrun)
    as (facts & conn2 & log2 & H1 & H2 & H3 & _).
  exists conn1, log1, facts, conn2, log2.
  exact (conj eq_refl (conj H1 (conj H2 H3))).
Defined.

Lemma run_etl_loads_validated_witness :
  ∃ conn j,
    (run_etl Fixture.next_key Sample.two_rows (Sample.config "mode" Sample.half)
       Fixture.warehouse []).1 = inr conn
    ∧ candidate j = Sample.balanced
    ∧ missing_fk j = false
    ∧ fact_row j ∈ fact_sales conn.
Proof.
  destruct (run_etl Fixture.next_key Sample.two_rows
              (Sample.config "mode" Sample.half) Fixture.warehouse []).1
    as [e|conn] eqn:Hrun; [by vm_compute in Hrun|].
  destruct (run_etl_loads_validated Fixture.next_key Sample.two_rows
              (Sample.config "mode" Sample.half) Fixture.warehouse [] conn
              0 Sample.balanced eq_refl Hrun)
    as (j & Hj & Hm & Hf).
  - by left.
  - vm_compute. reflexivity.
  - by exists 20394.
  - by eexists.
  - by eexists.
  - by eexists.
  - by eexists.
  - exists conn, j. exact (conj eq_refl (conj Hj (conj Hm Hf))).
Defined.

Lemma run_etl_dimensions_cover_raw_witness :
  ∃ conn,
    (run_etl Fixture.next_key Sample.two_rows (Sample.config "mode" Sample.half)
       Fixture.warehouse []).1 = inr conn
    ∧ buyer_id Sample.unbalanced ∈ persisted_buyer_ids conn
    ∧ Calendar.midnight 20394 ∈ persisted_dates conn.
Proof.
  destruct (run_etl Fixture.next_key Sample.two_rows
              (Sample.config "mode" Sample.half) Fixture.warehouse []).1
    as [e|conn] eqn:Hrun; [by vm_compute in Hrun|].
  destruct (run_etl_dimensions_cover_raw Fixture.next_key Sample.two_rows
              (Sample.config "mode" Sample.half) Fixture.warehouse [] conn
              eq_refl Hrun) as (Hdates & Hbuyers & _).
  exists conn. split; [reflexivity|]. split.
  - apply (Hbuyers (1, Sample.unbalanced)); [right; by left|by eexists].
  - apply (Hdates (1, Sample.unbalanced) (Calendar.midnight 20394));
      [right; by left|reflexivity].
Defined.

(** ** Identifier cleaning: what the digits decide *)

Section Digits.

Implicit Types (s t : list N) (c : N).

Lemma strip_non_digits_app s t :
  strip_non_digits (s ++ t) = strip_non_digits s ++ strip_non_digits t.
Proof. unfold strip_non_digits. apply filter_app. Qed.

Lemma strip_non_digits_digitless s : digitless s → strip_non_digits s = [].
Proof.
  intros Hs. unfold strip_non_digits. apply filter_none.
  intros c Hc Hd. rewrite (proj1 (Forall_forall _ _) Hs c Hc) in Hd. done.
Qed.

Lemma parse_digits_bounds s :
  Forall (λ c, is_digit c = true) s →
  0 ≤ parse_digits s < 10 ^ len s.
Proof.
  induction s as [|c s IH] using rev_ind; [done|].
  intros [Hs Hc]%Forall_app. rewrite Forall_singleton in Hc.
  rewrite parse_digits_snoc. specialize (IH Hs).
  unfold len in *. rewrite length_app. cbn [length].
  replace (Z.of_nat (length s + 1)) with (Z.of_nat (length s) + 1) by lia.
  rewrite Z.pow_add_r by lia. change (10 ^ 1) with 10.
  unfold is_digit in Hc. apply andb_true_iff in Hc as [Hlo%N.leb_le Hhi%N.leb_le].
  lia.
Qed.

Lemma strip_non_digits_digits s : Forall (λ c, is_digit c = true) (strip_non_digits s).
Proof.
  apply Forall_forall. intros c [Hc _]%list_elem_of_filter. by apply Is_true_true.
Qed.

Lemma parse_digits_zero s : parse_digits (48%N :: s) = parse_digits s.
Proof.
  unfold parse_digits. cbn [foldl]. done.
Qed.

Lemma clean_id_Some s z :
  clean_id (Some s) = Some z ↔
  strip_non_digits s ≠ [] ∧ z = parse_digits (strip_non_digits s).
Proof.
  unfold clean_id. cbn [mbind option_bind].
  destruct (decide (strip_non_digits s = [])) as [->|Hne].
  - split; [done|]. by intros [? _].
  - split; [by intros [= <-]|]. by intros [_ ->].
Qed.

Lemma numeral_fuel_digits (n : nat) (z : Z) :
  0 ≤ z → Forall (λ c, is_digit c = true) (numeral_fuel n z).
Proof.
  revert z. induction n as [|n IH]; intros z Hz; [constructor|].
  cbn [numeral_fuel]. destruct (Z.ltb_spec z 10).
  - apply Forall_singleton. unfold is_digit.
    apply andb_true_iff. split; apply N.leb_le; lia.
  - apply Forall_app. split.
    + apply IH. apply Z.div_pos; lia.
    + apply Forall_singleton. unfold is_digit.
      pose proof (Z.mod_pos_bound z 10 ltac:(lia)).
      apply andb_true_iff. split; apply N.leb_le; lia.
Qed.

Lemma numeral_fuel_parse (n : nat) (z : Z) :
  0 ≤ z < Z.of_nat n → parse_digits (numeral_fuel n z) = z.
Proof.
  revert z. induction n as [|n IH]; intros z Hz; [lia|].
  cbn [numeral_fuel]. destruct (Z.ltb_spec z 10).
  - unfold parse_digits. cbn [foldl]. lia.
  - rewrite parse_digits_snoc, IH.
    + pose proof (Z.div_mod z 10 ltac:(lia)).
      pose proof (Z.mod_pos_bound z 10 ltac:(lia)). lia.
    + split; [apply Z.div_pos; lia|].
      assert (z `div` 10 < z) by (apply Z.div_lt; lia). lia.
Qed.

Lemma numeral_fuel_non_empty (n : nat) (z : Z) : numeral_fuel (S n) z ≠ [].
Proof.
  cbn [numeral_fuel]. destruct (z <? 10); [done|].
  intros Hnil%app_eq_nil. by destruct Hnil.
Qed.

Lemma clean_id_column_cells (col : list (option PyStr)) (cells : list (option Z)) :
  clean_id_column col = Int64Column cells →
  cells = clean_id <$> col ∧ Forall (λ cell, default 0 cell ≤ int64_max) cells.
Proof.
  unfold clean_id_column. destruct (decide _) as [Hfit|]; [|done].
  by intros [= <-].
Qed.

Lemma filter_all {A} (P : A → Prop) `{∀ x, Decision (P x)} (l : list A) :
  Forall P l → filter P l = l.
Proof.
  induction 1 as [|x l Hx _ IH]; [done|].
  by rewrite filter_cons_True, IH.
Qed.

End Digits.

(** X26.  In a column that fits [Int64], the cleaned identifier is decided
    by the digits of the cell alone.  It lies between 0 and [int64_max] and
    has at most as many decimal digits as the cell has; characters that are
    not digits, wherever they are put around the cell, and a leading zero
    leave the whole cleaned column as it is, so a sign is lost and distinct
    raw identifiers can become one. *)
Theorem clean_id_digits
    (col : list (option PyStr)) (cells : list (option Z)) (i : nat) (s : PyStr) (z : Z) :
  clean_id_column col = Int64Column cells →
  col !! i = Some (Some s) →
  cells !! i = Some (Some z) →
  0 ≤ z ≤ int64_max
  ∧ z < 10 ^ len (strip_non_digits s)
  ∧ (∀ pre post, digitless pre → digitless post →
       clean_id_column (<[i := Some (pre ++ s ++ post)]> col) = Int64Column cells)
  ∧ clean_id_column (<[i := Some (48%N :: s)]> col) = Int64Column cells.
Proof.
  intros Hcol Hs Hz.
  destruct (clean_id_column_cells col cells Hcol) as [-> Hfit].
  rewrite list_lookup_fmap, Hs in Hz.
  assert (Hid : clean_id (Some s) = Some z) by (by injection Hz).
  assert (Hsame : ∀ s', clean_id (Some s') = Some z →
            clean_id_column (<[i := Some s']> col) = Int64Column (clean_id <$> col)).
  { intros s' Hs'. unfold clean_id_column.
    rewrite list_fmap_insert, Hs', <- Hid.
    rewrite list_insert_id by (by rewrite list_lookup_fmap, Hs).
    by rewrite decide_True by exact Hfit. }
  clear Hz. pose proof Hid as Hz.
  pose proof Hz as [Hne ->]%clean_id_Some.
  split; [|split; [|split]].
  - split; [apply parse_digits_bounds, strip_non_digits_digits|].
    rewrite Forall_forall in Hfit.
    apply (Hfit (Some (parse_digits (strip_non_digits s)))).
    rewrite <- Hid. apply list_elem_of_fmap_2. by eapply list_elem_of_lookup_2.
  - apply parse_digits_bounds, strip_non_digits_digits.
  - intros pre post Hpre Hpost. apply Hsame, clean_id_Some.
    rewrite !strip_non_digits_app, (strip_non_digits_digitless pre),
      (strip_non_digits_digitless post), app_nil_r by done. done.
  - apply Hsame, clean_id_Some. unfold strip_non_digits.
    rewrite filter_cons_True by done. split; [done|]. by rewrite parse_digits_zero.
Qed.

Lemma clean_id_digits_witness :
  clean_id_column [Some [49; 50; 46; 48]%N; None] = Int64Column [Some 120; None]
  ∧ clean_id_column [Some [45; 49; 50; 46; 48; 32]%N; None]
    = Int64Column [Some 120; None]
  ∧ clean_id_column [Some [48; 49; 50; 46; 48]%N; None] = Int64Column [Some 120; None].
Proof.
  assert (Hcol : clean_id_column [Some [49; 50; 46; 48]%N; None]
                 = Int64Column [Some 120; None]) by reflexivity.
  destruct (clean_id_digits [Some [49; 50; 46; 48]%N; None] [Some 120; None] 0
              [49; 50; 46; 48]%N 120 Hcol eq_refl eq_refl) as (_ & _ & Hjunk & Hzero).
  split; [exact Hcol|]. split; [|exact Hzero].
  apply (Hjunk [45%N] [32%N]); repeat constructor.
Defined.

(** X27.  Identifiers written out as decimal numerals, with or without
    other characters around the digits, are read back by the cleaning step:
    a column of identifiers between 0 and [int64_max], absent ones
    included, is cleaned to exactly those identifiers. *)
Theorem clean_id_numeral (ids : list (option Z)) (pre post : PyStr) :
  Forall (λ id, ∀ z, id = Some z → 0 ≤ z ≤ int64_max) ids →
  digitless pre → digitless post →
  clean_id_column (written pre post <$> ids) = Int64Column ids.
Proof.
  intros Hids Hpre Hpost.
  assert (Hcells : clean_id <$> (written pre post <$> ids) = ids).
  { rewrite <- list_fmap_compose. rewrite <- (list_fmap_id ids) at 2.
    apply Forall_fmap_ext_1. eapply Forall_impl; [exact Hids|].
    intros [z|] Hz; [|done]. cbn [compose written fmap option_fmap option_map].
    specialize (Hz z eq_refl).
    apply clean_id_Some.
    rewrite !strip_non_digits_app, (strip_non_digits_digitless pre),
      (strip_non_digits_digitless post), app_nil_r by done.
    cbn [app]. unfold strip_non_digits, numeral.
    rewrite filter_all
      by (eapply Forall_impl; [apply numeral_fuel_digits; lia|];
          intros c Hc; by apply Is_true_true).
    split; [apply numeral_fuel_non_empty|].
    symmetry. apply numeral_fuel_parse. lia. }
  unfold clean_id_column. rewrite Hcells.
  destruct (decide _) as [_|Hbad]; [done|]. destruct Hbad.
  eapply Forall_impl; [exact Hids|].
  intros [z|] Hz; cbn [default]; [by apply (Hz z)|unfold int64_max; lia].
Qed.

Lemma clean_id_numeral_witness :
  written [73; 68; 45]%N [] (Some 456) = Some [73; 68; 45; 52; 53; 54]%N
  ∧ clean_id_column (written [73; 68; 45]%N [] <$> [Some 456; None; Some int64_max])
    = Int64Column [Some 456; None; Some int64_max].
Proof.
  split; [reflexivity|].
  apply clean_id_numeral.
  - apply Forall_cons_2; [intros z [= <-]; unfold int64_max; lia|].
    apply Forall_cons_2; [by intros ? [=]|].
    apply Forall_cons_2; [intros z [= <-]; unfold int64_max; lia|]. constructor.
  - repeat constructor.
  - constructor.
Defined.
